(** * Attendance admin front end (static/js/main.js): chat formatter,
      mark-attendance controller and list-view controllers.

    JavaScript strings are sequences of UTF-16 code units; a code unit is
    modelled as an [N] and a string as a [list N].  Regular expressions of
    the source are kept as regular expressions ([Regex.re]) and run by a
    derivative matcher; the DOM fields the handlers read and write are
    fields of explicit state records; every request and toast a handler
    issues is an element of the effect list it returns. *)

From Stdlib Require Import String Ascii.
From Stdlib Require Import List Bool Arith NArith ZArith Lia.
Import ListNotations.

Set Implicit Arguments.

(* ================================================================== *)
(** * Part I: definitions *)
(* ================================================================== *)

(** ** JavaScript strings *)
Module JsString.

Definition char := N.
Definition jsstring := list char.

(** Code units of an ASCII literal. *)
Fixpoint str (s : string) : jsstring :=
  match s with
  | EmptyString => []
  | String a rest => N_of_ascii a :: str rest
  end.

Definition LF : char := 10%N.
Definition CR : char := 13%N.
Definition LS : char := 8232%N.   (* U+2028 *)
Definition PS : char := 8233%N.   (* U+2029 *)
Definition NBSP : char := 160%N.  (* U+00A0 *)
Definition DQUOTE : char := 34%N.
Definition AMP : char := 38%N.
Definition STAR : char := 42%N.
Definition DASH : char := 45%N.
Definition COLON : char := 58%N.
Definition LT : char := 60%N.
Definition GT : char := 62%N.
Definition PIPE : char := 124%N.

(** ECMAScript LineTerminator: the characters [.] does not match. *)
Definition isLineTerminator (c : char) : bool :=
  N.eqb c LF || N.eqb c CR || N.eqb c LS || N.eqb c PS.

(** ECMAScript WhiteSpace and LineTerminator: the class [\s], which is also
    the set [String.prototype.trim] strips. *)
Definition isWhiteSpace (c : char) : bool :=
  N.eqb c 9 || N.eqb c 11 || N.eqb c 12 || N.eqb c 32 || N.eqb c NBSP
  || N.eqb c 5760 || (N.leb 8192 c && N.leb c 8202) || N.eqb c 8239
  || N.eqb c 8287 || N.eqb c 12288 || N.eqb c 65279
  || isLineTerminator c.

(** [s.split(sep)] for a one-character separator: never empty. *)
Fixpoint split (sep : char) (s : jsstring) : list jsstring :=
  match s with
  | [] => [[]]
  | c :: rest =>
      if N.eqb c sep then [] :: split sep rest
      else match split sep rest with
           | l :: ls => (c :: l) :: ls
           | [] => [[c]]
           end
  end.

(** [parts.join(sep)] for a separator string. *)
Fixpoint join (sep : jsstring) (parts : list jsstring) : jsstring :=
  match parts with
  | [] => []
  | [p] => p
  | p :: rest => p ++ sep ++ join sep rest
  end.

(** [s.replace(/c/g, by)] for a one-character pattern. *)
Fixpoint replaceChar (c : char) (by_ : jsstring) (s : jsstring) : jsstring :=
  match s with
  | [] => []
  | x :: rest =>
      if N.eqb x c then by_ ++ replaceChar c by_ rest
      else x :: replaceChar c by_ rest
  end.

(** [s.replace(/\s/g, '')]. *)
Definition removeWhiteSpace (s : jsstring) : jsstring :=
  filter (fun c => negb (isWhiteSpace c)) s.

Fixpoint dropWhile (p : char -> bool) (s : jsstring) : jsstring :=
  match s with
  | [] => []
  | c :: rest => if p c then dropWhile p rest else s
  end.

(** [s.trim()]. *)
Definition trim (s : jsstring) : jsstring :=
  rev (dropWhile isWhiteSpace (rev (dropWhile isWhiteSpace s))).

(** [a.slice(1, -1)]: all but the first and the last element. *)
Definition sliceInner {A} (a : list A) : list A := removelast (tl a).

(** Longest prefix of characters satisfying [p], and the rest. *)
Fixpoint span (p : char -> bool) (s : jsstring) : jsstring * jsstring :=
  match s with
  | [] => ([], [])
  | c :: rest =>
      if p c then let '(a, b) := span p rest in (c :: a, b)
      else ([], s)
  end.

End JsString.
Import JsString.

(** ** Regular expressions, run by derivatives

    The two tests of the formatter are regular expressions anchored at both
    ends ([^...$], no flags) whose result is only used as a truth value: the
    test succeeds exactly when the whole string is in the language. *)
Module Regex.

Inductive re : Type :=
| Void
| Eps
| Sym (p : char -> bool)
| Alt (r1 r2 : re)
| Cat (r1 r2 : re)
| Star (r : re).

(** [r+] *)
Definition Plus (r : re) : re := Cat r (Star r).

Fixpoint nullable (r : re) : bool :=
  match r with
  | Void => false
  | Eps => true
  | Sym _ => false
  | Alt r1 r2 => nullable r1 || nullable r2
  | Cat r1 r2 => nullable r1 && nullable r2
  | Star _ => true
  end.

Fixpoint deriv (c : char) (r : re) : re :=
  match r with
  | Void => Void
  | Eps => Void
  | Sym p => if p c then Eps else Void
  | Alt r1 r2 => Alt (deriv c r1) (deriv c r2)
  | Cat r1 r2 =>
      if nullable r1 then Alt (Cat (deriv c r1) r2) (deriv c r2)
      else Cat (deriv c r1) r2
  | Star r0 => Cat (deriv c r0) (Star r0)
  end.

Fixpoint matches (r : re) (s : jsstring) : bool :=
  match s with
  | [] => nullable r
  | c :: rest => matches (deriv c r) rest
  end.

(** The language of a regular expression. *)
Inductive lang : re -> jsstring -> Prop :=
| L_eps : lang Eps []
| L_sym : forall p c, p c = true -> lang (Sym p) [c]
| L_altl : forall r1 r2 s, lang r1 s -> lang (Alt r1 r2) s
| L_altr : forall r1 r2 s, lang r2 s -> lang (Alt r1 r2) s
| L_cat : forall r1 r2 s1 s2,
    lang r1 s1 -> lang r2 s2 -> lang (Cat r1 r2) (s1 ++ s2)
| L_star0 : forall r, lang (Star r) []
| L_star1 : forall r c s1 s2,
    lang r (c :: s1) -> lang (Star r) s2 -> lang (Star r) (c :: s1 ++ s2).

(** The shape shared by both tests of the formatter: a first character in
    [a], one or more characters in [p], a last character in [b]. *)
Definition framed (a p b : char -> bool) (s : jsstring) : Prop :=
  exists x mid y,
    s = x :: mid ++ [y] /\ a x = true /\ b y = true
    /\ mid <> [] /\ forallb p mid = true.

End Regex.

(** ** Chat formatter: [escapeHtml] and [formatAiMessage] *)
Module Chat.
Import Regex.

(** Serialisation of one character of a text node ([div.innerHTML] after
    [div.textContent = s]): the escaping rule of the HTML fragment
    serialisation algorithm. *)
Definition escapeChar (c : char) : jsstring :=
  if N.eqb c AMP then str "&amp;"
  else if N.eqb c NBSP then str "&nbsp;"
  else if N.eqb c LT then str "&lt;"
  else if N.eqb c GT then str "&gt;"
  else [c].

(** [escapeHtml(s)]; [None] stands for [null] and [undefined]. *)
Definition escapeHtml (s : option jsstring) : jsstring :=
  match s with
  | None => []
  | Some t => flat_map escapeChar t
  end.

Definition notStar (c : char) : bool := negb (N.eqb c STAR).

(** One attempt of [/\*\*([^*]+)\*\*/] at the head of [s]: the capture and
    what follows the match.  [[^*]+] is greedy and the character after the
    run must be a star, so only the longest run of non-stars can be
    followed by the closing pair. *)
Definition matchBoldAt (s : jsstring) : option (jsstring * jsstring) :=
  match s with
  | c1 :: c2 :: rest =>
      if N.eqb c1 STAR && N.eqb c2 STAR then
        match span notStar rest with
        | (inner, c3 :: c4 :: after) =>
            if negb (Nat.eqb (length inner) 0) && N.eqb c3 STAR && N.eqb c4 STAR
            then Some (inner, after) else None
        | _ => None
        end
      else None
  | _ => None
  end.

(** [s.replace(/\*\*([^*]+)\*\*/g, '<strong>$1</strong>')].  [skip] counts
    the characters of the last match still to be passed over: the search
    resumes where the previous match ended. *)
Fixpoint replaceBoldFrom (skip : nat) (s : jsstring) : jsstring :=
  match s with
  | [] => []
  | c :: rest =>
      match skip with
      | S k => replaceBoldFrom k rest
      | O =>
          match matchBoldAt s with
          | Some (inner, _) =>
              str "<strong>" ++ inner ++ str "</strong>"
                ++ replaceBoldFrom (length inner + 3) rest
          | None => c :: replaceBoldFrom 0 rest
          end
      end
  end.

Definition replaceBold (s : jsstring) : jsstring := replaceBoldFrom 0 s.

Definition isPipe (c : char) : bool := N.eqb c PIPE.
Definition dot (c : char) : bool := negb (isLineTerminator c).
Definition sepClass (c : char) : bool :=
  N.eqb c DASH || N.eqb c COLON || N.eqb c PIPE.

(** [/^\|.+\|$/] *)
Definition tableRowRe : re := Cat (Sym isPipe) (Cat (Plus (Sym dot)) (Sym isPipe)).
(** [/^\|[\-\:|]+\|$/] *)
Definition separatorRe : re :=
  Cat (Sym isPipe) (Cat (Plus (Sym sepClass)) (Sym isPipe)).

(** [lines[i].match(/^\|.+\|$/)] as a truth value. *)
Definition isTableRow (line : jsstring) : bool := matches tableRowRe line.

(** [tableRows.length >= 2 &&
     tableRows[1].replace(/\s/g, '').match(/^\|[\-\:|]+\|$/)]. *)
Definition skipSep (tableRows : list jsstring) : bool :=
  (2 <=? length tableRows) &&
  match nth_error tableRows 1 with
  | Some row => matches separatorRe (removeWhiteSpace row)
  | None => false
  end.

(** [tableRows[r].split('|').slice(1, -1).map(trim)]. *)
Definition rowCells (row : jsstring) : list jsstring :=
  map trim (sliceInner (split PIPE row)).

Inductive cellTag := th | td.

Definition tagName (t : cellTag) : jsstring :=
  match t with th => str "th" | td => str "td" end.

(** The inner [for] over [cells]. *)
Fixpoint cellsHtml (tag : cellTag) (cells : list jsstring) : jsstring :=
  match cells with
  | [] => []
  | c :: rest =>
      str "<" ++ tagName tag ++ str ">" ++ c
        ++ str "</" ++ tagName tag ++ str ">" ++ cellsHtml tag rest
  end.

(** The [for] over [tableRows], from index [r] on. *)
Fixpoint rowsHtml (skip : bool) (r : nat) (rows : list jsstring) : jsstring :=
  match rows with
  | [] => []
  | row :: rest =>
      if skip && Nat.eqb r 1 then rowsHtml skip (S r) rest
      else
        let tag := if Nat.eqb r 0 && skip then th else td in
        str "<tr>" ++ cellsHtml tag (rowCells row) ++ str "</tr>"
          ++ rowsHtml skip (S r) rest
  end.

Definition tableOpen : jsstring :=
  str "<table class=" ++ DQUOTE :: str "chat-table" ++ DQUOTE :: str ">".

Definition tableHtml (tableRows : list jsstring) : jsstring :=
  tableOpen ++ rowsHtml (skipSep tableRows) 0 tableRows ++ str "</table>".

(** The inner [while]: the rows collected from the head of the remaining
    lines, and the lines left. *)
Fixpoint takeRows (lines : list jsstring) : list jsstring * list jsstring :=
  match lines with
  | [] => ([], [])
  | l :: rest =>
      if isTableRow l then let '(rows, rest') := takeRows rest in (l :: rows, rest')
      else ([], lines)
  end.

(** The outer [while (i < lines.length)], on the lines from [i] on; [None]
    when [fuel] iterations were not enough. *)
Fixpoint scanLines (fuel : nat) (lines : list jsstring) (out : list jsstring)
  : option (list jsstring) :=
  match lines with
  | [] => Some out
  | l :: rest =>
      match fuel with
      | O => None
      | S fuel' =>
          if isTableRow l then
            let '(tableRows, rest') := takeRows lines in
            scanLines fuel' rest' (out ++ [tableHtml tableRows])
          else scanLines fuel' rest (out ++ [l])
      end
  end.

(** [raw || ''] *)
Definition orEmpty (raw : option jsstring) : jsstring :=
  match raw with Some r => r | None => [] end.

(** [formatAiMessage(raw)]: the outer loop runs at most once per line. *)
Definition formatAiMessage (raw : option jsstring) : option jsstring :=
  let s := escapeHtml (Some (orEmpty raw)) in
  let s := replaceBold s in
  let lines := split LF s in
  match scanLines (length lines) lines [] with
  | Some out => Some (replaceChar LF (str "<br>") (join [LF] out))
  | None => None
  end.

End Chat.

(** ** The parser's output as the specification describes it

    The source builds markup directly; these definitions give the same
    result in two steps (parse, then render), so that statements about
    headers, body rows and text segments can be made.  They are compared
    with the source's functions in Part II. *)
Module ChatSpec.
Import Chat.

Record TableBlock := {
  header : option (list jsstring);
  body : list (list jsstring)
}.

Inductive Item :=
| TextSegment (text : jsstring)
| Table (t : TableBlock).

(** A captured block read as the specification words it: with a header the
    second row is dropped and the first row's cells are header cells. *)
Definition parseBlock (tableRows : list jsstring) : TableBlock :=
  if skipSep tableRows then
    {| header := option_map rowCells (hd_error tableRows);
       body := map rowCells (skipn 2 tableRows) |}
  else {| header := None; body := map rowCells tableRows |}.

Definition rowHtml (tag : cellTag) (cells : list jsstring) : jsstring :=
  str "<tr>" ++ cellsHtml tag cells ++ str "</tr>".

Definition renderTable (t : TableBlock) : jsstring :=
  tableOpen
    ++ match header t with Some h => rowHtml th h | None => [] end
    ++ flat_map (rowHtml td) (body t)
    ++ str "</table>".

Definition renderItem (it : Item) : jsstring :=
  match it with
  | TextSegment l => l
  | Table t => renderTable t
  end.

(** Items of a list of lines: every maximal run of table-row lines is one
    table, every other line one text item. *)
Fixpoint parseLines (fuel : nat) (lines : list jsstring) : list Item :=
  match fuel, lines with
  | _, [] => []
  | O, _ => []
  | S fuel', l :: rest =>
      if isTableRow l then
        let '(rows, rest') := takeRows lines in
        Table (parseBlock rows) :: parseLines fuel' rest'
      else TextSegment l :: parseLines fuel' rest
  end.

Definition parse (s : jsstring) : list Item :=
  let lines := split LF s in parseLines (length lines) lines.

Definition isTable (it : Item) : bool :=
  match it with Table _ => true | TextSegment _ => false end.

(** The table-row shape as the specification words it: the trimmed line
    begins and ends with a pipe and has an interior character. *)
Definition specRowShape (line : jsstring) : bool :=
  match trim line with
  | c :: rest =>
      N.eqb c PIPE && (2 <=? length rest) && N.eqb (last rest 0%N) PIPE
  | [] => false
  end.

(** The separator shape as the specification words it: only pipes, dashes
    and colons. *)
Definition specSeparatorShape (s : jsstring) : bool := forallb sepClass s.

(** Markup the formatter itself writes. *)
Definition knownTags : list jsstring :=
  [ str "<strong>"; str "</strong>"; str "<br>"; tableOpen; str "</table>";
    str "<tr>"; str "</tr>"; str "<th>"; str "</th>"; str "<td>"; str "</td>" ].

Definition isAngle (c : char) : bool := N.eqb c LT || N.eqb c GT.

(** Text in which every angle bracket belongs to a tag of [knownTags]. *)
Inductive OnlyKnownTags : jsstring -> Prop :=
| OKT_nil : OnlyKnownTags []
| OKT_char : forall c s,
    isAngle c = false -> OnlyKnownTags s -> OnlyKnownTags (c :: s)
| OKT_tag : forall t s,
    In t knownTags -> OnlyKnownTags s -> OnlyKnownTags (t ++ s).

Definition plain (s : jsstring) : bool := forallb (fun c => negb (isAngle c)) s.

(** Every known tag opens with [<], closes with [>] and holds neither a
    line feed nor a pipe. *)
Definition tagShape (t : jsstring) : bool :=
  match t with
  | c :: rest => N.eqb c LT && N.eqb (last rest 0%N) GT
                 && negb (Nat.eqb (length rest) 0)
  | [] => false
  end
  && forallb (fun c => negb (N.eqb c LF) && negb (N.eqb c PIPE)) t.

Definition hasHeader (t : TableBlock) : bool :=
  match header t with Some _ => true | None => false end.

(** The text the loop scans: escaped, then bold substituted. *)
Definition prepared (raw : option jsstring) : jsstring :=
  replaceBold (escapeHtml (Some (orEmpty raw))).

(** [out.join('\n')], then [s.replace(/\n/g, '<br>')]. *)
Definition brJoin (out : list jsstring) : jsstring :=
  replaceChar LF (str "<br>") (join [LF] out).

(** [/\*\*([^*]+)\*\*/] without its capture. *)
Definition isStar (c : char) : bool := N.eqb c STAR.
Definition boldRe : Regex.re :=
  Regex.Cat (Regex.Sym isStar) (Regex.Cat (Regex.Sym isStar)
    (Regex.Cat (Regex.Plus (Regex.Sym notStar))
       (Regex.Cat (Regex.Sym isStar) (Regex.Sym isStar)))).

(** Characters that neither delimit a line or a cell nor end a [.] run. *)
Definition inertChar (c : char) : bool := negb (isPipe c) && dot c.

Definition inertBlock (b : jsstring) : bool :=
  negb (Nat.eqb (length b) 0) && forallb inertChar b.

(** [Rewritten s s']: [s'] is [s] with some inert blocks replaced by inert
    blocks.  Escaping and the bold substitution both rewrite in this way. *)
Inductive Rewritten : jsstring -> jsstring -> Prop :=
| RW_nil : Rewritten [] []
| RW_char : forall c s s', Rewritten s s' -> Rewritten (c :: s) (c :: s')
| RW_block : forall src out s s',
    inertBlock src = true -> inertBlock out = true ->
    Rewritten s s' -> Rewritten (src ++ s) (out ++ s').

(** Characters that may stand inside a bold cell: no star, no pipe, no
    line terminator. *)
Definition cellChar (c : char) : bool := notStar c && inertChar c.

End ChatSpec.

(** ** Requests and notifications issued by the handlers *)
Module Effects.

Inductive ToastType := success | error.

Record ListQuery := {
  q_page : Z;
  q_per_page : Z;
  q_sort_by : option jsstring;
  q_section_id : option Z;
  q_date : option jsstring;
  q_session : option jsstring;
  q_search : option jsstring
}.

Inductive Effect :=
| Toast (message : jsstring) (type : ToastType)
| GetAttendance (date : jsstring) (section_id : Z) (session : jsstring)
| PostAttendance (date : jsstring) (section_id : Z) (session : jsstring)
    (absent_ids : list Z)
| GetStudents (q : ListQuery)
| GetSections
| GetRecords (q : ListQuery).

(** Truthiness of a number that may be [null]. *)
Definition truthyNum (n : option Z) : bool :=
  match n with Some v => negb (Z.eqb v 0) | None => false end.

(** Truthiness of a string that may be [null]. *)
Definition truthyStr (s : option jsstring) : bool :=
  match s with Some (_ :: _) => true | _ => false end.

(** [Math.ceil(total / perPage) || 1] on integers, [perPage] positive. *)
Definition totalPagesOf (total perPage : Z) : Z :=
  let c := (- ((- total) / perPage))%Z in
  if Z.eqb c 0 then 1%Z else c.

End Effects.

(** ** Mark-attendance controller *)
Module Mark.
Import Effects.

Record RosterEntry := {
  student_id : Z;
  roll_no : jsstring;
  name : jsstring;
  status : jsstring
}.

(** One student of the server's answer; [None] is a missing status. *)
Record ResponseEntry := {
  r_student_id : Z;
  r_roll_no : jsstring;
  r_name : jsstring;
  r_status : option jsstring
}.

(** A displayed row: its [data-id] and the class of its status button. *)
Record Row := {
  row_id : Z;
  row_roll_no : jsstring;
  row_name : jsstring;
  row_status : jsstring
}.

Record Summary := { total : Z; present : Z; absent : Z }.

Record State := {
  (* module variables *)
  currentMarkSectionId : option Z;
  currentMarkDate : option jsstring;
  currentMarkSession : option jsstring;
  markAttendanceStudents : list RosterEntry;
  markEditingMode : bool;
  (* form fields *)
  markSection : option Z;
  markDate : jsstring;
  markSession : jsstring;
  markSearch : jsstring;
  (* rendered page *)
  markSaveBtnDisabled : bool;
  markWarningShown : bool;
  markTbody : list Row;
  markSummaryShown : bool;
  markSummary : Summary
}.

Inductive Field := FSection (v : option Z) | FDate (v : jsstring) | FSession (v : jsstring).

Inductive Event :=
| LoadClick
| FieldChange (f : Field)
| SearchInput (text : jsstring)
| AllPresentClick
| AllAbsentClick
| ToggleClick (row : nat)
| SaveClick
| LoadOk (students : list ResponseEntry)
| LoadFailed (message : jsstring)
| SaveOk
| SaveFailed (message : jsstring).

Definition PRESENT : jsstring := str "present".
Definition ABSENT : jsstring := str "absent".

Fixpoint strEqb (a b : jsstring) : bool :=
  match a, b with
  | [], [] => true
  | x :: a', y :: b' => N.eqb x y && strEqb a' b'
  | _, _ => false
  end.

Fixpoint isPrefix (p s : jsstring) : bool :=
  match p, s with
  | [], _ => true
  | x :: p', y :: s' => N.eqb x y && isPrefix p' s'
  | _ :: _, [] => false
  end.

(** [s.indexOf(p) >= 0] *)
Fixpoint contains (p s : jsstring) : bool :=
  isPrefix p s || match s with [] => false | _ :: s' => contains p s' end.

(** [x || 'present'] on a string *)
Definition orPresent (s : jsstring) : jsstring :=
  match s with [] => PRESENT | _ => s end.

Section Controller.

(** [String.prototype.toLowerCase], the platform's case mapping. *)
Variable toLowerCase : jsstring -> jsstring.

Definition displayedEntries (st : State) : list RosterEntry :=
  let search := toLowerCase (markSearch st) in
  match search with
  | [] => markAttendanceStudents st
  | _ =>
      filter (fun s => contains search (toLowerCase (roll_no s))
                       || contains search (toLowerCase (name s)))
             (markAttendanceStudents st)
  end.

Definition rowOf (s : RosterEntry) : Row :=
  {| row_id := student_id s; row_roll_no := roll_no s; row_name := name s;
     row_status := orPresent (status s) |}.

Definition withTbody (st : State) (rows : list Row) : State :=
  {| currentMarkSectionId := currentMarkSectionId st;
     currentMarkDate := currentMarkDate st;
     currentMarkSession := currentMarkSession st;
     markAttendanceStudents := markAttendanceStudents st;
     markEditingMode := markEditingMode st;
     markSection := markSection st; markDate := markDate st;
     markSession := markSession st; markSearch := markSearch st;
     markSaveBtnDisabled := markSaveBtnDisabled st;
     markWarningShown := markWarningShown st;
     markTbody := rows;
     markSummaryShown := markSummaryShown st;
     markSummary := markSummary st |}.

Definition withStudents (st : State) (l : list RosterEntry) : State :=
  {| currentMarkSectionId := currentMarkSectionId st;
     currentMarkDate := currentMarkDate st;
     currentMarkSession := currentMarkSession st;
     markAttendanceStudents := l;
     markEditingMode := markEditingMode st;
     markSection := markSection st; markDate := markDate st;
     markSession := markSession st; markSearch := markSearch st;
     markSaveBtnDisabled := markSaveBtnDisabled st;
     markWarningShown := markWarningShown st;
     markTbody := markTbody st;
     markSummaryShown := markSummaryShown st;
     markSummary := markSummary st |}.

Definition withSaveDisabled (st : State) (b : bool) : State :=
  {| currentMarkSectionId := currentMarkSectionId st;
     currentMarkDate := currentMarkDate st;
     currentMarkSession := currentMarkSession st;
     markAttendanceStudents := markAttendanceStudents st;
     markEditingMode := markEditingMode st;
     markSection := markSection st; markDate := markDate st;
     markSession := markSession st; markSearch := markSearch st;
     markSaveBtnDisabled := b;
     markWarningShown := markWarningShown st;
     markTbody := markTbody st;
     markSummaryShown := markSummaryShown st;
     markSummary := markSummary st |}.

(** [renderMarkTable()] *)
Definition renderMarkTable (st : State) : State :=
  withTbody st (map rowOf (displayedEntries st)).

(** [filterMarkTable()] *)
Definition filterMarkTable (st : State) : State := renderMarkTable st.

(** The three numbers [updateMarkSummary] writes. *)
Definition summaryOf (roster : list RosterEntry) : Summary :=
  let total := Z.of_nat (length roster) in
  let present :=
    Z.of_nat (length (filter (fun s => strEqb (status s) PRESENT) roster)) in
  let absent := (total - present)%Z in
  {| total := total; present := present; absent := absent |}.

(** [updateMarkSummary()] *)
Definition updateMarkSummary (st : State) : State :=
  let sm := summaryOf (markAttendanceStudents st) in
  {| currentMarkSectionId := currentMarkSectionId st;
     currentMarkDate := currentMarkDate st;
     currentMarkSession := currentMarkSession st;
     markAttendanceStudents := markAttendanceStudents st;
     markEditingMode := markEditingMode st;
     markSection := markSection st; markDate := markDate st;
     markSession := markSession st; markSearch := markSearch st;
     markSaveBtnDisabled := markSaveBtnDisabled st;
     markWarningShown := markWarningShown st;
     markTbody := markTbody st;
     markSummaryShown := negb (Z.eqb (total sm) 0);
     markSummary := sm |}.

Definition setStatus (v : jsstring) (s : RosterEntry) : RosterEntry :=
  {| student_id := student_id s; roll_no := roll_no s; name := name s;
     status := v |}.

(** [rec.status = rec.status === 'present' ? 'absent' : 'present'] *)
Definition flipStatus (s : RosterEntry) : RosterEntry :=
  setStatus (if strEqb (status s) PRESENT then ABSENT else PRESENT) s.

(** The record [find] returns is the first one with the id; it is updated
    in place. *)
Fixpoint toggleFirst (id : Z) (roster : list RosterEntry) : list RosterEntry :=
  match roster with
  | [] => []
  | s :: rest =>
      if Z.eqb (student_id s) id then flipStatus s :: rest
      else s :: toggleFirst id rest
  end.

Fixpoint setRowStatus (k : nat) (v : jsstring) (rows : list Row) : list Row :=
  match rows, k with
  | [], _ => []
  | r :: rest, O =>
      {| row_id := row_id r; row_roll_no := row_roll_no r;
         row_name := row_name r; row_status := v |} :: rest
  | r :: rest, S k' => r :: setRowStatus k' v rest
  end.

(** The click handler of the status button of displayed row [k]. *)
Definition toggleRow (k : nat) (st : State) : State :=
  match nth_error (markTbody st) k with
  | None => st
  | Some r =>
      let id := row_id r in
      match find (fun x => Z.eqb (student_id x) id) (markAttendanceStudents st) with
      | None => st
      | Some rec =>
          let st1 := withStudents st (toggleFirst id (markAttendanceStudents st)) in
          let st2 := withTbody st1
                       (setRowStatus k (status (flipStatus rec)) (markTbody st1)) in
          updateMarkSummary st2
      end
  end.

(** The handlers of "Select All Present" and "Select All Absent". *)
Definition markAll (v : jsstring) (st : State) : State :=
  updateMarkSummary
    (renderMarkTable
       (withStudents st (map (setStatus v) (markAttendanceStudents st)))).

(** [loadMarkAttendance()] up to the request. *)
Definition loadMarkAttendance (st : State) : State * list Effect :=
  let sectionId := markSection st in
  let dateStr := markDate st in
  let session := markSession st in
  match sectionId, dateStr with
  | Some sid, _ :: _ =>
      if Z.eqb sid 0 then (st, [Toast (str "Select section and date.") error])
      else
        ({| currentMarkSectionId := Some sid;
            currentMarkDate := Some dateStr;
            currentMarkSession := Some session;
            markAttendanceStudents := markAttendanceStudents st;
            markEditingMode := markEditingMode st;
            markSection := markSection st; markDate := markDate st;
            markSession := markSession st; markSearch := markSearch st;
            markSaveBtnDisabled := true;
            markWarningShown := markWarningShown st;
            markTbody := markTbody st;
            markSummaryShown := markSummaryShown st;
            markSummary := markSummary st |},
         [GetAttendance dateStr sid session])
  | _, _ => (st, [Toast (str "Select section and date.") error])
  end.

Definition entryOfResponse (s : ResponseEntry) : RosterEntry :=
  {| student_id := r_student_id s; roll_no := r_roll_no s; name := r_name s;
     status := match r_status s with
               | Some (c :: v) => c :: v
               | _ => PRESENT
               end |}.

(** The [then] branch of the roster request. *)
Definition onLoadOk (students : list ResponseEntry) (st : State) : State :=
  let roster := map entryOfResponse students in
  let editing := existsb (fun s => negb (strEqb (status s) PRESENT)) roster in
  let st1 :=
    {| currentMarkSectionId := currentMarkSectionId st;
       currentMarkDate := currentMarkDate st;
       currentMarkSession := currentMarkSession st;
       markAttendanceStudents := roster;
       markEditingMode := editing;
       markSection := markSection st; markDate := markDate st;
       markSession := markSession st; markSearch := markSearch st;
       markSaveBtnDisabled := markSaveBtnDisabled st;
       markWarningShown := editing;
       markTbody := markTbody st;
       markSummaryShown := markSummaryShown st;
       markSummary := markSummary st |} in
  withSaveDisabled (updateMarkSummary (renderMarkTable st1)) false.

(** The ids [saveMarkAttendance] sends. *)
Definition absentIds (roster : list RosterEntry) : list Z :=
  map student_id (filter (fun s => strEqb (status s) ABSENT) roster).

(** [saveMarkAttendance()] up to the request. *)
Definition saveMarkAttendance (st : State) : State * list Effect :=
  if negb (truthyNum (currentMarkSectionId st))
     || negb (truthyStr (currentMarkDate st))
     || negb (truthyStr (currentMarkSession st))
  then (st, [])
  else
    match currentMarkSectionId st, currentMarkDate st, currentMarkSession st with
    | Some sid, Some d, Some ses =>
        (withSaveDisabled st true,
         [PostAttendance d sid ses (absentIds (markAttendanceStudents st))])
    | _, _, _ => (st, [])
    end.

(** The [then] branch of the save request. *)
Definition onSaveOk (st : State) : State * list Effect :=
  let st1 := withSaveDisabled st false in
  let '(st2, effs) := loadMarkAttendance st1 in
  (st2, Toast (str "Attendance saved successfully.") success :: effs).

(** The [catch] branch of the save request. *)
Definition onSaveFailed (message : jsstring) (st : State) : State * list Effect :=
  (withSaveDisabled st false, [Toast message error]).

(** The change handler shared by the section, date and session fields,
    after the field took its new value. *)
Definition onFieldChange (f : Field) (st : State) : State :=
  {| currentMarkSectionId := currentMarkSectionId st;
     currentMarkDate := currentMarkDate st;
     currentMarkSession := currentMarkSession st;
     markAttendanceStudents := markAttendanceStudents st;
     markEditingMode := markEditingMode st;
     markSection := match f with FSection v => v | _ => markSection st end;
     markDate := match f with FDate v => v | _ => markDate st end;
     markSession := match f with FSession v => v | _ => markSession st end;
     markSearch := markSearch st;
     markSaveBtnDisabled := true;
     markWarningShown := markWarningShown st;
     markTbody := [];
     markSummaryShown := false;
     markSummary := markSummary st |}.

Definition onSearchInput (text : jsstring) (st : State) : State :=
  filterMarkTable
    {| currentMarkSectionId := currentMarkSectionId st;
       currentMarkDate := currentMarkDate st;
       currentMarkSession := currentMarkSession st;
       markAttendanceStudents := markAttendanceStudents st;
       markEditingMode := markEditingMode st;
       markSection := markSection st; markDate := markDate st;
       markSession := markSession st; markSearch := text;
       markSaveBtnDisabled := markSaveBtnDisabled st;
       markWarningShown := markWarningShown st;
       markTbody := markTbody st;
       markSummaryShown := markSummaryShown st;
       markSummary := markSummary st |}.

(** One event of the page.  A click on the disabled save button is not
    delivered, and Ctrl+S checks the same flag. *)
Definition step (st : State) (e : Event) : State * list Effect :=
  match e with
  | LoadClick => loadMarkAttendance st
  | FieldChange f => (onFieldChange f st, [])
  | SearchInput text => (onSearchInput text st, [])
  | AllPresentClick => (markAll PRESENT st, [])
  | AllAbsentClick => (markAll ABSENT st, [])
  | ToggleClick k => (toggleRow k st, [])
  | SaveClick =>
      if markSaveBtnDisabled st then (st, []) else saveMarkAttendance st
  | LoadOk students => (onLoadOk students st, [])
  | LoadFailed message =>
      (withSaveDisabled st false, [Toast message error])
  | SaveOk => onSaveOk st
  | SaveFailed message => onSaveFailed message st
  end.

(** A run of events, with everything it issued, in order. *)
Fixpoint run (st : State) (es : list Event) : State * list Effect :=
  match es with
  | [] => (st, [])
  | e :: rest =>
      let '(st1, effs1) := step st e in
      let '(st2, effs2) := run st1 rest in
      (st2, effs1 ++ effs2)
  end.

End Controller.

(** The displayed summary is the summary of the whole roster. *)
Definition summaryCurrent (st : State) : Prop :=
  markSummary st = summaryOf (markAttendanceStudents st).

(** Events that edit or filter the loaded roster and leave the form's
    section, date and session alone. *)
Definition editEvent (e : Event) : bool :=
  match e with
  | ToggleClick _ | AllPresentClick | AllAbsentClick | SearchInput _ => true
  | _ => false
  end.

(** The key of the last load, as [saveMarkAttendance] reads it. *)
Definition currentKey (st : State)
  : option Z * option jsstring * option jsstring :=
  (currentMarkSectionId st, currentMarkDate st, currentMarkSession st).

(** The key the form shows, as [loadMarkAttendance] reads it. *)
Definition formKey (st : State) : option Z * jsstring * jsstring :=
  (markSection st, markDate st, markSession st).

(** What an editing event leaves alone. *)
Definition frame (st : State) :=
  (currentKey st, formKey st, markSaveBtnDisabled st).

(** The page as [renderMarkAttendance] builds it, before any load. *)
Definition initial (today : jsstring) : State :=
  {| currentMarkSectionId := None; currentMarkDate := None;
     currentMarkSession := None; markAttendanceStudents := [];
     markEditingMode := false;
     markSection := None; markDate := today; markSession := str "morning";
     markSearch := [];
     markSaveBtnDisabled := true; markWarningShown := false;
     markTbody := []; markSummaryShown := false;
     markSummary := {| total := 0; present := 0; absent := 0 |} |}.

End Mark.

(** ** List views: students and attendance records *)
Module ListView.
Import Effects.

(** [s ? s : omitted] for an optional query parameter. *)
Definition optStr (s : jsstring) : option jsstring :=
  match s with [] => None | _ => Some s end.

Definition optNum (n : option Z) : option Z :=
  if truthyNum n then n else None.

Module Students.

Record State := {
  studentsPage : Z;
  studentsPerPage : Z;
  studentsTotal : Z;
  studentsSectionId : option Z;
  studentsSearch : jsstring;
  studentsSortBy : jsstring;
  (* [totalPages] held by the rendered Previous/Next buttons, if rendered *)
  studentsPagination : option Z
}.

Inductive Event :=
| SearchInput (value : jsstring)
| SectionFilterChange (value : option Z)
| PerPageChange (value : Z)
| SortClick (column : jsstring)
| PrevClick
| NextClick
| StudentsOk (total : option Z)   (* [data.total] of the answer *)
| SectionsOk                      (* second request of the chain answered *)
| Failed.

(** The query string [loadStudentsList] builds. *)
Definition query (st : State) : ListQuery :=
  {| q_page := studentsPage st; q_per_page := studentsPerPage st;
     q_sort_by := Some (studentsSortBy st);
     q_section_id := optNum (studentsSectionId st);
     q_date := None; q_session := None;
     q_search := optStr (studentsSearch st) |}.

(** [loadStudentsList()] up to the request. *)
Definition loadStudentsList (st : State) : State * list Effect :=
  (st, [GetStudents (query st)]).

Definition withPage (st : State) (p : Z) : State :=
  {| studentsPage := p; studentsPerPage := studentsPerPage st;
     studentsTotal := studentsTotal st;
     studentsSectionId := studentsSectionId st;
     studentsSearch := studentsSearch st; studentsSortBy := studentsSortBy st;
     studentsPagination := studentsPagination st |}.

Definition step (st : State) (e : Event) : State * list Effect :=
  match e with
  | SearchInput v =>
      loadStudentsList
        {| studentsPage := 1; studentsPerPage := studentsPerPage st;
           studentsTotal := studentsTotal st;
           studentsSectionId := studentsSectionId st;
           studentsSearch := v; studentsSortBy := studentsSortBy st;
           studentsPagination := studentsPagination st |}
  | SectionFilterChange v =>
      loadStudentsList
        {| studentsPage := 1; studentsPerPage := studentsPerPage st;
           studentsTotal := studentsTotal st;
           studentsSectionId := v;
           studentsSearch := studentsSearch st; studentsSortBy := studentsSortBy st;
           studentsPagination := studentsPagination st |}
  | PerPageChange v =>
      loadStudentsList
        {| studentsPage := 1; studentsPerPage := v;
           studentsTotal := studentsTotal st;
           studentsSectionId := studentsSectionId st;
           studentsSearch := studentsSearch st; studentsSortBy := studentsSortBy st;
           studentsPagination := studentsPagination st |}
  | SortClick col =>
      loadStudentsList
        {| studentsPage := studentsPage st; studentsPerPage := studentsPerPage st;
           studentsTotal := studentsTotal st;
           studentsSectionId := studentsSectionId st;
           studentsSearch := studentsSearch st; studentsSortBy := col;
           studentsPagination := studentsPagination st |}
  | PrevClick =>
      match studentsPagination st with
      | None => (st, [])
      | Some _ =>
          loadStudentsList
            (if (1 <? studentsPage st)%Z then withPage st (studentsPage st - 1)
             else st)
      end
  | NextClick =>
      match studentsPagination st with
      | None => (st, [])
      | Some totalPages =>
          loadStudentsList
            (if (studentsPage st <? totalPages)%Z
             then withPage st (studentsPage st + 1) else st)
      end
  | StudentsOk total =>
      ({| studentsPage := studentsPage st; studentsPerPage := studentsPerPage st;
          studentsTotal := if truthyNum total then
                             match total with Some t => t | None => 0%Z end
                           else 0%Z;
          studentsSectionId := studentsSectionId st;
          studentsSearch := studentsSearch st; studentsSortBy := studentsSortBy st;
          studentsPagination := studentsPagination st |},
       [GetSections])
  | SectionsOk =>
      let totalPages := totalPagesOf (studentsTotal st) (studentsPerPage st) in
      ({| studentsPage := studentsPage st; studentsPerPage := studentsPerPage st;
          studentsTotal := studentsTotal st;
          studentsSectionId := studentsSectionId st;
          studentsSearch := studentsSearch st; studentsSortBy := studentsSortBy st;
          studentsPagination :=
            if (1 <? totalPages)%Z then Some totalPages else None |},
       [])
  | Failed => (st, [])
  end.

(** The actions that change the search text, the section filter or the
    page size. *)
Definition isFilterEvent (e : Event) : bool :=
  match e with
  | SearchInput _ | SectionFilterChange _ | PerPageChange _ => true
  | _ => false
  end.

(** The module variables at start-up. *)
Definition initial : State :=
  {| studentsPage := 1; studentsPerPage := 25; studentsTotal := 0;
     studentsSectionId := None; studentsSearch := [];
     studentsSortBy := str "roll_no"; studentsPagination := None |}.

End Students.

Module Records.

Record State := {
  recordsPage : Z;
  recordsPerPage : Z;
  recordsSearch : jsstring;
  (* form fields *)
  recordsSection : option Z;
  recordsDate : jsstring;
  recordsSession : jsstring;
  (* [totalPages] held by the rendered Previous/Next buttons, if rendered *)
  recordsPagination : option Z
}.

Inductive Event :=
| SectionChange (value : option Z)
| DateChange (value : jsstring)
| SessionChange (value : jsstring)
| SearchInput (value : jsstring)
| PerPageChange (value : Z)
| LoadClick
| PrevClick
| NextClick
| RecordsOk (total : option Z)   (* [data.total] of the answer *)
| Failed.

Definition query (sid : Z) (st : State) : ListQuery :=
  {| q_page := recordsPage st; q_per_page := recordsPerPage st;
     q_sort_by := None;
     q_section_id := Some sid;
     q_date := Some (recordsDate st); q_session := Some (recordsSession st);
     q_search := optStr (recordsSearch st) |}.

(** [loadRecords()] up to the request; without a section or a date it
    only writes a hint into the table. *)
Definition loadRecords (st : State) : State * list Effect :=
  match recordsSection st, recordsDate st with
  | Some sid, _ :: _ =>
      if Z.eqb sid 0 then (st, []) else (st, [GetRecords (query sid st)])
  | _, _ => (st, [])
  end.

Definition withPage (st : State) (p : Z) : State :=
  {| recordsPage := p; recordsPerPage := recordsPerPage st;
     recordsSearch := recordsSearch st; recordsSection := recordsSection st;
     recordsDate := recordsDate st; recordsSession := recordsSession st;
     recordsPagination := recordsPagination st |}.

Definition step (st : State) (e : Event) : State * list Effect :=
  match e with
  | SectionChange v =>
      loadRecords
        {| recordsPage := 1; recordsPerPage := recordsPerPage st;
           recordsSearch := recordsSearch st; recordsSection := v;
           recordsDate := recordsDate st; recordsSession := recordsSession st;
           recordsPagination := recordsPagination st |}
  | DateChange v =>
      loadRecords
        {| recordsPage := 1; recordsPerPage := recordsPerPage st;
           recordsSearch := recordsSearch st; recordsSection := recordsSection st;
           recordsDate := v; recordsSession := recordsSession st;
           recordsPagination := recordsPagination st |}
  | SessionChange v =>
      loadRecords
        {| recordsPage := 1; recordsPerPage := recordsPerPage st;
           recordsSearch := recordsSearch st; recordsSection := recordsSection st;
           recordsDate := recordsDate st; recordsSession := v;
           recordsPagination := recordsPagination st |}
  | SearchInput v =>
      loadRecords
        {| recordsPage := 1; recordsPerPage := recordsPerPage st;
           recordsSearch := v; recordsSection := recordsSection st;
           recordsDate := recordsDate st; recordsSession := recordsSession st;
           recordsPagination := recordsPagination st |}
  | PerPageChange v =>
      loadRecords
        {| recordsPage := 1; recordsPerPage := v;
           recordsSearch := recordsSearch st; recordsSection := recordsSection st;
           recordsDate := recordsDate st; recordsSession := recordsSession st;
           recordsPagination := recordsPagination st |}
  | LoadClick => loadRecords st
  | PrevClick =>
      match recordsPagination st with
      | None => (st, [])
      | Some _ =>
          loadRecords
            (if (1 <? recordsPage st)%Z then withPage st (recordsPage st - 1)
             else st)
      end
  | NextClick =>
      match recordsPagination st with
      | None => (st, [])
      | Some totalPages =>
          loadRecords
            (if (recordsPage st <? totalPages)%Z
             then withPage st (recordsPage st + 1) else st)
      end
  | RecordsOk total =>
      let total := if truthyNum total then
                     match total with Some t => t | None => 0%Z end
                   else 0%Z in
      let totalPages := totalPagesOf total (recordsPerPage st) in
      ({| recordsPage := recordsPage st; recordsPerPage := recordsPerPage st;
          recordsSearch := recordsSearch st; recordsSection := recordsSection st;
          recordsDate := recordsDate st; recordsSession := recordsSession st;
          recordsPagination :=
            if (1 <? totalPages)%Z then Some totalPages else None |},
       [])
  | Failed => (st, [])
  end.

(** The actions that change the search text, the section (or the date or
    the session) or the page size. *)
Definition isFilterEvent (e : Event) : bool :=
  match e with
  | SearchInput _ | SectionChange _ | DateChange _ | SessionChange _
  | PerPageChange _ => true
  | _ => false
  end.

End Records.

End ListView.

(** ** Further notions about the chat formatter *)
Module ChatAux.
Import Chat.

(** The outer loop of [formatAiMessage] on all the lines, from an empty
    [out]. *)
Definition scanAll (lines : list jsstring) : option (list jsstring) :=
  scanLines (length lines) lines [].

(** No two stars stand side by side. *)
Fixpoint noStarPair (s : jsstring) : bool :=
  match s with
  | c1 :: ((c2 :: _) as rest) =>
      negb (N.eqb c1 STAR && N.eqb c2 STAR) && noStarPair rest
  | _ => true
  end.

(** The characters [escapeHtml] rewrites. *)
Definition isSpecial (c : char) : bool :=
  N.eqb c AMP || N.eqb c NBSP || N.eqb c LT || N.eqb c GT.

(** Neither the first nor the last character is white space. *)
Definition trimmed (s : jsstring) : bool :=
  match s with
  | [] => true
  | c :: rest => negb (isWhiteSpace c) && negb (isWhiteSpace (last rest c))
  end.

Definition noLF (s : jsstring) : bool :=
  forallb (fun c => negb (N.eqb c LF)) s.

Definition noPipe (s : jsstring) : bool :=
  forallb (fun c => negb (N.eqb c PIPE)) s.

End ChatAux.

(** ** Further notions about the mark-attendance page *)
Module MarkAux.
Import Effects Mark.

(** The status is one of the two the page itself writes. *)
Definition binaryStatus (s : RosterEntry) : bool :=
  strEqb (status s) PRESENT || strEqb (status s) ABSENT.

(** A status of the server's answer that loads as something other than
    [present]. *)
Definition loadsNonPresent (s : ResponseEntry) : bool :=
  match r_status s with
  | Some (c :: v) => negb (strEqb (c :: v) PRESENT)
  | _ => false
  end.

(** Who a roster entry is, apart from its status. *)
Definition identity (s : RosterEntry) : Z * jsstring * jsstring :=
  (student_id s, roll_no s, name s).

(** What the user does on the page, as opposed to answers of the server. *)
Definition userEvent (e : Event) : bool :=
  match e with
  | LoadOk _ | LoadFailed _ | SaveOk | SaveFailed _ => false
  | _ => true
  end.

Definition isPost (eff : Effect) : bool :=
  match eff with PostAttendance _ _ _ _ => true | _ => false end.

End MarkAux.

(** ** Runs of the list views *)
Module ListViewAux.
Import Effects ListView.

Fixpoint runStudents (st : Students.State) (es : list Students.Event)
  : Students.State :=
  match es with
  | [] => st
  | e :: rest => runStudents (fst (Students.step st e)) rest
  end.

Fixpoint runRecords (st : Records.State) (es : list Records.Event)
  : Records.State :=
  match es with
  | [] => st
  | e :: rest => runRecords (fst (Records.step st e)) rest
  end.

Definition isPaging (e : Students.Event) : bool :=
  match e with
  | Students.PrevClick | Students.NextClick => true
  | _ => false
  end.

Definition isPagingRecords (e : Records.Event) : bool :=
  match e with
  | Records.PrevClick | Records.NextClick => true
  | _ => false
  end.

(** The query state of the students view apart from the page. *)
Definition studentsFilters (st : Students.State) :=
  (Students.studentsPerPage st, Students.studentsTotal st,
   Students.studentsSectionId st, Students.studentsSearch st,
   Students.studentsSortBy st, Students.studentsPagination st).

Definition recordsFilters (st : Records.State) :=
  (Records.recordsPerPage st, Records.recordsSearch st,
   Records.recordsSection st, Records.recordsDate st,
   Records.recordsSession st, Records.recordsPagination st).

End ListViewAux.

(** ** Section and student dialogs, the confirm dialog *)
Module Admin.
Import Effects.

Inductive Request :=
| PostSection (name : jsstring)
| PatchSection (id : Z) (name : jsstring)
| DeleteSection (id : Z)
| GetSectionList
| GetStudent (id : Z)
| PostStudent (section_id : Z) (roll_no name : jsstring)
| PatchStudent (id section_id : Z) (roll_no name : jsstring)
| DeleteStudent (id : Z).

(** What a handler sets going: a request, a toast, or a call of one of the
    page's render routines. *)
Inductive Action :=
| Send (r : Request)
| ShowToast (message : jsstring) (type : ToastType)
| CallRenderSections
| CallLoadStudentsList.

Record SectionInfo := { sec_id : Z; sec_name : jsstring }.

(** *** The section dialog: [openSectionModal], [closeSectionModal] and the
    submit handler of [formSection] *)
Module SectionForm.

Record State := {
  sectionsCache : list SectionInfo;
  modalShown : bool;
  modalTitle : jsstring;
  sectionName : jsstring;          (* the name field *)
  editId : option Z                (* [form.dataset.editId], when set *)
}.

Inductive Event :=
| Open (id : option Z)
| NameInput (value : jsstring)
| Submit
| Cancel
| SaveOk
| SaveFailed (message : jsstring)
| SectionsLoaded (list : list SectionInfo).

(** [openSectionModal(id)] *)
Definition openSectionModal (id : option Z) (st : State) : State :=
  match id with
  | Some i =>
      let s := find (fun x => Z.eqb (sec_id x) i) (sectionsCache st) in
      {| sectionsCache := sectionsCache st; modalShown := true;
         modalTitle := str "Edit Section";
         sectionName := match s with Some x => sec_name x | None => [] end;
         editId := Some i |}
  | None =>
      {| sectionsCache := sectionsCache st; modalShown := true;
         modalTitle := str "Add Section"; sectionName := [];
         editId := None |}
  end.

(** [closeSectionModal()] *)
Definition closeSectionModal (st : State) : State :=
  {| sectionsCache := sectionsCache st; modalShown := false;
     modalTitle := modalTitle st; sectionName := sectionName st;
     editId := editId st |}.

(** The submit handler up to the request.  A stored edit id is the text of
    a number and so never empty. *)
Definition submit (st : State) : State * list Action :=
  let name := trim (sectionName st) in
  match name with
  | [] => (st, [])
  | _ =>
      match editId st with
      | Some id => (st, [Send (PatchSection id name)])
      | None => (st, [Send (PostSection name)])
      end
  end.

Definition step (st : State) (e : Event) : State * list Action :=
  match e with
  | Open id => (openSectionModal id st, [])
  | NameInput v =>
      ({| sectionsCache := sectionsCache st; modalShown := modalShown st;
          modalTitle := modalTitle st; sectionName := v;
          editId := editId st |}, [])
  | Submit => submit st
  | Cancel => (closeSectionModal st, [])
  | SaveOk =>
      (closeSectionModal st,
       [ShowToast (str "Section saved.") success; CallRenderSections])
  | SaveFailed message => (st, [ShowToast message error])
  | SectionsLoaded list =>
      ({| sectionsCache := list; modalShown := modalShown st;
          modalTitle := modalTitle st; sectionName := sectionName st;
          editId := editId st |}, [])
  end.

Fixpoint run (st : State) (es : list Event) : State * list Action :=
  match es with
  | [] => (st, [])
  | e :: rest =>
      let '(st1, a1) := step st e in
      let '(st2, a2) := run st1 rest in
      (st2, a1 ++ a2)
  end.

End SectionForm.

(** *** The confirm dialog shared by [confirmDeleteSection] and
    [confirmDeleteStudent] *)
Module Confirm.

Inductive Target := TSection (id : Z) | TStudent (id : Z).

Record State := {
  confirmShown : bool;
  confirmTitle : jsstring;
  confirmBody : jsstring;
  confirmOk : option Target     (* what [btnConfirmOk.onclick] deletes *)
}.

Inductive Event :=
| Ask (t : Target)
| OkClick
| CancelClick
| DeleteOk (t : Target)                 (* answer to the request for [t] *)
| DeleteFailed (message : jsstring).

Definition sectionBody (cache : list SectionInfo) (id : Z) : jsstring :=
  let s := find (fun x => Z.eqb (sec_id x) id) cache in
  str "Delete section " ++ DQUOTE
    :: match s with Some x => sec_name x | None => [] end
    ++ DQUOTE
    :: str "? All students and attendance in this section will be removed.".

(** [confirmDeleteSection(id)] and [confirmDeleteStudent(id)] *)
Definition ask (cache : list SectionInfo) (t : Target) (st : State) : State :=
  match t with
  | TSection id =>
      {| confirmShown := true; confirmTitle := str "Delete Section";
         confirmBody := sectionBody cache id; confirmOk := Some t |}
  | TStudent id =>
      {| confirmShown := true; confirmTitle := str "Delete Student";
         confirmBody :=
           str "Delete this student? Attendance records will be removed.";
         confirmOk := Some t |}
  end.

Definition hide (st : State) : State :=
  {| confirmShown := false; confirmTitle := confirmTitle st;
     confirmBody := confirmBody st; confirmOk := confirmOk st |}.

Definition step (cache : list SectionInfo) (st : State) (e : Event)
  : State * list Action :=
  match e with
  | Ask t => (ask cache t st, [])
  | OkClick =>
      match confirmOk st with
      | Some (TSection id) => (st, [Send (DeleteSection id)])
      | Some (TStudent id) => (st, [Send (DeleteStudent id)])
      | None => (st, [])
      end
  | CancelClick => (hide st, [])
  | DeleteOk (TSection _) =>
      (hide st, [ShowToast (str "Section deleted.") success; CallRenderSections])
  | DeleteOk (TStudent _) =>
      (hide st, [ShowToast (str "Student deleted.") success; CallLoadStudentsList])
  | DeleteFailed message => (st, [ShowToast message error])
  end.

Fixpoint run (cache : list SectionInfo) (st : State) (es : list Event)
  : State * list Action :=
  match es with
  | [] => (st, [])
  | e :: rest =>
      let '(st1, a1) := step cache st e in
      let '(st2, a2) := run cache st1 rest in
      (st2, a1 ++ a2)
  end.

Definition requestOf (t : Target) : Request :=
  match t with TSection id => DeleteSection id | TStudent id => DeleteStudent id end.

(** The dialog shows what its OK button deletes. *)
Definition showsTarget (cache : list SectionInfo) (st : State) : Prop :=
  match confirmOk st with
  | Some (TSection id) =>
      confirmTitle st = str "Delete Section"
      /\ confirmBody st = sectionBody cache id
  | Some (TStudent _) => confirmTitle st = str "Delete Student"
  | None => True
  end.

End Confirm.

(** *** The student dialog: [openStudentModal] and the submit handler of
    [formStudent] *)
Module StudentForm.

(** The student of an answer; a missing roll number or name is [None]. *)
Record StudentInfo := {
  st_id : Z;
  st_section_id : Z;
  st_roll_no : option jsstring;
  st_name : option jsstring
}.

Record State := {
  studentId : option Z;              (* the hidden id field; empty is [None] *)
  sectionOptions : list Z;           (* the options of the section field *)
  studentSection : option Z;         (* its value; empty is [None] *)
  studentRollNo : jsstring;
  studentName : jsstring;
  modalTitle : jsstring;
  modalShown : bool
}.

Inductive Event :=
| Open (id : option Z)
| SectionsLoaded (ids : list Z)        (* answer for the section field *)
| StudentLoaded (s : StudentInfo)
| StudentLoadFailed
| SectionSelect (value : option Z)
| RollInput (value : jsstring)
| NameInput (value : jsstring)
| Submit
| Cancel
| SaveOk
| SaveFailed (message : jsstring).

Definition orEmptyStr (s : option jsstring) : jsstring :=
  match s with Some v => v | None => [] end.

(** Assigning to the value of a select picks the option with that value;
    without such an option the value becomes empty. *)
Definition selectValue (options : list Z) (v : Z) : option Z :=
  if existsb (Z.eqb v) options then Some v else None.

(** [openStudentModal(id)] up to its requests. *)
Definition openStudentModal (id : option Z) (st : State) : State * list Action :=
  match id with
  | Some i =>
      ({| studentId := studentId st; sectionOptions := sectionOptions st;
          studentSection := studentSection st;
          studentRollNo := studentRollNo st; studentName := studentName st;
          modalTitle := str "Edit Student"; modalShown := true |},
       [Send GetSectionList; Send (GetStudent i)])
  | None =>
      ({| studentId := None; sectionOptions := sectionOptions st;
          studentSection := studentSection st;
          studentRollNo := []; studentName := [];
          modalTitle := str "Add Student"; modalShown := true |},
       [Send GetSectionList])
  end.

(** The submit handler up to the request. *)
Definition submit (st : State) : State * list Action :=
  let rollNo := trim (studentRollNo st) in
  let name := trim (studentName st) in
  match rollNo, name, studentSection st with
  | _ :: _, _ :: _, Some sectionId =>
      if Z.eqb sectionId 0 then (st, [])
      else
        match studentId st with
        | Some id => (st, [Send (PatchStudent id sectionId rollNo name)])
        | None => (st, [Send (PostStudent sectionId rollNo name)])
        end
  | _, _, _ => (st, [])
  end.

Definition step (st : State) (e : Event) : State * list Action :=
  match e with
  | Open id => openStudentModal id st
  | SectionsLoaded ids =>
      ({| studentId := studentId st; sectionOptions := ids;
          studentSection := None;
          studentRollNo := studentRollNo st; studentName := studentName st;
          modalTitle := modalTitle st; modalShown := modalShown st |}, [])
  | StudentLoaded s =>
      ({| studentId := Some (st_id s); sectionOptions := sectionOptions st;
          studentSection := selectValue (sectionOptions st) (st_section_id s);
          studentRollNo := orEmptyStr (st_roll_no s);
          studentName := orEmptyStr (st_name s);
          modalTitle := modalTitle st; modalShown := modalShown st |}, [])
  | StudentLoadFailed =>
      ({| studentId := None; sectionOptions := sectionOptions st;
          studentSection := studentSection st;
          studentRollNo := studentRollNo st; studentName := studentName st;
          modalTitle := str "Add Student"; modalShown := modalShown st |}, [])
  | SectionSelect v =>
      ({| studentId := studentId st; sectionOptions := sectionOptions st;
          studentSection := v;
          studentRollNo := studentRollNo st; studentName := studentName st;
          modalTitle := modalTitle st; modalShown := modalShown st |}, [])
  | RollInput v =>
      ({| studentId := studentId st; sectionOptions := sectionOptions st;
          studentSection := studentSection st;
          studentRollNo := v; studentName := studentName st;
          modalTitle := modalTitle st; modalShown := modalShown st |}, [])
  | NameInput v =>
      ({| studentId := studentId st; sectionOptions := sectionOptions st;
          studentSection := studentSection st;
          studentRollNo := studentRollNo st; studentName := v;
          modalTitle := modalTitle st; modalShown := modalShown st |}, [])
  | Submit => submit st
  | Cancel =>
      ({| studentId := studentId st; sectionOptions := sectionOptions st;
          studentSection := studentSection st;
          studentRollNo := studentRollNo st; studentName := studentName st;
          modalTitle := modalTitle st; modalShown := false |}, [])
  | SaveOk =>
      ({| studentId := studentId st; sectionOptions := sectionOptions st;
          studentSection := studentSection st;
          studentRollNo := studentRollNo st; studentName := studentName st;
          modalTitle := modalTitle st; modalShown := false |},
       [ShowToast (str "Student saved.") success; CallLoadStudentsList])
  | SaveFailed message => (st, [ShowToast message error])
  end.

Fixpoint run (st : State) (es : list Event) : State * list Action :=
  match es with
  | [] => (st, [])
  | e :: rest =>
      let '(st1, a1) := step st e in
      let '(st2, a2) := run st1 rest in
      (st2, a1 ++ a2)
  end.

Definition isSend (a : Action) : bool :=
  match a with Send _ => true | _ => false end.

End StudentForm.

End Admin.

(** ** The chat panel: [chatAppendMessage], [chatShowLoading], [chatSend] *)
Module ChatPanel.
Import Chat.

Inductive Role := user | ai.

(** A child of the message list: a message with the markup of its element,
    or the loading indicator. *)
Inductive Child :=
| Message (role : Role) (html : jsstring)
| LoadingEl (visible : bool).

Record State := {
  chatMessages : list Child;
  chatInput : jsstring
}.

(** The requests and the time of day are given with the events: the time
    is what [toLocaleTimeString] returns when the message is appended. *)
Inductive Event :=
| InputChange (value : jsstring)
| SendClick (time : jsstring)
| ChatOk (response : option jsstring) (time : jsstring)
| ChatFailed (message : option jsstring) (time : jsstring).

Inductive Action := PostChat (question : jsstring).

(** [formatAiMessage(text)]; its loop always comes to an end, the second
    branch is never taken. *)
Definition formatted (text : jsstring) : jsstring :=
  match formatAiMessage (Some text) with Some html => html | None => [] end.

Definition bodyOpen : jsstring :=
  str "<span class=" ++ DQUOTE :: str "chat-msg-body" ++ DQUOTE :: str ">".
Definition timeOpen : jsstring :=
  str "<span class=" ++ DQUOTE :: str "chat-msg-time" ++ DQUOTE :: str ">".

(** [body] of [chatAppendMessage] *)
Definition messageBody (role : Role) (text : jsstring) : jsstring :=
  match role with
  | ai => bodyOpen ++ formatted text ++ str "</span>"
  | user => replaceChar LF (str "<br>") (escapeHtml (Some text))
  end.

(** [div.innerHTML] of [chatAppendMessage] *)
Definition messageHtml (role : Role) (text time : jsstring) : jsstring :=
  messageBody role text ++ timeOpen ++ escapeHtml (Some time) ++ str "</span>".

Definition withMessages (st : State) (l : list Child) : State :=
  {| chatMessages := l; chatInput := chatInput st |}.

(** [chatAppendMessage(role, text)] *)
Definition chatAppendMessage (role : Role) (text time : jsstring) (st : State)
  : State :=
  withMessages st (chatMessages st ++ [Message role (messageHtml role text time)]).

Definition isLoading (c : Child) : bool :=
  match c with LoadingEl _ => true | Message _ _ => false end.

Definition setVisible (v : bool) (c : Child) : Child :=
  match c with LoadingEl _ => LoadingEl v | Message _ _ => c end.

(** [chatShowLoading(show)]: the indicator is made once, at the end of the
    list as it then is, and afterwards only shown and hidden. *)
Definition chatShowLoading (show : bool) (st : State) : State :=
  if existsb isLoading (chatMessages st) then
    withMessages st (map (setVisible show) (chatMessages st))
  else if show then withMessages st (chatMessages st ++ [LoadingEl true])
  else st.

(** [x || fallback] on a string that may be missing *)
Definition orText (x : option jsstring) (fallback : jsstring) : jsstring :=
  match x with Some (c :: v) => c :: v | _ => fallback end.

(** The message of the error [api] throws for an answer that is not ok:
    [d.error || 'Request failed']. *)
Definition apiErrorMessage (error : option jsstring) : jsstring :=
  orText error (str "Request failed").

(** [chatSend()] up to the request. *)
Definition chatSend (time : jsstring) (st : State) : State * list Action :=
  let q := trim (chatInput st) in
  match q with
  | [] => (st, [])
  | _ =>
      let st1 := {| chatMessages := chatMessages st; chatInput := [] |} in
      let st2 := chatAppendMessage user q time st1 in
      (chatShowLoading true st2, [PostChat q])
  end.

(** The errors [api] and [fetch] throw carry no [response], so the message
    shown is [err.message], or the fallback when that is empty. *)
Definition step (st : State) (e : Event) : State * list Action :=
  match e with
  | InputChange v => ({| chatMessages := chatMessages st; chatInput := v |}, [])
  | SendClick time => chatSend time st
  | ChatOk response time =>
      (chatAppendMessage ai (orText response (str "No response.")) time
         (chatShowLoading false st), [])
  | ChatFailed message time =>
      (chatAppendMessage ai
         (orText message (str "AI usage limit reached. Please try later."))
         time (chatShowLoading false st), [])
  end.

Fixpoint run (st : State) (es : list Event) : State * list Action :=
  match es with
  | [] => (st, [])
  | e :: rest =>
      let '(st1, a1) := step st e in
      let '(st2, a2) := run st1 rest in
      (st2, a1 ++ a2)
  end.

(** The messages of the list, without the loading indicator. *)
Definition messagesOf (l : list Child) : list Child :=
  filter (fun c => negb (isLoading c)) l.

Definition visibleLoading (c : Child) : bool :=
  match c with LoadingEl v => v | Message _ _ => false end.

End ChatPanel.

(** ** Navigation: [showPage] and the click handler of the nav items *)
Module Navigation.

Inductive Render :=
| RenderDashboard | RenderSections | RenderStudents | RenderMarkAttendance
| RenderRecords | RenderSettings | Reload | NoRender.

Definition pages : list jsstring :=
  [str "dashboard"; str "sections"; str "students"; str "mark";
   str "records"; str "settings"].

(** [c.toUpperCase()] on a character of the page names, which are lower
    case ASCII letters. *)
Definition upperAscii (c : char) : char :=
  if N.leb 97 c && N.leb c 122 then (c - 32)%N else c.

(** ['page' + p.charAt(0).toUpperCase() + p.slice(1)] *)
Definition pageElementId (p : jsstring) : jsstring :=
  str "page" ++ match p with [] => [] | c :: rest => upperAscii c :: rest end.

(** The class toggles of [showPage]: the id of each page element it looks
    up, with whether the element, when there is one, is made active. *)
Definition pageToggles (pageId : jsstring) : list (jsstring * bool) :=
  map (fun p => (pageElementId p, Mark.strEqb p pageId)) pages.

(** The dispatch at the end of [showPage]. *)
Definition renderOf (pageId : jsstring) : Render :=
  if Mark.strEqb pageId (str "dashboard") then RenderDashboard
  else if Mark.strEqb pageId (str "sections") then RenderSections
  else if Mark.strEqb pageId (str "students") then RenderStudents
  else if Mark.strEqb pageId (str "mark") then RenderMarkAttendance
  else if Mark.strEqb pageId (str "records") then RenderRecords
  else if Mark.strEqb pageId (str "settings") then RenderSettings
  else if Mark.strEqb pageId (str "logout") then Reload
  else NoRender.

(** [showPage(pageId)] *)
Definition showPage (pageId : jsstring) : list (jsstring * bool) * Render :=
  (pageToggles pageId, renderOf pageId).

(** The click handler of a nav item with [data-page] equal to [page]:
    without the page toggles for [logout]. *)
Definition navClick (page : jsstring) : list (jsstring * bool) * Render :=
  if Mark.strEqb page (str "logout") then ([], Reload) else showPage page.

Definition activeCount (toggles : list (jsstring * bool)) : nat :=
  length (filter snd toggles).

End Navigation.

(* ================================================================== *)
(** * Part II: properties *)
(* ================================================================== *)

Ltac inv H := inversion H; subst; clear H.

(** Splits a conjunction of closed facts into its parts. *)
Ltac conjuncts := repeat match goal with |- _ /\ _ => split end.

(** ** The derivative matcher decides the language *)
Module RegexFacts.
Import Regex.

Lemma nullable_lang (r : re) : nullable r = true <-> lang r [].
Proof.
  induction r; simpl.
  - split; [discriminate | inversion 1].
  - split; [constructor | reflexivity].
  - split; [discriminate | inversion 1].
  - rewrite orb_true_iff, IHr1, IHr2. split.
    + intros [H | H]; [apply L_altl | apply L_altr]; exact H.
    + intros H; inv H; auto.
  - rewrite andb_true_iff, IHr1, IHr2. split.
    + intros [H1 H2]. apply (L_cat H1 H2).
    + intros H. inversion H as [| | | |r1' r2' s1 s2 H1 H2 [E1 E2] Heq| |].
      apply app_eq_nil in Heq. destruct Heq; subst; auto.
  - split; [constructor | reflexivity].
Qed.

Lemma star_app (r : re) (s1 s2 : jsstring) :
  lang r s1 -> lang (Star r) s2 -> lang (Star r) (s1 ++ s2).
Proof.
  destruct s1 as [|c s1]; intros H1 H2; [exact H2 | apply (L_star1 H1 H2)].
Qed.

Lemma deriv_sound (c : char) (r : re) :
  forall s, lang (deriv c r) s -> lang r (c :: s).
Proof.
  induction r; simpl; intros s H.
  - inversion H.
  - inversion H.
  - destruct (p c) eqn:E; inv H. constructor; exact E.
  - inv H; [apply L_altl | apply L_altr]; auto.
  - assert (Hcat : forall u, lang (Cat (deriv c r1) r2) u -> lang (Cat r1 r2) (c :: u)).
    { intros u Hu. inv Hu.
      match goal with
      | H1 : lang (deriv c r1) ?a, H2 : lang r2 ?b |- _ =>
          apply (L_cat (s1 := c :: a) (s2 := b)); auto
      end. }
    destruct (nullable r1) eqn:E.
    + inv H; [apply Hcat; assumption |].
      apply nullable_lang in E.
      apply (L_cat (s1 := []) (s2 := c :: s)); auto.
    + apply Hcat; assumption.
  - inv H.
    match goal with
    | H1 : lang (deriv c r) ?a, H2 : lang (Star r) ?b |- _ =>
        apply (L_star1 (IHr _ H1) H2)
    end.
Qed.

Lemma deriv_complete (r : re) (x : jsstring) :
  lang r x -> forall c s, x = c :: s -> lang (deriv c r) s.
Proof.
  induction 1 as [|p c0 Hp|r1 r2 s0 H IH|r1 r2 s0 H IH
                 |r1 r2 s1 s2 H1 IH1 H2 IH2|r0|r0 c0 s1 s2 H1 IH1 H2 IH2];
    intros c s Heq; simpl.
  - discriminate.
  - injection Heq as -> <-. rewrite Hp. constructor.
  - apply L_altl; eauto.
  - apply L_altr; eauto.
  - destruct s1 as [|c1 s1]; simpl in Heq.
    + subst s2. apply nullable_lang in H1. rewrite H1.
      apply L_altr; eauto.
    + injection Heq as -> <-.
      assert (Hc : lang (Cat (deriv c r1) r2) (s1 ++ s2))
        by (apply L_cat; eauto).
      destruct (nullable r1); [apply L_altl |]; exact Hc.
  - discriminate.
  - injection Heq as -> <-. apply L_cat; eauto.
Qed.

Theorem matches_lang (s : jsstring) :
  forall r, matches r s = true <-> lang r s.
Proof.
  induction s as [|c s IH]; intros r; simpl.
  - apply nullable_lang.
  - rewrite IH. split.
    + apply deriv_sound.
    + intros H. apply (deriv_complete H eq_refl).
Qed.

Lemma lang_star_sym (p : char -> bool) (s : jsstring) :
  lang (Star (Sym p)) s <-> forallb p s = true.
Proof.
  split.
  - intros H. remember (Star (Sym p)) as r eqn:Er.
    induction H as [| | | | |r0|r0 c0 s1 s2 H1 IH1 H2 IH2];
      try discriminate; [reflexivity |].
    injection Er as ->. inv H1. simpl.
    match goal with Hp : p _ = true |- _ => rewrite Hp end.
    simpl. auto.
  - induction s as [|c s IH]; simpl; intros H; [constructor |].
    apply andb_true_iff in H. destruct H as [Hc Hs].
    apply (L_star1 (r := Sym p) (c := c) (s1 := [])); [constructor; exact Hc | auto].
Qed.

Lemma lang_sym_inv (p : char -> bool) (s : jsstring) :
  lang (Sym p) s -> exists c, s = [c] /\ p c = true.
Proof. intros H; inv H; eauto. Qed.

Lemma lang_cat_inv (r1 r2 : re) (s : jsstring) :
  lang (Cat r1 r2) s -> exists s1 s2, s = s1 ++ s2 /\ lang r1 s1 /\ lang r2 s2.
Proof. intros H; inv H; eauto. Qed.

Theorem matches_framed (a p b : char -> bool) (s : jsstring) :
  matches (Cat (Sym a) (Cat (Plus (Sym p)) (Sym b))) s = true
  <-> framed a p b s.
Proof.
  rewrite matches_lang. split.
  - intros H.
    apply lang_cat_inv in H. destruct H as (s1 & s2 & -> & H1 & H2).
    apply lang_sym_inv in H1. destruct H1 as (x & -> & Hx).
    apply lang_cat_inv in H2. destruct H2 as (s3 & s4 & -> & H3 & H4).
    apply lang_sym_inv in H4. destruct H4 as (y & -> & Hy).
    apply lang_cat_inv in H3. destruct H3 as (s5 & s6 & -> & H5 & H6).
    apply lang_sym_inv in H5. destruct H5 as (m & -> & Hm).
    apply lang_star_sym in H6.
    exists x, (m :: s6), y. simpl. repeat split; auto.
    + discriminate.
    + rewrite Hm. exact H6.
  - intros (x & mid & y & -> & Ha & Hb & Hne & Hp).
    destruct mid as [|m mid]; [congruence |].
    simpl in Hp. apply andb_true_iff in Hp. destruct Hp as [Hm Hmid].
    apply (L_cat (s1 := [x])); [constructor; exact Ha |].
    apply (L_cat (s1 := m :: mid) (s2 := [y])); [| constructor; exact Hb].
    apply (L_cat (s1 := [m]) (s2 := mid)); [constructor; exact Hm |].
    apply lang_star_sym. exact Hmid.
Qed.

End RegexFacts.

(** ** Splitting, joining and trimming *)
Module JsStringFacts.

Lemma split_not_nil (sep : char) (s : jsstring) : split sep s <> [].
Proof.
  induction s as [|c s IH]; simpl; [discriminate |].
  destruct (N.eqb c sep); [discriminate |].
  destruct (split sep s); [congruence | discriminate].
Qed.

Lemma split_cons (sep c : char) (s : jsstring) :
  split sep (c :: s) =
  if N.eqb c sep then [] :: split sep s
  else (c :: hd [] (split sep s)) :: tl (split sep s).
Proof.
  simpl. destruct (N.eqb c sep); [reflexivity |].
  pose proof (split_not_nil sep s) as Hne.
  destruct (split sep s); [congruence | reflexivity].
Qed.

Lemma split_hd_tl (sep : char) (s : jsstring) :
  split sep s = hd [] (split sep s) :: tl (split sep s).
Proof.
  pose proof (split_not_nil sep s) as Hne.
  destruct (split sep s); [congruence | reflexivity].
Qed.

(** A block without the separator stays in the first piece. *)
Lemma split_app_block (sep : char) (b s : jsstring) :
  forallb (fun c => negb (N.eqb c sep)) b = true ->
  split sep (b ++ s) = (b ++ hd [] (split sep s)) :: tl (split sep s).
Proof.
  induction b as [|c b IH]; intros Hb.
  - simpl. apply split_hd_tl.
  - simpl in Hb. apply andb_true_iff in Hb. destruct Hb as [Hc Hb].
    change ((c :: b) ++ s) with (c :: (b ++ s)).
    rewrite split_cons. apply negb_true_iff in Hc. rewrite Hc.
    rewrite (IH Hb). reflexivity.
Qed.

Lemma split_no_sep (sep : char) (s : jsstring) :
  Forall (fun l => forallb (fun c => negb (N.eqb c sep)) l = true) (split sep s).
Proof.
  induction s as [|c s IH].
  - repeat constructor.
  - rewrite split_cons. rewrite (split_hd_tl sep s) in IH.
    inversion IH as [|? ? Hh Ht]; subst.
    destruct (N.eqb c sep) eqn:E.
    + constructor; [reflexivity |]. rewrite (split_hd_tl sep s).
      constructor; assumption.
    + constructor; [| assumption]. simpl. rewrite E. exact Hh.
Qed.

Lemma join_cons (sep p : jsstring) (rest : list jsstring) :
  rest <> [] -> join sep (p :: rest) = p ++ sep ++ join sep rest.
Proof. destruct rest; [congruence | reflexivity]. Qed.

(** [s.split(c).join(c)] gives [s] back. *)
Lemma join_split (sep : char) (s : jsstring) :
  join [sep] (split sep s) = s.
Proof.
  induction s as [|c s IH]; [reflexivity |].
  rewrite split_cons. destruct (N.eqb c sep) eqn:E.
  - rewrite join_cons by apply split_not_nil.
    apply N.eqb_eq in E. subst. simpl. f_equal. exact IH.
  - rewrite (split_hd_tl sep s) in IH.
    destruct (tl (split sep s)) as [|l ls] eqn:Et.
    + simpl in *. f_equal. exact IH.
    + rewrite join_cons in * by discriminate. simpl. f_equal. exact IH.
Qed.

Lemma replaceChar_app (c : char) (by_ a b : jsstring) :
  replaceChar c by_ (a ++ b) = replaceChar c by_ a ++ replaceChar c by_ b.
Proof.
  induction a as [|x a IH]; simpl; [reflexivity |].
  destruct (N.eqb x c); rewrite IH; [rewrite app_assoc |]; reflexivity.
Qed.

Lemma replaceChar_absent (c : char) (by_ s : jsstring) :
  forallb (fun x => negb (N.eqb x c)) s = true -> replaceChar c by_ s = s.
Proof.
  induction s as [|x s IH]; simpl; [reflexivity |].
  intros H. apply andb_true_iff in H. destruct H as [Hx Hs].
  apply negb_true_iff in Hx. rewrite Hx, IH; auto.
Qed.

Lemma dropWhile_head (p : char -> bool) (c : char) (s : jsstring) :
  p c = false -> dropWhile p (c :: s) = c :: s.
Proof. intros H; simpl; rewrite H; reflexivity. Qed.

(** A string whose first and last characters are not white space is its
    own trim. *)
Lemma trim_framed (c d : char) (mid : jsstring) :
  isWhiteSpace c = false -> isWhiteSpace d = false ->
  trim (c :: mid ++ [d]) = c :: mid ++ [d].
Proof.
  intros Hc Hd. unfold trim. rewrite dropWhile_head by exact Hc.
  assert (E : rev (c :: mid ++ [d]) = d :: rev (c :: mid)).
  { change (c :: mid ++ [d]) with ((c :: mid) ++ [d]).
    rewrite rev_app_distr. reflexivity. }
  rewrite E, dropWhile_head by exact Hd.
  rewrite <- E. apply rev_involutive.
Qed.

End JsStringFacts.

(** ** The chat formatter *)
Module ChatFacts.
Import Regex RegexFacts JsStringFacts Chat ChatSpec.

(** *** The two tests *)

Lemma isTableRow_framed (line : jsstring) :
  isTableRow line = true <-> framed isPipe dot isPipe line.
Proof. apply matches_framed. Qed.

Lemma isPipe_eq (c : char) : isPipe c = true <-> c = PIPE.
Proof. apply N.eqb_eq. Qed.

(** What [/^\|.+\|$/] accepts. *)
Lemma isTableRow_shape (line : jsstring) :
  isTableRow line = true <->
  exists mid, line = PIPE :: mid ++ [PIPE] /\ mid <> []
              /\ forallb dot mid = true.
Proof.
  rewrite isTableRow_framed. unfold framed. split.
  - intros (x & mid & y & -> & Hx & Hy & Hne & Hp).
    apply isPipe_eq in Hx, Hy. subst. eauto.
  - intros (mid & -> & Hne & Hp).
    exists PIPE, mid, PIPE. repeat split; auto.
Qed.

(** What [/^\|[\-\:|]+\|$/] accepts. *)
Lemma separator_shape (s : jsstring) :
  matches separatorRe s = true <->
  exists mid, s = PIPE :: mid ++ [PIPE] /\ mid <> []
              /\ forallb sepClass mid = true.
Proof.
  unfold separatorRe. rewrite matches_framed. unfold framed. split.
  - intros (x & mid & y & -> & Hx & Hy & Hne & Hp).
    apply isPipe_eq in Hx, Hy. subst. eauto.
  - intros (mid & -> & Hne & Hp).
    exists PIPE, mid, PIPE. repeat split; auto.
Qed.

(** *** The scan *)

Lemma takeRows_app (lines : list jsstring) :
  fst (takeRows lines) ++ snd (takeRows lines) = lines.
Proof.
  induction lines as [|l rest IH]; simpl; [reflexivity |].
  destruct (isTableRow l); [| reflexivity].
  destruct (takeRows rest) as [rows rest']. simpl in *. f_equal. exact IH.
Qed.

Lemma takeRows_rows (lines : list jsstring) :
  Forall (fun l => isTableRow l = true) (fst (takeRows lines)).
Proof.
  induction lines as [|l rest IH]; simpl; [constructor |].
  destruct (isTableRow l) eqn:E; [| constructor].
  destruct (takeRows rest) as [rows rest']. simpl in *.
  constructor; assumption.
Qed.

(** The block ends at the first line that is not a table row. *)
Lemma takeRows_stop (lines : list jsstring) :
  match snd (takeRows lines) with
  | [] => True
  | l :: _ => isTableRow l = false
  end.
Proof.
  induction lines as [|l rest IH]; simpl; [exact I |].
  destruct (isTableRow l) eqn:E; [| exact E].
  destruct (takeRows rest) as [rows rest']. exact IH.
Qed.

Lemma takeRows_length (lines : list jsstring) :
  length (snd (takeRows lines)) <= length lines.
Proof.
  rewrite <- (takeRows_app lines) at 2. rewrite length_app. lia.
Qed.

(** The rows of a table without header, from any index on. *)
Lemma rowsHtml_plain (r : nat) (rows : list jsstring) :
  rowsHtml false r rows = flat_map (rowHtml td) (map rowCells rows).
Proof.
  revert r. induction rows as [|row rest IH]; intros r; simpl; [reflexivity |].
  rewrite andb_false_r. rewrite IH. unfold rowHtml.
  rewrite <- !app_assoc. reflexivity.
Qed.

(** The rows after the separator row. *)
Lemma rowsHtml_after (r : nat) (rows : list jsstring) :
  2 <= r ->
  rowsHtml true r rows = flat_map (rowHtml td) (map rowCells rows).
Proof.
  revert r. induction rows as [|row rest IH]; intros r Hr; simpl; [reflexivity |].
  destruct r as [|[|r]]; try lia. simpl.
  rewrite IH by lia. unfold rowHtml. rewrite <- !app_assoc. reflexivity.
Qed.

Lemma skipSep_length (rows : list jsstring) :
  skipSep rows = true -> exists r0 r1 rest, rows = r0 :: r1 :: rest.
Proof.
  destruct rows as [|r0 [|r1 rest]]; try discriminate. eauto.
Qed.

(** The markup of a block is the rendering of the block read as header
    and body. *)
Lemma tableHtml_render (rows : list jsstring) :
  tableHtml rows = renderTable (parseBlock rows).
Proof.
  unfold tableHtml, renderTable, parseBlock.
  destruct (skipSep rows) eqn:E.
  - destruct (skipSep_length rows E) as (r0 & r1 & rest & ->).
    simpl. rewrite rowsHtml_after by lia. unfold rowHtml.
    rewrite <- !app_assoc. reflexivity.
  - simpl. rewrite rowsHtml_plain. reflexivity.
Qed.

(** The outer loop ends within one iteration per line, and its output is
    the rendering of the parsed items. *)
Lemma scanLines_parse (fuel : nat) :
  forall lines out, length lines <= fuel ->
    scanLines fuel lines out
    = Some (out ++ map renderItem (parseLines fuel lines)).
Proof.
  induction fuel as [|fuel IH]; intros lines out Hlen.
  - destruct lines; [simpl; rewrite app_nil_r; reflexivity | simpl in Hlen; lia].
  - destruct lines as [|l rest]; [simpl; rewrite app_nil_r; reflexivity |].
    cbn [scanLines parseLines]. destruct (isTableRow l) eqn:E.
    + pose proof (takeRows_length rest) as Hl.
      cbn [takeRows]. rewrite E.
      destruct (takeRows rest) as [rows rest'] eqn:Et. cbn [snd] in Hl.
      rewrite IH by (simpl in Hlen; lia).
      rewrite <- app_assoc. cbn [map renderItem app].
      rewrite tableHtml_render. reflexivity.
    + rewrite IH by (simpl in Hlen; lia).
      rewrite <- app_assoc. reflexivity.
Qed.

Theorem formatAiMessage_render (raw : option jsstring) :
  formatAiMessage raw
  = Some (brJoin (map renderItem (parse (prepared raw)))).
Proof.
  unfold formatAiMessage, parse, prepared, brJoin.
  rewrite scanLines_parse by lia. reflexivity.
Qed.

(** *** The bold substitution *)

Lemma span_spec (p : char -> bool) (s : jsstring) :
  fst (span p s) ++ snd (span p s) = s
  /\ forallb p (fst (span p s)) = true.
Proof.
  induction s as [|c s [IH1 IH2]]; simpl; [auto |].
  destruct (p c) eqn:E; [| auto].
  destruct (span p s) as [a b]. simpl in *. rewrite E, IH1, IH2. auto.
Qed.

Lemma span_run (p : char -> bool) (a : jsstring) (c : char) (b : jsstring) :
  forallb p a = true -> p c = false -> span p (a ++ c :: b) = (a, c :: b).
Proof.
  intros Ha Hc. induction a as [|x a IH]; simpl in *.
  - rewrite Hc. reflexivity.
  - apply andb_true_iff in Ha. destruct Ha as [Hx Ha].
    rewrite Hx, (IH Ha). reflexivity.
Qed.

Lemma notStar_STAR : notStar STAR = false.
Proof. reflexivity. Qed.

(** A successful attempt found [**inner**] at the head. *)
Lemma matchBoldAt_sound (s inner after : jsstring) :
  matchBoldAt s = Some (inner, after) ->
  s = STAR :: STAR :: inner ++ STAR :: STAR :: after
  /\ inner <> [] /\ forallb notStar inner = true.
Proof.
  unfold matchBoldAt.
  destruct s as [|c1 [|c2 rest]]; try discriminate.
  destruct (N.eqb c1 STAR) eqn:E1; [| discriminate].
  destruct (N.eqb c2 STAR) eqn:E2; [| discriminate]. simpl.
  destruct (span_spec notStar rest) as [Happ Hall].
  destruct (span notStar rest) as [a b]. simpl in *.
  destruct b as [|c3 [|c4 b]]; try discriminate.
  destruct a as [|x a]; [discriminate |]. simpl.
  destruct (N.eqb c3 STAR) eqn:E3; [| discriminate].
  destruct (N.eqb c4 STAR) eqn:E4; [| discriminate]. simpl.
  intros H. injection H as <- <-.
  apply N.eqb_eq in E1, E2, E3, E4. subst.
  repeat split; [discriminate | exact Hall].
Qed.

(** Wherever [**inner**] stands at the head, the attempt finds it. *)
Lemma matchBoldAt_complete (inner after : jsstring) :
  inner <> [] -> forallb notStar inner = true ->
  matchBoldAt (STAR :: STAR :: inner ++ STAR :: STAR :: after)
  = Some (inner, after).
Proof.
  intros Hne Hall. unfold matchBoldAt.
  rewrite N.eqb_refl. simpl.
  rewrite (span_run notStar inner STAR (STAR :: after) Hall notStar_STAR).
  destruct inner; [congruence | reflexivity].
Qed.

(** The only prefix of a string in the language of the pattern is the one
    the attempt finds: greediness and backtracking have no choice. *)
Lemma boldRe_shape (pre : jsstring) :
  lang boldRe pre <->
  exists inner, pre = STAR :: STAR :: inner ++ [STAR; STAR]
                /\ inner <> [] /\ forallb notStar inner = true.
Proof.
  assert (Hstar : forall c, isStar c = true <-> c = STAR) by (intro; apply N.eqb_eq).
  unfold boldRe. split.
  - intros H.
    apply lang_cat_inv in H. destruct H as (s1 & s2 & -> & H1 & H).
    apply lang_sym_inv in H1. destruct H1 as (x1 & -> & Hx1).
    apply lang_cat_inv in H. destruct H as (s1 & s3 & -> & H1 & H).
    apply lang_sym_inv in H1. destruct H1 as (x2 & -> & Hx2).
    apply lang_cat_inv in H. destruct H as (s1 & s4 & -> & H1 & H).
    apply lang_cat_inv in H. destruct H as (s5 & s6 & -> & H5 & H6).
    apply lang_sym_inv in H5. destruct H5 as (x3 & -> & Hx3).
    apply lang_sym_inv in H6. destruct H6 as (x4 & -> & Hx4).
    apply lang_cat_inv in H1. destruct H1 as (s7 & s8 & -> & H7 & H8).
    apply lang_sym_inv in H7. destruct H7 as (m & -> & Hm).
    apply lang_star_sym in H8.
    apply Hstar in Hx1, Hx2, Hx3, Hx4. subst.
    exists (m :: s8). simpl. repeat split; [discriminate |].
    rewrite Hm. exact H8.
  - intros (inner & -> & Hne & Hall).
    destruct inner as [|m inner]; [congruence |].
    simpl in Hall. apply andb_true_iff in Hall. destruct Hall as [Hm Hall].
    apply (L_cat (s1 := [STAR])); [constructor; reflexivity |].
    apply (L_cat (s1 := [STAR])); [constructor; reflexivity |].
    apply (L_cat (s1 := m :: inner) (s2 := [STAR; STAR])).
    + apply (L_cat (s1 := [m]) (s2 := inner)); [constructor; exact Hm |].
      apply lang_star_sym. exact Hall.
    + apply (L_cat (s1 := [STAR]) (s2 := [STAR])); constructor; reflexivity.
Qed.

Lemma matchBoldAt_regex (pre after : jsstring) :
  lang boldRe pre ->
  exists inner, pre = STAR :: STAR :: inner ++ [STAR; STAR]
                /\ matchBoldAt (pre ++ after) = Some (inner, after).
Proof.
  intros H. apply boldRe_shape in H. destruct H as (inner & -> & Hne & Hall).
  exists inner. split; [reflexivity |].
  simpl. rewrite <- app_assoc. simpl.
  apply matchBoldAt_complete; assumption.
Qed.

Lemma matchBoldAt_lang (s inner after : jsstring) :
  matchBoldAt s = Some (inner, after) ->
  s = (STAR :: STAR :: inner ++ [STAR; STAR]) ++ after
  /\ lang boldRe (STAR :: STAR :: inner ++ [STAR; STAR]).
Proof.
  intros H. destruct (matchBoldAt_sound _ H) as (-> & Hne & Hall). split.
  - simpl. rewrite <- app_assoc. reflexivity.
  - apply boldRe_shape. eauto.
Qed.

Lemma replaceBoldFrom_skip (pre s : jsstring) :
  replaceBoldFrom (length pre) (pre ++ s) = replaceBoldFrom 0 s.
Proof. induction pre as [|c pre IH]; simpl; auto. Qed.

Lemma replaceBoldFrom_head (c : char) (rest : jsstring) :
  replaceBoldFrom 0 (c :: rest)
  = match matchBoldAt (c :: rest) with
    | Some (inner, _) =>
        str "<strong>" ++ inner ++ str "</strong>"
          ++ replaceBoldFrom (length inner + 3) rest
    | None => c :: replaceBoldFrom 0 rest
    end.
Proof. reflexivity. Qed.

Lemma replaceBold_match (s inner after : jsstring) :
  matchBoldAt s = Some (inner, after) ->
  replaceBold s
  = str "<strong>" ++ inner ++ str "</strong>" ++ replaceBold after.
Proof.
  intros H. destruct (matchBoldAt_sound _ H) as (Hs & Hne & Hall).
  unfold replaceBold. subst s. rewrite replaceBoldFrom_head, H.
  replace (STAR :: inner ++ STAR :: STAR :: after)
    with ((STAR :: inner ++ [STAR; STAR]) ++ after)
    by (simpl; rewrite <- app_assoc; reflexivity).
  replace (length inner + 3) with (length (STAR :: inner ++ [STAR; STAR]))
    by (simpl; rewrite length_app; simpl; lia).
  rewrite replaceBoldFrom_skip. reflexivity.
Qed.

Lemma replaceBold_step (c : char) (rest : jsstring) :
  matchBoldAt (c :: rest) = None ->
  replaceBold (c :: rest) = c :: replaceBold rest.
Proof.
  intros H. unfold replaceBold. rewrite replaceBoldFrom_head, H. reflexivity.
Qed.

(** Without a star nothing is substituted. *)
Lemma replaceBold_no_star (s : jsstring) :
  forallb notStar s = true -> replaceBold s = s.
Proof.
  induction s as [|c s IH]; intros H; [reflexivity |].
  simpl in H. apply andb_true_iff in H. destruct H as [Hc Hs].
  rewrite replaceBold_step, IH; auto.
  unfold matchBoldAt. destruct s; [reflexivity |].
  unfold notStar in Hc. apply negb_true_iff in Hc. rewrite Hc. reflexivity.
Qed.

(** *** Escaping and the bold substitution rewrite inert blocks only *)

Lemma inertBlock_inv (b : jsstring) :
  inertBlock b = true ->
  exists c b', b = c :: b' /\ inertChar c = true /\ forallb inertChar b' = true.
Proof.
  unfold inertBlock. destruct b as [|c b']; [discriminate |]. simpl.
  intros H. apply andb_true_iff in H. destruct H. eauto.
Qed.

Lemma inertChar_not_pipe (c : char) : inertChar c = true -> c <> PIPE.
Proof.
  unfold inertChar, isPipe. intros H Hc. subst. discriminate.
Qed.

Lemma inertChar_dot (c : char) : inertChar c = true -> dot c = true.
Proof. unfold inertChar. intros H. apply andb_true_iff in H. tauto. Qed.

Lemma inertChar_not_LF (c : char) : inertChar c = true -> N.eqb c LF = false.
Proof.
  intros H. apply inertChar_dot in H. unfold dot, isLineTerminator in H.
  destruct (N.eqb c LF); [discriminate | reflexivity].
Qed.

Lemma Rewritten_refl (s : jsstring) : Rewritten s s.
Proof. induction s; constructor; assumption. Qed.

Lemma Rewritten_sym (s s' : jsstring) : Rewritten s s' -> Rewritten s' s.
Proof. induction 1; constructor; assumption. Qed.

Lemma Rewritten_app (a a' b b' : jsstring) :
  Rewritten a a' -> Rewritten b b' -> Rewritten (a ++ b) (a' ++ b').
Proof.
  induction 1; intros Hb; simpl; [assumption | constructor; auto |].
  rewrite <- !app_assoc. constructor; auto.
Qed.

Lemma Rewritten_nil_l (s' : jsstring) : Rewritten [] s' -> s' = [].
Proof.
  intros H. remember [] as s eqn:E. destruct H; [reflexivity | discriminate |].
  apply inertBlock_inv in H. destruct H as (c & b' & -> & _). discriminate.
Qed.

Lemma Rewritten_nil_r (s : jsstring) : Rewritten s [] -> s = [].
Proof. intros H. apply Rewritten_sym in H. apply Rewritten_nil_l; assumption. Qed.

Lemma escapeChar_cases (c : char) :
  escapeChar c = [c] \/ (inertBlock [c] = true /\ inertBlock (escapeChar c) = true).
Proof.
  unfold escapeChar.
  destruct (N.eqb c AMP) eqn:E1; [apply N.eqb_eq in E1; subst; right; split; reflexivity |].
  destruct (N.eqb c NBSP) eqn:E2; [apply N.eqb_eq in E2; subst; right; split; reflexivity |].
  destruct (N.eqb c LT) eqn:E3; [apply N.eqb_eq in E3; subst; right; split; reflexivity |].
  destruct (N.eqb c GT) eqn:E4; [apply N.eqb_eq in E4; subst; right; split; reflexivity |].
  left; reflexivity.
Qed.

Lemma escapeHtml_Rewritten (s : jsstring) : Rewritten s (escapeHtml (Some s)).
Proof.
  induction s as [|c s IH]; simpl; [constructor |].
  destruct (escapeChar_cases c) as [E | [H1 H2]].
  - rewrite E. simpl. constructor. exact IH.
  - apply (RW_block [c] (escapeChar c) H1 H2 IH).
Qed.

Lemma replaceBold_Rewritten_len (n : nat) :
  forall s, length s <= n -> Rewritten s (replaceBold s).
Proof.
  induction n as [|n IH]; intros s Hlen.
  - destruct s; [constructor | simpl in Hlen; lia].
  - destruct s as [|c rest]; [constructor |].
    destruct (matchBoldAt (c :: rest)) as [[inner after]|] eqn:E.
    + rewrite (replaceBold_match _ E).
      destruct (matchBoldAt_sound _ E) as (Hs & Hne & Hall). rewrite Hs.
      apply (RW_block [STAR; STAR] (str "<strong>")); [reflexivity | reflexivity |].
      apply Rewritten_app; [apply Rewritten_refl |].
      apply (RW_block [STAR; STAR] (str "</strong>")); [reflexivity | reflexivity |].
      apply IH. rewrite Hs in Hlen. simpl in Hlen.
      rewrite length_app in Hlen. simpl in Hlen. lia.
    + rewrite replaceBold_step by exact E. constructor.
      apply IH. simpl in Hlen. lia.
Qed.

Lemma replaceBold_Rewritten (s : jsstring) : Rewritten s (replaceBold s).
Proof. apply (replaceBold_Rewritten_len (n := length s)). lia. Qed.

(** Rewriting keeps the line structure. *)
Lemma Rewritten_split (s s' : jsstring) :
  Rewritten s s' -> Forall2 Rewritten (split LF s) (split LF s').
Proof.
  induction 1 as [|c s s' H IH|src out s s' Hs Ho H IH].
  - repeat constructor.
  - rewrite !split_cons.
    rewrite (split_hd_tl LF s), (split_hd_tl LF s') in IH.
    inversion IH; subst.
    destruct (N.eqb c LF).
    + constructor; [constructor |].
      rewrite (split_hd_tl LF s), (split_hd_tl LF s'). exact IH.
    + constructor; [constructor |]; assumption.
  - rewrite (split_hd_tl LF s), (split_hd_tl LF s') in IH.
    inversion IH; subst.
    assert (Hb : forall b, inertBlock b = true ->
                           forallb (fun c => negb (N.eqb c LF)) b = true).
    { intros b Hb. unfold inertBlock in Hb. apply andb_true_iff in Hb.
      destruct Hb as [_ Hb]. rewrite forallb_forall in *.
      intros x Hx. rewrite (inertChar_not_LF _ (Hb x Hx)). reflexivity. }
    rewrite !split_app_block by auto.
    constructor; [constructor |]; assumption.
Qed.

Lemma Rewritten_forallb (p : char -> bool) (s s' : jsstring) :
  (forall c, inertChar c = true -> p c = true) ->
  Rewritten s s' -> forallb p s = forallb p s'.
Proof.
  intros Hp. induction 1 as [|c s s' H IH|src out s s' Hs Ho H IH]; simpl.
  - reflexivity.
  - rewrite IH. reflexivity.
  - rewrite !forallb_app, IH.
    assert (Hb : forall b, inertBlock b = true -> forallb p b = true).
    { intros b Hb. unfold inertBlock in Hb. apply andb_true_iff in Hb.
      destruct Hb as [_ Hb]. rewrite forallb_forall in *. auto. }
    rewrite (Hb src Hs), (Hb out Ho). reflexivity.
Qed.

Lemma Rewritten_pipe_head (x l' : jsstring) :
  Rewritten (PIPE :: x) l' -> exists x', l' = PIPE :: x' /\ Rewritten x x'.
Proof.
  intros H. remember (PIPE :: x) as l eqn:E.
  destruct H as [|c s s' H|src out s s' Hs Ho H]; [discriminate | |].
  - injection E as -> ->. eauto.
  - apply inertBlock_inv in Hs. destruct Hs as (c & b' & -> & Hc & _).
    simpl in E. injection E as -> _.
    apply inertChar_not_pipe in Hc. congruence.
Qed.

Lemma app_snoc_inv (A : Type) (a b m : list A) (y : A) :
  a ++ b = m ++ [y] ->
  (b = [] /\ a = m ++ [y]) \/ exists b0, b = b0 ++ [y] /\ m = a ++ b0.
Proof.
  intros H. destruct b as [|z b0 _] using rev_ind.
  - left. rewrite app_nil_r in H. auto.
  - right. rewrite app_assoc in H.
    apply app_inj_tail in H. destruct H as [<- <-]. eauto.
Qed.


Lemma Rewritten_pipe_last (x x' : jsstring) :
  Rewritten x x' ->
  forall mid, x = mid ++ [PIPE] ->
    exists mid', x' = mid' ++ [PIPE] /\ Rewritten mid mid'.
Proof.
  induction 1 as [|c s s' H IH|src out s s' Hs Ho H IH]; intros mid E.
  - destruct mid; discriminate.
  - destruct mid as [|m mid]; simpl in E.
    + injection E as -> ->. apply Rewritten_nil_l in H. subst.
      exists []. split; [reflexivity | constructor].
    + injection E as -> ->. destruct (IH mid eq_refl) as (mid' & -> & Hm).
      exists (m :: mid'). split; [reflexivity | constructor; assumption].
  - apply app_snoc_inv in E. destruct E as [[-> E] | (b0 & -> & ->)].
    + exfalso. unfold inertBlock in Hs. apply andb_true_iff in Hs.
      destruct Hs as [_ Hs]. rewrite E, forallb_app in Hs.
      apply andb_true_iff in Hs. destruct Hs as [_ Hs]. discriminate.
    + destruct (IH b0 eq_refl) as (mid' & -> & Hm).
      exists (out ++ mid'). split; [apply app_assoc |].
      constructor; assumption.
Qed.

Lemma Rewritten_row (l l' : jsstring) :
  Rewritten l l' -> isTableRow l = true -> isTableRow l' = true.
Proof.
  intros H Hrow. apply isTableRow_shape in Hrow.
  destruct Hrow as (mid & -> & Hne & Hdot).
  apply Rewritten_pipe_head in H. destruct H as (x' & -> & H).
  destruct (Rewritten_pipe_last H mid eq_refl) as (mid' & -> & Hm).
  apply isTableRow_shape. exists mid'. repeat split.
  - intros ->. apply Rewritten_nil_r in Hm. contradiction.
  - rewrite <- (Rewritten_forallb dot inertChar_dot Hm). exact Hdot.
Qed.

(** A line and its rewriting are classified alike. *)
Lemma Rewritten_isTableRow (l l' : jsstring) :
  Rewritten l l' -> isTableRow l = isTableRow l'.
Proof.
  intros H.
  destruct (isTableRow l) eqn:E1, (isTableRow l') eqn:E2; try reflexivity.
  - rewrite (Rewritten_row H E1) in E2. discriminate.
  - rewrite (Rewritten_row (Rewritten_sym H) E2) in E1. discriminate.
Qed.

Lemma Rewritten_lines (s s' : jsstring) :
  Rewritten s s' ->
  map isTableRow (split LF s) = map isTableRow (split LF s').
Proof.
  intros H. apply Rewritten_split in H.
  induction H as [|l l' ls ls' Hl Hls IH]; simpl; [reflexivity |].
  rewrite (Rewritten_isTableRow Hl), IH. reflexivity.
Qed.

(** Line by line, the text the loop scans is classified as the raw
    message is. *)
Theorem prepared_lines (raw : jsstring) :
  map isTableRow (split LF (prepared (Some raw)))
  = map isTableRow (split LF raw).
Proof.
  unfold prepared, orEmpty.
  rewrite <- (Rewritten_lines (replaceBold_Rewritten (escapeHtml (Some raw)))).
  rewrite <- (Rewritten_lines (escapeHtml_Rewritten raw)). reflexivity.
Qed.

Lemma map_false_Forall (A : Type) (f : A -> bool) (l : list A) :
  Forall (fun x => f x = false) l <-> forallb (fun b => negb b) (map f l) = true.
Proof.
  induction l as [|x l IH]; simpl.
  - split; auto.
  - rewrite andb_true_iff, <- IH, negb_true_iff. split.
    + inversion 1; auto.
    + intros [? ?]; constructor; auto.
Qed.

(** Lines none of which is a table row are one text item each. *)
Lemma parseLines_text (fuel : nat) :
  forall lines, length lines <= fuel ->
    Forall (fun l => isTableRow l = false) lines ->
    parseLines fuel lines = map TextSegment lines.
Proof.
  induction fuel as [|fuel IH]; intros lines Hlen Hall.
  - destruct lines; [reflexivity | simpl in Hlen; lia].
  - destruct lines as [|l rest]; [reflexivity |].
    inversion Hall as [|? ? Hl Hrest]; subst.
    cbn [parseLines]. rewrite Hl. cbn [map]. f_equal.
    apply IH; [simpl in Hlen; lia | assumption].
Qed.

Lemma map_renderItem_text (lines : list jsstring) :
  map renderItem (map TextSegment lines) = lines.
Proof. induction lines; simpl; congruence. Qed.


(** *** Only the formatter's own tags reach the output *)

Lemma knownTags_shape (t : jsstring) : In t knownTags -> tagShape t = true.
Proof.
  assert (H : forallb tagShape knownTags = true) by reflexivity.
  rewrite forallb_forall in H. apply H.
Qed.

Lemma tag_no_sep (sep : char) (t : jsstring) :
  sep = LF \/ sep = PIPE -> In t knownTags ->
  forallb (fun c => negb (N.eqb c sep)) t = true.
Proof.
  intros Hsep Ht. apply knownTags_shape in Ht. unfold tagShape in Ht.
  apply andb_true_iff in Ht. destruct Ht as [_ Ht].
  rewrite forallb_forall in *. intros x Hx. specialize (Ht x Hx).
  apply andb_true_iff in Ht. destruct Ht; destruct Hsep; subst; assumption.
Qed.

Lemma tag_head (t : jsstring) :
  In t knownTags -> exists rest, t = LT :: rest.
Proof.
  intros Ht. apply knownTags_shape in Ht. unfold tagShape in Ht.
  destruct t as [|c rest]; [discriminate |].
  apply andb_true_iff in Ht. destruct Ht as [Ht _].
  apply andb_true_iff in Ht. destruct Ht as [Ht _].
  apply andb_true_iff in Ht. destruct Ht as [Ht _].
  apply N.eqb_eq in Ht. subst. eauto.
Qed.

Lemma tag_last (t s : jsstring) (c : char) :
  In t knownTags -> t = s ++ [c] -> c = GT.
Proof.
  intros Ht E. apply knownTags_shape in Ht. unfold tagShape in Ht.
  destruct t as [|x rest]; [discriminate |].
  apply andb_true_iff in Ht. destruct Ht as [Ht _].
  apply andb_true_iff in Ht. destruct Ht as [Ht Hlen].
  apply andb_true_iff in Ht. destruct Ht as [_ Ht].
  apply N.eqb_eq in Ht.
  destruct s as [|y s]; simpl in E.
  - injection E as _ ->. discriminate.
  - injection E as _ ->. rewrite last_last in Ht. congruence.
Qed.

Lemma OKT_plain (s : jsstring) : plain s = true -> OnlyKnownTags s.
Proof.
  induction s as [|c s IH]; simpl; intros H; [constructor |].
  apply andb_true_iff in H. destruct H as [Hc Hs].
  apply negb_true_iff in Hc. constructor; auto.
Qed.

Lemma OKT_app (a b : jsstring) :
  OnlyKnownTags a -> OnlyKnownTags b -> OnlyKnownTags (a ++ b).
Proof.
  induction 1; intros Hb; simpl; auto.
  - constructor; auto.
  - rewrite <- app_assoc. constructor; auto.
Qed.

Lemma OKT_single_tag (t : jsstring) : In t knownTags -> OnlyKnownTags t.
Proof.
  intros H. rewrite <- (app_nil_r t). apply OKT_tag; [exact H | constructor].
Qed.

Lemma plain_app (a b : jsstring) : plain (a ++ b) = plain a && plain b.
Proof. apply forallb_app. Qed.

Lemma escapeChar_plain (c : char) : plain (escapeChar c) = true.
Proof.
  unfold escapeChar.
  destruct (N.eqb c AMP); [reflexivity |].
  destruct (N.eqb c NBSP); [reflexivity |].
  destruct (N.eqb c LT) eqn:E3; [reflexivity |].
  destruct (N.eqb c GT) eqn:E4; [reflexivity |].
  unfold plain, isAngle. simpl. rewrite E3, E4. reflexivity.
Qed.

(** After escaping, no angle bracket is left. *)
Lemma escapeHtml_plain (s : option jsstring) : plain (escapeHtml s) = true.
Proof.
  destruct s as [s|]; [| reflexivity]. simpl.
  induction s as [|c s IH]; simpl; [reflexivity |].
  rewrite plain_app, escapeChar_plain, IH. reflexivity.
Qed.

Lemma replaceBold_OKT_len (n : nat) :
  forall s, length s <= n -> plain s = true -> OnlyKnownTags (replaceBold s).
Proof.
  induction n as [|n IH]; intros s Hlen Hp.
  - destruct s; [constructor | simpl in Hlen; lia].
  - destruct s as [|c rest]; [constructor |].
    destruct (matchBoldAt (c :: rest)) as [[inner after]|] eqn:E.
    + rewrite (replaceBold_match _ E).
      destruct (matchBoldAt_sound _ E) as (Hs & Hne & Hall).
      rewrite Hs in Hp, Hlen.
      change (plain ([STAR; STAR] ++ inner ++ [STAR; STAR] ++ after) = true) in Hp.
      rewrite !plain_app in Hp.
      repeat (apply andb_true_iff in Hp; destruct Hp as [? Hp]).
      apply OKT_tag; [simpl; tauto |].
      apply OKT_app; [apply OKT_plain; assumption |].
      apply OKT_tag; [simpl; tauto |].
      apply IH; [| assumption].
      simpl in Hlen. rewrite length_app in Hlen. simpl in Hlen. lia.
    + rewrite replaceBold_step by exact E.
      simpl in Hp. apply andb_true_iff in Hp. destruct Hp as [Hc Hp].
      apply negb_true_iff in Hc. constructor; [exact Hc |].
      apply IH; [simpl in Hlen; lia | exact Hp].
Qed.

Lemma prepared_OKT (raw : option jsstring) : OnlyKnownTags (prepared raw).
Proof.
  unfold prepared. apply (replaceBold_OKT_len (n := length (escapeHtml (Some (orEmpty raw))))).
  - lia.
  - apply escapeHtml_plain.
Qed.

(** Splitting at line feeds or at pipes cuts no tag. *)
Lemma OKT_split (sep : char) (s : jsstring) :
  sep = LF \/ sep = PIPE ->
  OnlyKnownTags s -> Forall OnlyKnownTags (split sep s).
Proof.
  intros Hsep. induction 1 as [|c s Hc H IH|t s Ht H IH].
  - repeat constructor.
  - rewrite split_cons. rewrite (split_hd_tl sep s) in IH.
    inversion IH; subst.
    destruct (N.eqb c sep).
    + constructor; [constructor |]. rewrite (split_hd_tl sep s). exact IH.
    + constructor; [constructor |]; assumption.
  - rewrite split_app_block by (apply tag_no_sep; assumption).
    rewrite (split_hd_tl sep s) in IH. inversion IH; subst.
    constructor; [apply OKT_tag |]; assumption.
Qed.

Lemma isWhiteSpace_not_angle (c : char) :
  isWhiteSpace c = true -> isAngle c = false.
Proof.
  unfold isAngle. intros H.
  destruct (N.eqb c LT) eqn:E1; [apply N.eqb_eq in E1; subst; discriminate |].
  destruct (N.eqb c GT) eqn:E2; [apply N.eqb_eq in E2; subst; discriminate |].
  reflexivity.
Qed.

Lemma OKT_dropWhile (s : jsstring) :
  OnlyKnownTags s -> OnlyKnownTags (dropWhile isWhiteSpace s).
Proof.
  induction 1 as [|c s Hc H IH|t s Ht H IH]; simpl.
  - constructor.
  - destruct (isWhiteSpace c); [exact IH | constructor; assumption].
  - destruct (tag_head Ht) as (rest & E). subst t.
    change (OnlyKnownTags ((LT :: rest) ++ s)). apply OKT_tag; assumption.
Qed.

(** A trailing white-space character is never the end of a tag. *)
Lemma OKT_snoc (x : jsstring) :
  OnlyKnownTags x ->
  forall s c, x = s ++ [c] -> isWhiteSpace c = true -> OnlyKnownTags s.
Proof.
  induction 1 as [|c0 s0 Hc H IH|t s0 Ht H IH]; intros s c E Hws.
  - destruct s; discriminate.
  - destruct s as [|y s]; simpl in E.
    + constructor.
    + injection E as -> ->. constructor; [assumption | eauto].
  - apply app_snoc_inv in E. destruct E as [[-> E] | (b0 & -> & ->)].
    + pose proof (@tag_last _ _ _ Ht E) as ->. discriminate.
    + apply OKT_tag; [assumption | eauto].
Qed.

Lemma OKT_dropEnd (s : jsstring) :
  OnlyKnownTags s -> OnlyKnownTags (rev (dropWhile isWhiteSpace (rev s))).
Proof.
  induction s as [|c s IH] using rev_ind; intros H; [constructor |].
  rewrite rev_app_distr. simpl.
  destruct (isWhiteSpace c) eqn:E.
  - apply IH. apply (OKT_snoc H s c eq_refl E).
  - change (c :: rev s) with (rev [c] ++ rev s).
    rewrite <- rev_app_distr, rev_involutive. exact H.
Qed.

Lemma OKT_trim (s : jsstring) : OnlyKnownTags s -> OnlyKnownTags (trim s).
Proof. intros H. unfold trim. apply OKT_dropEnd, OKT_dropWhile, H. Qed.


Lemma Forall_removelast (A : Type) (P : A -> Prop) (l : list A) :
  Forall P l -> Forall P (removelast l).
Proof.
  induction 1 as [|x l Hx Hl IH]; simpl; [constructor |].
  destruct l; [constructor | constructor; assumption].
Qed.

Lemma Forall_sliceInner (A : Type) (P : A -> Prop) (l : list A) :
  Forall P l -> Forall P (sliceInner l).
Proof.
  intros H. unfold sliceInner. apply Forall_removelast.
  destruct H; [constructor | assumption].
Qed.

Lemma rowCells_OKT (row : jsstring) :
  OnlyKnownTags row -> Forall OnlyKnownTags (rowCells row).
Proof.
  intros H. unfold rowCells. apply Forall_map.
  apply Forall_sliceInner.
  eapply Forall_impl; [| apply (OKT_split (sep := PIPE)); auto].
  intros a Ha. apply OKT_trim, Ha.
Qed.

Lemma cellsHtml_OKT (tag : cellTag) (cells : list jsstring) :
  Forall OnlyKnownTags cells -> OnlyKnownTags (cellsHtml tag cells).
Proof.
  induction 1 as [|c cells Hc H IH]; simpl; [constructor |].
  destruct tag.
  - apply (@OKT_tag (str "<th>")); [simpl; tauto |].
    apply OKT_app; [exact Hc |].
    apply (@OKT_tag (str "</th>")); [simpl; tauto | exact IH].
  - apply (@OKT_tag (str "<td>")); [simpl; tauto |].
    apply OKT_app; [exact Hc |].
    apply (@OKT_tag (str "</td>")); [simpl; tauto | exact IH].
Qed.

Lemma rowsHtml_OKT (skip : bool) (rows : list jsstring) :
  Forall OnlyKnownTags rows ->
  forall r, OnlyKnownTags (rowsHtml skip r rows).
Proof.
  induction 1 as [|row rows Hrow H IH]; intros r; simpl; [constructor |].
  destruct (skip && Nat.eqb r 1); [apply IH |].
  apply (@OKT_tag (str "<tr>")); [simpl; tauto |].
  apply OKT_app; [apply cellsHtml_OKT, rowCells_OKT, Hrow |].
  apply (@OKT_tag (str "</tr>")); [simpl; tauto | apply IH].
Qed.

Lemma tableHtml_OKT (rows : list jsstring) :
  Forall OnlyKnownTags rows -> OnlyKnownTags (tableHtml rows).
Proof.
  intros H. unfold tableHtml.
  apply OKT_tag; [simpl; tauto |].
  apply OKT_app; [apply rowsHtml_OKT, H |].
  apply OKT_single_tag. simpl; tauto.
Qed.

Lemma takeRows_Forall (P : jsstring -> Prop) (lines : list jsstring) :
  Forall P lines ->
  Forall P (fst (takeRows lines)) /\ Forall P (snd (takeRows lines)).
Proof.
  intros H. rewrite <- (takeRows_app lines) in H.
  apply Forall_app in H. exact H.
Qed.

Lemma parseLines_OKT (fuel : nat) :
  forall lines, Forall OnlyKnownTags lines ->
    Forall OnlyKnownTags (map renderItem (parseLines fuel lines)).
Proof.
  induction fuel as [|fuel IH]; intros lines H.
  - destruct lines; constructor.
  - destruct lines as [|l rest]; [constructor |].
    cbn [parseLines]. destruct (isTableRow l) eqn:E.
    + destruct (takeRows_Forall H) as [H1 H2].
      destruct (takeRows (l :: rest)) as [rows rest']. cbn [fst snd] in *.
      cbn [map renderItem]. constructor; [| apply IH, H2].
      rewrite <- tableHtml_render. apply tableHtml_OKT, H1.
    + inversion H; subst. cbn [map renderItem].
      constructor; [assumption | apply IH; assumption].
Qed.

Lemma join_OKT (parts : list jsstring) :
  Forall OnlyKnownTags parts -> OnlyKnownTags (join [LF] parts).
Proof.
  induction 1 as [|p parts Hp H IH]; [constructor |].
  destruct parts as [|q parts]; [exact Hp |].
  rewrite join_cons by discriminate.
  apply OKT_app; [exact Hp |]. simpl. constructor; [reflexivity | exact IH].
Qed.

Lemma replaceChar_OKT (s : jsstring) :
  OnlyKnownTags s -> OnlyKnownTags (replaceChar LF (str "<br>") s).
Proof.
  induction 1 as [|c s Hc H IH|t s Ht H IH].
  - constructor.
  - cbn [replaceChar]. destruct (N.eqb c LF).
    + apply OKT_tag; [simpl; tauto | exact IH].
    + constructor; assumption.
  - rewrite replaceChar_app.
    rewrite (replaceChar_absent LF _ t) by (apply tag_no_sep; auto).
    apply OKT_tag; assumption.
Qed.

(** Whatever the message, every angle bracket of the result belongs to a
    tag the formatter wrote. *)
Theorem formatAiMessage_OKT (raw : option jsstring) :
  exists out, formatAiMessage raw = Some out /\ OnlyKnownTags out.
Proof.
  rewrite formatAiMessage_render. eexists. split; [reflexivity |].
  unfold brJoin. apply replaceChar_OKT, join_OKT.
  unfold parse. apply parseLines_OKT.
  apply OKT_split; [auto | apply prepared_OKT].
Qed.


(** *** Headers *)

Lemma removeWhiteSpace_framed (mid : jsstring) :
  removeWhiteSpace (PIPE :: mid ++ [PIPE])
  = PIPE :: removeWhiteSpace mid ++ [PIPE].
Proof.
  unfold removeWhiteSpace. simpl. rewrite filter_app. reflexivity.
Qed.

(** On a string framed by pipes, the separator test asks for pipes, dashes
    and colons only, and for at least one of them inside the frame. *)
Lemma separator_iff_spec (mid : jsstring) :
  matches separatorRe (PIPE :: mid ++ [PIPE]) = true
  <-> specSeparatorShape (PIPE :: mid ++ [PIPE]) = true
      /\ 3 <= length (PIPE :: mid ++ [PIPE]).
Proof.
  rewrite separator_shape. unfold specSeparatorShape. simpl.
  rewrite forallb_app, length_app. simpl. split.
  - intros (m & E & Hne & Hm). injection E as E.
    apply app_inj_tail in E. destruct E as [<- _].
    rewrite Hm. split; [reflexivity |].
    destruct mid; [congruence | simpl; lia].
  - intros [H Hlen]. exists mid.
    rewrite andb_true_r in H. repeat split; auto.
    intros ->. simpl in Hlen. lia.
Qed.

Lemma hasHeader_skipSep (rows : list jsstring) :
  hasHeader (parseBlock rows) = skipSep rows.
Proof.
  unfold parseBlock. destruct (skipSep rows) eqn:E; [| reflexivity].
  destruct (skipSep_length rows E) as (r0 & r1 & rest & ->). reflexivity.
Qed.

Lemma skipSep_second (rows : list jsstring) :
  skipSep rows = true <->
  2 <= length rows /\
  exists row2, nth_error rows 1 = Some row2
               /\ matches separatorRe (removeWhiteSpace row2) = true.
Proof.
  unfold skipSep. rewrite andb_true_iff, Nat.leb_le. split.
  - intros [Hlen H]. split; [exact Hlen |].
    destruct (nth_error rows 1) as [row2|]; [eauto | discriminate].
  - intros [Hlen (row2 & -> & H)]. auto.
Qed.


(** *** Statements about the formatter *)

(** C1 (as amended).  A captured block has a header exactly when it has at
    least two rows and its second row, white space removed, consists of
    pipes, dashes and colons only and has at least three characters (at
    least one between its first and last pipe).  With a header the second
    row is dropped and the cells of the first row are the header cells;
    without one every row is a body row.  The markup of the block is the
    rendering of that header and body.  The two sample messages of the
    specification parse as it says. *)
Theorem C1_header_iff_separator_row :
  (forall rows : list jsstring,
      Forall (fun l => isTableRow l = true) rows ->
      (hasHeader (parseBlock rows) = true <->
       2 <= length rows /\
       exists row2, nth_error rows 1 = Some row2
                    /\ specSeparatorShape (removeWhiteSpace row2) = true
                    /\ 3 <= length (removeWhiteSpace row2))
      /\ parseBlock rows
         = (if hasHeader (parseBlock rows)
            then {| header := Some (rowCells (hd [] rows));
                    body := map rowCells (skipn 2 rows) |}
            else {| header := None; body := map rowCells rows |})
      /\ tableHtml rows = renderTable (parseBlock rows))
  /\ parse (prepared (Some (str "|A|B|" ++ LF :: str "|--|--|" ++ LF :: str "|1|2|")))
     = [Table {| header := Some [str "A"; str "B"];
                 body := [[str "1"; str "2"]] |}]
  /\ formatAiMessage (Some (str "|A|B|" ++ LF :: str "|--|--|" ++ LF :: str "|1|2|"))
     = Some (tableOpen ++ str "<tr><th>A</th><th>B</th></tr><tr><td>1</td><td>2</td></tr></table>")
  /\ parse (prepared (Some (str "|A|B|" ++ LF :: str "|1|2|")))
     = [Table {| header := None;
                 body := [[str "A"; str "B"]; [str "1"; str "2"]] |}]
  /\ formatAiMessage (Some (str "|A|B|" ++ LF :: str "|1|2|"))
     = Some (tableOpen ++ str "<tr><td>A</td><td>B</td></tr><tr><td>1</td><td>2</td></tr></table>").
Proof.
  split; [| conjuncts; vm_compute; reflexivity].
  intros rows Hrows. split; [| split].
  - rewrite hasHeader_skipSep, skipSep_second.
    split; intros [Hlen (row2 & Hnth & H)]; (split; [exact Hlen |]);
      exists row2; (split; [exact Hnth |]);
      assert (Hrow : isTableRow row2 = true)
        by (rewrite Forall_forall in Hrows; apply Hrows;
            apply (nth_error_In _ _ Hnth));
      apply isTableRow_shape in Hrow; destruct Hrow as (mid & -> & _ & _);
      rewrite removeWhiteSpace_framed in *.
    + apply separator_iff_spec. exact H.
    + apply separator_iff_spec. exact H.
  - rewrite hasHeader_skipSep. unfold parseBlock.
    destruct (skipSep rows) eqn:E; [| reflexivity].
    destruct (skipSep_length rows E) as (r0 & r1 & rest & ->). reflexivity.
  - apply tableHtml_render.
Qed.

Lemma C1_header_iff_separator_row_witness :
  Forall (fun l => isTableRow l = true)
         [str "|A|B|"; str "|--|--|"; str "|1|2|"]
  /\ tableHtml [str "|A|B|"; str "|--|--|"; str "|1|2|"]
     = renderTable (parseBlock [str "|A|B|"; str "|--|--|"; str "|1|2|"]).
Proof.
  split; [repeat constructor |].
  apply (proj1 C1_header_iff_separator_row
           [str "|A|B|"; str "|--|--|"; str "|1|2|"]).
  repeat constructor.
Defined.

(** C1 as stated fails: the block of the rows [|A|] and [| |] has two rows
    and its second row, white space removed, is [||], which consists of
    pipes only; yet the block gets no header and both rows are body
    rows. *)
Lemma C1_counterexample :
  Forall (fun l => isTableRow l = true) [str "|A|"; str "| |"]
  /\ 2 <= length [str "|A|"; str "| |"]
  /\ nth_error [str "|A|"; str "| |"] 1 = Some (str "| |")
  /\ removeWhiteSpace (str "| |") = str "||"
  /\ specSeparatorShape (removeWhiteSpace (str "| |")) = true
  /\ hasHeader (parseBlock [str "|A|"; str "| |"]) = false
  /\ parse (prepared (Some (str "|A|" ++ LF :: str "| |")))
     = [Table {| header := None; body := [[str "A"]; [[]]] |}]
  /\ formatAiMessage (Some (str "|A|" ++ LF :: str "| |"))
     = Some (tableOpen ++ str "<tr><td>A</td></tr><tr><td></td></tr></table>").
Proof.
  split; [repeat constructor |].
  conjuncts; vm_compute; reflexivity.
Qed.


Lemma isWhiteSpace_PIPE : isWhiteSpace PIPE = false.
Proof. reflexivity. Qed.

(** A line the test accepts also has the shape the specification words,
    which trims first. *)
Lemma isTableRow_specRowShape (line : jsstring) :
  isTableRow line = true -> specRowShape line = true.
Proof.
  intros H. apply isTableRow_shape in H. destruct H as (mid & -> & Hne & _).
  unfold specRowShape.
  rewrite (trim_framed PIPE PIPE mid isWhiteSpace_PIPE isWhiteSpace_PIPE).
  rewrite last_last, length_app, !N.eqb_refl.
  destruct mid as [|m mid]; [congruence |]. simpl length.
  replace (S (length mid) + 1) with (S (S (length mid))) by lia. reflexivity.
Qed.

Lemma specRowShape_not_row (lines : list jsstring) :
  Forall (fun l => specRowShape l = false) lines ->
  Forall (fun l => isTableRow l = false) lines.
Proof.
  apply Forall_impl. intros l Hl.
  destruct (isTableRow l) eqn:E; [| reflexivity].
  rewrite (isTableRow_specRowShape l E) in Hl. discriminate.
Qed.

Lemma isTableRow_head_ws (c : char) (line : jsstring) :
  isWhiteSpace c = true -> isTableRow (c :: line) = false.
Proof.
  intros Hc. destruct (isTableRow (c :: line)) eqn:E; [| reflexivity].
  apply isTableRow_shape in E. destruct E as (mid & E & _).
  injection E as -> _. discriminate.
Qed.

Lemma isTableRow_last_ws (c : char) (line : jsstring) :
  isWhiteSpace c = true -> isTableRow (line ++ [c]) = false.
Proof.
  intros Hc. destruct (isTableRow (line ++ [c])) eqn:E; [| reflexivity].
  apply isTableRow_shape in E. destruct E as (mid & E & _).
  change (PIPE :: mid ++ [PIPE]) with ((PIPE :: mid) ++ [PIPE]) in E.
  apply app_inj_tail in E. destruct E as [_ ->]. discriminate.
Qed.

Lemma parseLines_text_head (n : nat) (l : jsstring) (rest : list jsstring) :
  isTableRow l = false ->
  parseLines (S n) (l :: rest) = TextSegment l :: parseLines n rest.
Proof. intros H. cbn [parseLines]. rewrite H. reflexivity. Qed.

Lemma parseLines_row_head (n : nat) (l : jsstring) (rest : list jsstring) :
  isTableRow l = true ->
  parseLines (S n) (l :: rest)
  = Table (parseBlock (l :: fst (takeRows rest)))
      :: parseLines n (snd (takeRows rest)).
Proof.
  intros H. cbn [parseLines takeRows]. rewrite H.
  destruct (takeRows rest). reflexivity.
Qed.

(** C2 (as amended).  The test is made on the line as it stands, without
    trimming: a line is a table row exactly when it begins with a pipe,
    ends with a pipe and has between them at least one character, none of
    them a line terminator.  Escaping and the bold substitution do not
    change how a line of the message is classified.  A line the test
    rejects becomes a text item, a line it accepts opens a table block
    with the accepted lines that follow it.  A line that begins or ends
    with a white-space character is never a table row; every table row
    has the shape the specification words. *)
Theorem C2_table_row_test_untrimmed :
  (forall line : jsstring,
      isTableRow line = true <->
      exists mid, line = PIPE :: mid ++ [PIPE] /\ mid <> []
                  /\ forallb dot mid = true)
  /\ (forall raw : jsstring,
         map isTableRow (split LF (prepared (Some raw)))
         = map isTableRow (split LF raw))
  /\ (forall n l rest,
         isTableRow l = false ->
         parseLines (S n) (l :: rest) = TextSegment l :: parseLines n rest)
  /\ (forall n l rest,
         isTableRow l = true ->
         parseLines (S n) (l :: rest)
         = Table (parseBlock (l :: fst (takeRows rest)))
             :: parseLines n (snd (takeRows rest)))
  /\ (forall c line,
         isWhiteSpace c = true ->
         isTableRow (c :: line) = false /\ isTableRow (line ++ [c]) = false)
  /\ (forall line, isTableRow line = true -> specRowShape line = true).
Proof.
  conjuncts.
  - apply isTableRow_shape.
  - apply prepared_lines.
  - apply parseLines_text_head.
  - apply parseLines_row_head.
  - intros c line Hc. split;
      [apply isTableRow_head_ws | apply isTableRow_last_ws]; exact Hc.
  - apply isTableRow_specRowShape.
Qed.

Lemma C2_table_row_test_untrimmed_witness :
  isWhiteSpace 32%N = true
  /\ isTableRow (32%N :: str "|A|") = false
  /\ isTableRow (str "|A|" ++ [32%N]) = false.
Proof.
  split; [reflexivity |].
  apply (proj1 (proj2 (proj2 (proj2 (proj2 C2_table_row_test_untrimmed))))
           32%N (str "|A|")).
  reflexivity.
Defined.

(** C2 as stated fails: the line [ |A| ], with a space before and after,
    has the table-row shape once trimmed, yet the test rejects it and the
    message is rendered as plain text.  So is a row followed by a carriage
    return, as in a message with CR LF line ends, and a line with a
    carriage return between its pipes. *)
Lemma C2_counterexample :
  trim (str " |A| ") = str "|A|"
  /\ specRowShape (str " |A| ") = true
  /\ isTableRow (str " |A| ") = false
  /\ parse (prepared (Some (str " |A| "))) = [TextSegment (str " |A| ")]
  /\ formatAiMessage (Some (str " |A| ")) = Some (str " |A| ")
  /\ specRowShape (str "|A|" ++ [CR]) = true
  /\ isTableRow (str "|A|" ++ [CR]) = false
  /\ specRowShape (str "|A" ++ CR :: str "B|") = true
  /\ isTableRow (str "|A" ++ CR :: str "B|") = false.
Proof. conjuncts; vm_compute; reflexivity. Qed.

(** C3.  When no line of the message is a table row, the result holds no
    table: the items are text items which, joined, are the escaped and
    bold-substituted message, and the result is that text with its line
    feeds turned into line-break markup.  The same holds when no line has
    the shape as the specification words it.  The formatter returns a
    result on every message, also on [null]. *)
Theorem C3_no_table_row_plain_text :
  (forall raw : jsstring,
      Forall (fun l => isTableRow l = false) (split LF raw) ->
      existsb isTable (parse (prepared (Some raw))) = false
      /\ join [LF] (map renderItem (parse (prepared (Some raw))))
         = replaceBold (escapeHtml (Some raw))
      /\ formatAiMessage (Some raw)
         = Some (replaceChar LF (str "<br>")
                   (replaceBold (escapeHtml (Some raw)))))
  /\ (forall raw : jsstring,
         Forall (fun l => specRowShape l = false) (split LF raw) ->
         formatAiMessage (Some raw)
         = Some (replaceChar LF (str "<br>")
                   (replaceBold (escapeHtml (Some raw)))))
  /\ (forall raw : option jsstring, exists out, formatAiMessage raw = Some out)
  /\ formatAiMessage None = Some [].
Proof.
  assert (Hmain : forall raw : jsstring,
      Forall (fun l => isTableRow l = false) (split LF raw) ->
      parse (prepared (Some raw))
      = map TextSegment (split LF (prepared (Some raw)))).
  { intros raw H. unfold parse. apply parseLines_text; [lia |].
    apply map_false_Forall. rewrite prepared_lines.
    apply map_false_Forall. exact H. }
  conjuncts.
  - intros raw H. rewrite formatAiMessage_render, (Hmain raw H).
    rewrite map_renderItem_text. unfold brJoin. rewrite join_split.
    conjuncts; try reflexivity.
    induction (split LF (prepared (Some raw))); simpl; auto.
  - intros raw H. apply specRowShape_not_row in H.
    rewrite formatAiMessage_render, (Hmain raw H).
    rewrite map_renderItem_text. unfold brJoin. rewrite join_split.
    reflexivity.
  - intros raw. rewrite formatAiMessage_render. eauto.
  - reflexivity.
Qed.

Lemma C3_no_table_row_plain_text_witness :
  Forall (fun l => isTableRow l = false)
         (split LF (str "a | b <i>" ++ LF :: str "|x"))
  /\ formatAiMessage (Some (str "a | b <i>" ++ LF :: str "|x"))
     = Some (replaceChar LF (str "<br>")
               (replaceBold (escapeHtml
                  (Some (str "a | b <i>" ++ LF :: str "|x"))))).
Proof.
  split; [repeat constructor |].
  apply (proj1 C3_no_table_row_plain_text
           (str "a | b <i>" ++ LF :: str "|x")).
  repeat constructor.
Defined.


(** *** Escaping and bold markers *)

Lemma escapeHtml_app (a b : jsstring) :
  escapeHtml (Some (a ++ b)) = escapeHtml (Some a) ++ escapeHtml (Some b).
Proof. simpl. apply flat_map_app. Qed.

(** A property of characters that the entity names have is kept by
    escaping. *)
Lemma escapeHtml_forallb (p : char -> bool) (s : jsstring) :
  forallb p (str "&amp;&nbsp;&lt;&gt;") = true ->
  forallb p s = true -> forallb p (escapeHtml (Some s)) = true.
Proof.
  intros Hent. simpl in Hent.
  repeat (apply andb_true_iff in Hent; destruct Hent as [? Hent]).
  unfold escapeHtml.
  induction s as [|c s IH]; simpl; [reflexivity |].
  intros Hcs. apply andb_true_iff in Hcs. destruct Hcs as [Hc Hs].
  rewrite forallb_app. rewrite (IH Hs), andb_true_r.
  unfold escapeChar.
  repeat match goal with
         | |- context [N.eqb c ?k] => destruct (N.eqb c k)
         end; simpl;
    repeat match goal with H : p _ = true |- _ => rewrite H; clear H end;
    reflexivity.
Qed.

Lemma escapeHtml_not_nil (s : jsstring) :
  s <> [] -> escapeHtml (Some s) <> [].
Proof.
  destruct s as [|c s]; [congruence |]. intros _. simpl.
  unfold escapeChar.
  repeat match goal with
         | |- context [N.eqb c ?k] => destruct (N.eqb c k)
         end; discriminate.
Qed.

(** A bold pair around star-free text: the markers become the strong tags,
    written after escaping and so not escaped themselves, and the text
    between them is escaped. *)
Lemma bold_pair (x : jsstring) :
  x <> [] -> forallb notStar x = true ->
  replaceBold (escapeHtml (Some (STAR :: STAR :: x ++ [STAR; STAR])))
  = str "<strong>" ++ escapeHtml (Some x) ++ str "</strong>".
Proof.
  intros Hne Hx.
  change (STAR :: STAR :: x ++ [STAR; STAR])
    with ([STAR; STAR] ++ x ++ [STAR; STAR]).
  rewrite !escapeHtml_app.
  change (escapeHtml (Some [STAR; STAR])) with [STAR; STAR].
  rewrite (@replaceBold_match _ (escapeHtml (Some x)) []).
  - reflexivity.
  - apply matchBoldAt_complete.
    + apply escapeHtml_not_nil, Hne.
    + apply escapeHtml_forallb; [reflexivity | exact Hx].
Qed.

(** C4.  The message is escaped first and the bold substitution runs on
    the escaped text.  Escaping leaves no angle bracket, so every angle
    bracket of the result belongs to a tag the formatter wrote: markup of
    the raw message arrives as literal text.  The strong tags are written
    after escaping and stay as they are.  [**x**] gives the strong tags
    around [x]; [<b>] gives its escaped text. *)
Theorem C4_escape_before_bold :
  (forall raw : option jsstring,
      formatAiMessage raw
      = Some (brJoin (map renderItem
                (parse (replaceBold (escapeHtml (Some (orEmpty raw))))))))
  /\ (forall s : option jsstring, plain (escapeHtml s) = true)
  /\ (forall raw : option jsstring,
         exists out, formatAiMessage raw = Some out /\ OnlyKnownTags out)
  /\ (forall x : jsstring,
         x <> [] -> forallb notStar x = true ->
         replaceBold (escapeHtml (Some (STAR :: STAR :: x ++ [STAR; STAR])))
         = str "<strong>" ++ escapeHtml (Some x) ++ str "</strong>")
  /\ formatAiMessage (Some (str "**x**")) = Some (str "<strong>x</strong>")
  /\ formatAiMessage (Some (str "<b>")) = Some (str "&lt;b&gt;")
  /\ formatAiMessage (Some (str "**<b>**"))
     = Some (str "<strong>&lt;b&gt;</strong>").
Proof.
  conjuncts.
  - apply formatAiMessage_render.
  - apply escapeHtml_plain.
  - apply formatAiMessage_OKT.
  - apply bold_pair.
  - vm_compute; reflexivity.
  - vm_compute; reflexivity.
  - vm_compute; reflexivity.
Qed.

Lemma C4_escape_before_bold_witness :
  str "<b>" <> [] /\ forallb notStar (str "<b>") = true
  /\ replaceBold (escapeHtml (Some (STAR :: STAR :: str "<b>" ++ [STAR; STAR])))
     = str "<strong>" ++ escapeHtml (Some (str "<b>")) ++ str "</strong>".
Proof.
  split; [discriminate |]. split; [reflexivity |].
  apply (proj1 (proj2 (proj2 (proj2 C4_escape_before_bold))) (str "<b>")).
  - discriminate.
  - reflexivity.
Defined.

(** *** Bold inside a table cell *)

Lemma split_single (sep : char) (s : jsstring) :
  forallb (fun c => negb (N.eqb c sep)) s = true -> split sep s = [s].
Proof.
  intros H. rewrite <- (app_nil_r s) at 1.
  rewrite split_app_block by exact H. simpl. rewrite app_nil_r. reflexivity.
Qed.

Lemma split_framed (mid : jsstring) :
  forallb (fun c => negb (N.eqb c PIPE)) mid = true ->
  split PIPE (PIPE :: mid ++ [PIPE]) = [[]; mid; []].
Proof.
  intros H. rewrite split_cons, N.eqb_refl.
  rewrite split_app_block by exact H. simpl. rewrite app_nil_r. reflexivity.
Qed.

Lemma forallb_weaken (p q : char -> bool) (s : jsstring) :
  (forall c, p c = true -> q c = true) ->
  forallb p s = true -> forallb q s = true.
Proof.
  intros Hpq H. rewrite forallb_forall in *. auto.
Qed.

Lemma cellChar_notStar (c : char) : cellChar c = true -> notStar c = true.
Proof. unfold cellChar. intros H. apply andb_true_iff in H. tauto. Qed.

Lemma cellChar_inert (c : char) : cellChar c = true -> inertChar c = true.
Proof. unfold cellChar. intros H. apply andb_true_iff in H. tauto. Qed.

Lemma inertChar_no_pipe (c : char) :
  inertChar c = true -> negb (N.eqb c PIPE) = true.
Proof. unfold inertChar, isPipe. intros H. apply andb_true_iff in H. tauto. Qed.

Lemma inertChar_no_LF (c : char) :
  inertChar c = true -> negb (N.eqb c LF) = true.
Proof. intros H. rewrite (inertChar_not_LF c H). reflexivity. Qed.

(** A message that is a single row with one bold cell. *)
Lemma bold_cell (x : jsstring) :
  x <> [] -> forallb cellChar x = true ->
  prepared (Some (PIPE :: STAR :: STAR :: x ++ [STAR; STAR; PIPE]))
  = PIPE :: (str "<strong>" ++ escapeHtml (Some x) ++ str "</strong>") ++ [PIPE]
  /\ parse (prepared (Some (PIPE :: STAR :: STAR :: x ++ [STAR; STAR; PIPE])))
     = [Table {| header := None;
                 body := [[str "<strong>" ++ escapeHtml (Some x)
                             ++ str "</strong>"]] |}].
Proof.
  intros Hne Hx.
  assert (Hex : forallb cellChar (escapeHtml (Some x)) = true)
    by (apply escapeHtml_forallb; [reflexivity | exact Hx]).
  set (ex := escapeHtml (Some x)) in *.
  set (cell := str "<strong>" ++ ex ++ str "</strong>").
  assert (Hcell : forallb inertChar cell = true).
  { unfold cell. rewrite !forallb_app.
    assert (Hin : forallb inertChar ex = true)
      by (eapply forallb_weaken; [apply cellChar_inert | exact Hex]).
    rewrite Hin. reflexivity. }
  assert (Hprep :
    prepared (Some (PIPE :: STAR :: STAR :: x ++ [STAR; STAR; PIPE]))
    = PIPE :: cell ++ [PIPE]).
  { unfold prepared, orEmpty.
    change (PIPE :: STAR :: STAR :: x ++ [STAR; STAR; PIPE])
      with ([PIPE; STAR; STAR] ++ x ++ [STAR; STAR; PIPE]).
    rewrite !escapeHtml_app. fold ex.
    change (escapeHtml (Some [PIPE; STAR; STAR])) with [PIPE; STAR; STAR].
    change (escapeHtml (Some [STAR; STAR; PIPE])) with [STAR; STAR; PIPE].
    change ([PIPE; STAR; STAR] ++ ex ++ [STAR; STAR; PIPE])
      with (PIPE :: STAR :: STAR :: ex ++ STAR :: STAR :: [PIPE]).
    rewrite replaceBold_step by reflexivity.
    rewrite (@replaceBold_match _ ex [PIPE]).
    - unfold cell. rewrite <- !app_assoc. reflexivity.
    - apply matchBoldAt_complete.
      + apply escapeHtml_not_nil, Hne.
      + eapply forallb_weaken; [apply cellChar_notStar | exact Hex]. }
  split; [exact Hprep |]. rewrite Hprep.
  assert (Hrow : isTableRow (PIPE :: cell ++ [PIPE]) = true).
  { apply isTableRow_shape. exists cell. repeat split.
    - discriminate.
    - eapply forallb_weaken; [apply inertChar_dot | exact Hcell]. }
  unfold parse. rewrite split_single.
  2:{ change (PIPE :: cell ++ [PIPE]) with ([PIPE] ++ cell ++ [PIPE]).
      rewrite !forallb_app.
      apply andb_true_iff; split; [reflexivity |].
      apply andb_true_iff; split; [| reflexivity].
      eapply forallb_weaken; [apply inertChar_no_LF | exact Hcell]. }
  cbn [length]. rewrite parseLines_row_head by exact Hrow.
  cbn [takeRows fst snd parseLines].
  unfold parseBlock. cbn [skipSep length Nat.leb andb map].
  unfold rowCells.
  rewrite split_framed by (eapply forallb_weaken; [apply inertChar_no_pipe | exact Hcell]).
  cbn [sliceInner tl removelast map].
  assert (Ecell : cell = LT :: (str "strong>" ++ ex ++ str "</strong") ++ [GT]).
  { unfold cell. simpl. rewrite <- !app_assoc. reflexivity. }
  assert (Htrim : trim cell = cell)
    by (rewrite Ecell; apply trim_framed; reflexivity).
  rewrite Htrim. reflexivity.
Qed.


(** C10.  The bold substitution runs on the whole escaped message before
    the lines are scanned, so a bold pair inside a table row becomes the
    strong tags inside the table cell: the message [|**x**|] is one table
    with the single body cell [<strong>x</strong>] (with [x] escaped). *)
Theorem C10_bold_inside_table_cell :
  (forall raw : option jsstring,
      formatAiMessage raw
      = Some (brJoin (map renderItem
                (parse (replaceBold (escapeHtml (Some (orEmpty raw))))))))
  /\ (forall x : jsstring,
         x <> [] -> forallb cellChar x = true ->
         parse (prepared (Some (PIPE :: STAR :: STAR :: x ++ [STAR; STAR; PIPE])))
         = [Table {| header := None;
                     body := [[str "<strong>" ++ escapeHtml (Some x)
                                 ++ str "</strong>"]] |}]
         /\ formatAiMessage (Some (PIPE :: STAR :: STAR :: x ++ [STAR; STAR; PIPE]))
            = Some (tableOpen ++ str "<tr><td><strong>" ++ escapeHtml (Some x)
                      ++ str "</strong></td></tr></table>"))
  /\ formatAiMessage (Some (str "|**a**|"))
     = Some (tableOpen ++ str "<tr><td><strong>a</strong></td></tr></table>")
  /\ formatAiMessage (Some (str "| Name | **Absent** |"))
     = Some (tableOpen
               ++ str "<tr><td>Name</td><td><strong>Absent</strong></td></tr></table>").
Proof.
  conjuncts.
  - apply formatAiMessage_render.
  - intros x Hne Hx. destruct (bold_cell Hne Hx) as [_ Hparse].
    split; [exact Hparse |].
    rewrite formatAiMessage_render, Hparse. f_equal.
    unfold brJoin. cbn [map renderItem join].
    assert (Hex : forallb inertChar (escapeHtml (Some x)) = true).
    { eapply forallb_weaken; [apply cellChar_inert |].
      apply escapeHtml_forallb; [reflexivity | exact Hx]. }
    assert (Hlf : forallb (fun c => negb (N.eqb c LF)) (escapeHtml (Some x)) = true)
      by (eapply forallb_weaken; [apply inertChar_no_LF | exact Hex]).
    unfold renderTable, rowHtml. cbn [header body flat_map cellsHtml tagName].
    rewrite !app_nil_r, <- !app_assoc.
    rewrite !replaceChar_app.
    rewrite (replaceChar_absent LF (str "<br>") (escapeHtml (Some x)) Hlf).
    reflexivity.
  - vm_compute; reflexivity.
  - vm_compute; reflexivity.
Qed.

Lemma C10_bold_inside_table_cell_witness :
  str "a<b" <> [] /\ forallb cellChar (str "a<b") = true
  /\ formatAiMessage (Some (PIPE :: STAR :: STAR :: str "a<b" ++ [STAR; STAR; PIPE]))
     = Some (tableOpen ++ str "<tr><td><strong>" ++ escapeHtml (Some (str "a<b"))
               ++ str "</strong></td></tr></table>").
Proof.
  split; [discriminate |]. split; [reflexivity |].
  apply (proj1 (proj2 C10_bold_inside_table_cell) (str "a<b")).
  - discriminate.
  - reflexivity.
Defined.

End ChatFacts.

(** ** The mark-attendance controller *)
Module MarkFacts.
Import Effects Mark.

Lemma strEqb_eq (a b : jsstring) : strEqb a b = true <-> a = b.
Proof.
  revert b. induction a as [|x a IH]; intros [|y b]; simpl;
    try (split; [discriminate | discriminate]); [tauto |].
  rewrite andb_true_iff, N.eqb_eq, IH. split.
  - intros [-> ->]; reflexivity.
  - intros H; injection H; auto.
Qed.

Lemma strEqb_refl (a : jsstring) : strEqb a a = true.
Proof. apply strEqb_eq. reflexivity. Qed.

(** *** The summary *)

Lemma filter_length_split (A : Type) (f : A -> bool) (l : list A) :
  length l = length (filter f l) + length (filter (fun x => negb (f x)) l).
Proof.
  induction l as [|x l IH]; simpl; [reflexivity |].
  destruct (f x); simpl; lia.
Qed.

Lemma summaryOf_spec (roster : list RosterEntry) :
  let sm := summaryOf roster in
  total sm = (present sm + absent sm)%Z
  /\ total sm = Z.of_nat (length roster)
  /\ present sm
     = Z.of_nat (length (filter (fun s => strEqb (status s) PRESENT) roster))
  /\ absent sm
     = Z.of_nat (length (filter (fun s => negb (strEqb (status s) PRESENT)) roster))
  /\ (0 <= absent sm)%Z.
Proof.
  unfold summaryOf. cbn [total present absent].
  pose proof (filter_length_split (fun s => strEqb (status s) PRESENT) roster)
    as Hlen.
  cbv beta in Hlen. repeat split; lia.
Qed.

Section Controller.
Variable toLowerCase : jsstring -> jsstring.

Lemma toggleRow_summary (k : nat) (st : State) :
  summaryCurrent st -> summaryCurrent (toggleRow k st).
Proof.
  unfold toggleRow, summaryCurrent. intros H.
  destruct (nth_error (markTbody st) k); [| exact H].
  destruct (find _ _); [reflexivity | exact H].
Qed.

Lemma step_summary (st : State) (e : Event) :
  summaryCurrent st -> summaryCurrent (fst (step toLowerCase st e)).
Proof.
  intros H. destruct e; simpl; try exact H; try reflexivity.
  - unfold loadMarkAttendance.
    destruct (markSection st) as [sid|]; [| exact H].
    destruct (markDate st); [exact H |].
    destruct (Z.eqb sid 0); exact H.
  - apply toggleRow_summary, H.
  - destruct (markSaveBtnDisabled st); [exact H |].
    unfold saveMarkAttendance.
    destruct (negb _ || _ || _); [exact H |].
    destruct (currentMarkSectionId st), (currentMarkDate st),
      (currentMarkSession st); exact H.
  - unfold onSaveOk, loadMarkAttendance. cbn [markSection markDate withSaveDisabled].
    destruct (markSection st) as [sid|]; [| exact H].
    destruct (markDate st); [exact H |].
    destruct (Z.eqb sid 0); exact H.
Qed.

Lemma run_summary (es : list Event) :
  forall st, summaryCurrent st -> summaryCurrent (fst (run toLowerCase st es)).
Proof.
  induction es as [|e es IH]; intros st H; [exact H |].
  cbn [run]. pose proof (step_summary e H) as H1.
  destruct (step toLowerCase st e) as [st1 effs1]. cbn [fst] in H1.
  specialize (IH st1 H1).
  destruct (run toLowerCase st1 es) as [st2 effs2]. exact IH.
Qed.

Lemma onLoadOk_summary (students : list ResponseEntry) (st : State) :
  summaryCurrent (onLoadOk toLowerCase students st).
Proof. reflexivity. Qed.

(** Rows are displayed in roster order and only from the roster. *)
Lemma displayedEntries_incl (st : State) :
  incl (displayedEntries toLowerCase st) (markAttendanceStudents st).
Proof.
  unfold displayedEntries. destruct (toLowerCase (markSearch st)).
  - apply incl_refl.
  - apply incl_filter.
Qed.

(** C6.  After loading a roster and any sequence of events (toggles, bulk
    settings, filter input, and the others), the displayed summary is the
    summary of the whole roster and satisfies total = present + absent,
    with total the size of the roster, present the number of entries with
    status [present] and absent the number of the others.  Typing in the
    filter changes the search text and the displayed rows only: roster,
    statuses and summary stay as they are, and the displayed rows are the
    roster entries the filter keeps. *)
Theorem C6_summary_total_and_filter :
  (forall (st : State) (students : list ResponseEntry) (es : list Event),
      let st' := fst (run toLowerCase (onLoadOk toLowerCase students st) es) in
      let sm := markSummary st' in
      sm = summaryOf (markAttendanceStudents st')
      /\ total sm = (present sm + absent sm)%Z
      /\ total sm = Z.of_nat (length (markAttendanceStudents st'))
      /\ present sm
         = Z.of_nat (length (filter (fun s => strEqb (status s) PRESENT)
                               (markAttendanceStudents st')))
      /\ absent sm
         = Z.of_nat (length (filter (fun s => negb (strEqb (status s) PRESENT))
                               (markAttendanceStudents st'))))
  /\ (forall (st : State) (text : jsstring),
         let st' := fst (step toLowerCase st (SearchInput text)) in
         markAttendanceStudents st' = markAttendanceStudents st
         /\ markSummary st' = markSummary st
         /\ markSummaryShown st' = markSummaryShown st
         /\ markEditingMode st' = markEditingMode st
         /\ markSearch st' = text
         /\ markTbody st' = map rowOf (displayedEntries toLowerCase st')
         /\ incl (displayedEntries toLowerCase st') (markAttendanceStudents st)
         /\ summaryOf (markAttendanceStudents st')
            = summaryOf (markAttendanceStudents st)).
Proof.
  split.
  - intros st students es st' sm.
    assert (Hcur : summaryCurrent st')
      by (apply run_summary, onLoadOk_summary).
    unfold summaryCurrent in Hcur. fold sm in Hcur.
    destruct (summaryOf_spec (markAttendanceStudents st'))
      as (H1 & H2 & H3 & H4 & _).
    rewrite <- Hcur in H1, H2, H3, H4. auto.
  - intros st text st'. subst st'. cbn.
    repeat split; try reflexivity.
    apply (displayedEntries_incl
             (onSearchInput toLowerCase text st)).
Qed.

End Controller.


(** *** Saving *)

Lemma absentIds_In (roster : list RosterEntry) (id : Z) :
  In id (absentIds roster) <->
  exists s, In s roster /\ student_id s = id /\ status s = ABSENT.
Proof.
  unfold absentIds. rewrite in_map_iff. split.
  - intros (s & Hid & Hin). apply filter_In in Hin. destruct Hin as [Hin Hs].
    apply strEqb_eq in Hs. eauto.
  - intros (s & Hin & Hid & Hs). exists s. split; [exact Hid |].
    apply filter_In. split; [exact Hin |]. apply strEqb_eq. exact Hs.
Qed.

Lemma NoDup_ids_inj (roster : list RosterEntry) :
  NoDup (map student_id roster) ->
  forall s t, In s roster -> In t roster -> student_id s = student_id t -> s = t.
Proof.
  induction roster as [|r roster IH]; intros Hnd s t Hs Ht E; [contradiction |].
  simpl in Hnd. inversion Hnd as [|? ? Hnot Hnd']; subst.
  destruct Hs as [-> | Hs], Ht as [-> | Ht]; auto.
  - exfalso. apply Hnot. rewrite E. apply in_map, Ht.
  - exfalso. apply Hnot. rewrite <- E. apply in_map, Hs.
Qed.

Lemma absentIds_entry (roster : list RosterEntry) (s : RosterEntry) :
  NoDup (map student_id roster) -> In s roster ->
  (In (student_id s) (absentIds roster) <-> status s = ABSENT).
Proof.
  intros Hnd Hs. rewrite absentIds_In. split.
  - intros (t & Ht & Hid & Hst).
    rewrite <- (NoDup_ids_inj roster Hnd t s Ht Hs Hid). exact Hst.
  - intros Hst. eauto.
Qed.

Section Saving.
Variable toLowerCase : jsstring -> jsstring.

Lemma saveMarkAttendance_cases (st : State) :
  saveMarkAttendance st = (st, [])
  \/ exists sid d ses,
       currentKey st = (Some sid, Some d, Some ses)
       /\ saveMarkAttendance st
          = (withSaveDisabled st true,
             [PostAttendance d sid ses (absentIds (markAttendanceStudents st))]).
Proof.
  unfold saveMarkAttendance, currentKey.
  destruct (negb _ || _ || _); [left; reflexivity |].
  destruct (currentMarkSectionId st) as [sid|]; [| left; reflexivity].
  destruct (currentMarkDate st) as [d|]; [| left; reflexivity].
  destruct (currentMarkSession st) as [ses|]; [| left; reflexivity].
  right. exists sid, d, ses. split; reflexivity.
Qed.

Lemma loadMarkAttendance_request (st : State) (sid : Z) :
  markSection st = Some sid -> sid <> 0%Z -> markDate st <> [] ->
  snd (loadMarkAttendance st)
  = [GetAttendance (markDate st) sid (markSession st)]
  /\ currentKey (fst (loadMarkAttendance st))
     = (Some sid, Some (markDate st), Some (markSession st))
  /\ formKey (fst (loadMarkAttendance st)) = formKey st
  /\ markAttendanceStudents (fst (loadMarkAttendance st))
     = markAttendanceStudents st.
Proof.
  intros Hs Hsid Hd. unfold loadMarkAttendance. rewrite Hs.
  destruct (markDate st) as [|c d] eqn:Ed; [congruence |].
  apply Z.eqb_neq in Hsid. rewrite Hsid. cbn. unfold formKey.
  rewrite Hs, Ed. repeat split.
Qed.

Lemma loadMarkAttendance_refused (st : State) :
  markSection st = None \/ markSection st = Some 0%Z \/ markDate st = [] ->
  loadMarkAttendance st = (st, [Toast (str "Select section and date.") error]).
Proof.
  unfold loadMarkAttendance. intros [H | [H | H]]; rewrite H.
  - reflexivity.
  - destruct (markDate st); reflexivity.
  - destruct (markSection st); reflexivity.
Qed.

Lemma toggleRow_frame (k : nat) (st : State) :
  frame (toggleRow k st) = frame st.
Proof.
  unfold toggleRow. destruct (nth_error (markTbody st) k); [| reflexivity].
  destruct (find _ _); reflexivity.
Qed.

Lemma editEvent_step (st : State) (e : Event) :
  editEvent e = true ->
  snd (step toLowerCase st e) = []
  /\ frame (fst (step toLowerCase st e)) = frame st.
Proof.
  destruct e; try discriminate; intros _; cbn [step fst snd];
    (split; [reflexivity |]); try reflexivity.
  apply toggleRow_frame.
Qed.

Lemma editEvent_run (es : list Event) :
  forall st, forallb editEvent es = true ->
    snd (run toLowerCase st es) = []
    /\ frame (fst (run toLowerCase st es)) = frame st.
Proof.
  induction es as [|e es IH]; intros st H; [split; reflexivity |].
  simpl in H. apply andb_true_iff in H. destruct H as [He Hes].
  cbn [run]. destruct (editEvent_step st e He) as [H1 H2].
  destruct (step toLowerCase st e) as [st1 effs1]. cbn [fst snd] in *.
  destruct (IH st1 Hes) as [H3 H4].
  destruct (run toLowerCase st1 es) as [st2 effs2]. cbn [fst snd] in *.
  subst. split; [reflexivity | congruence].
Qed.

Lemma run_app (es1 es2 : list Event) :
  forall st,
    run toLowerCase st (es1 ++ es2)
    = (fst (run toLowerCase (fst (run toLowerCase st es1)) es2),
       snd (run toLowerCase st es1)
         ++ snd (run toLowerCase (fst (run toLowerCase st es1)) es2)).
Proof.
  induction es1 as [|e es1 IH]; intros st.
  - simpl. destruct (run toLowerCase st es2); reflexivity.
  - cbn [app run]. destruct (step toLowerCase st e) as [st1 effs1].
    rewrite IH. destruct (run toLowerCase st1 es1) as [st2 effs2].
    cbn [fst snd].
    destruct (run toLowerCase st2 es2) as [st3 effs3]. cbn [fst snd].
    rewrite app_assoc. reflexivity.
Qed.

(** Load, edit, save, success, with the form left alone: the roster is
    reloaded for the key it was saved under. *)
Lemma save_then_reload (st : State) (students : list ResponseEntry)
      (es : list Event) (sid : Z) :
  markSection st = Some sid -> sid <> 0%Z ->
  markDate st <> [] -> markSession st <> [] ->
  forallb editEvent es = true ->
  exists roster,
    snd (run toLowerCase st
           (LoadClick :: LoadOk students :: es ++ [SaveClick; SaveOk]))
    = [GetAttendance (markDate st) sid (markSession st);
       PostAttendance (markDate st) sid (markSession st) (absentIds roster);
       Toast (str "Attendance saved successfully.") success;
       GetAttendance (markDate st) sid (markSession st)].
Proof.
  intros Hs Hsid Hd Hses Hes.
  destruct (loadMarkAttendance_request st Hs Hsid Hd) as (Hreq & Hkey & Hform & _).
  cbn [run step].
  destruct (loadMarkAttendance st) as [st1 effs1]. cbn [fst snd] in *.
  set (st2 := onLoadOk toLowerCase students st1).
  assert (Hf2 : frame st2
                = ((Some sid, Some (markDate st), Some (markSession st)),
                   formKey st, false)).
  { unfold frame. subst st2. unfold onLoadOk. cbn.
    unfold currentKey, formKey in *. cbn. congruence. }
  rewrite run_app.
  destruct (editEvent_run es st2 Hes) as [Heff Hfr].
  destruct (run toLowerCase st2 es) as [st3 effs3]. cbn [fst snd] in *.
  subst effs1 effs3. rewrite Hf2 in Hfr.
  unfold frame, currentKey, formKey in Hfr.
  injection Hfr as Hk1 Hk2 Hk3 Hf1 Hf2' Hf3 Hdis.
  exists (markAttendanceStudents st3).
  cbn [run step]. rewrite Hdis.
  assert (Hsave : saveMarkAttendance st3
                  = (withSaveDisabled st3 true,
                     [PostAttendance (markDate st) sid (markSession st)
                        (absentIds (markAttendanceStudents st3))])).
  { unfold saveMarkAttendance. rewrite Hk1, Hk2, Hk3.
    apply Z.eqb_neq in Hsid. cbn [truthyNum truthyStr]. rewrite Hsid.
    destruct (markDate st); [congruence |].
    destruct (markSession st); [congruence |]. reflexivity. }
  rewrite Hsave. unfold onSaveOk.
  assert (Hload : loadMarkAttendance
                    (withSaveDisabled (withSaveDisabled st3 true) false)
                  = (fst (loadMarkAttendance
                            (withSaveDisabled (withSaveDisabled st3 true) false)),
                     [GetAttendance (markDate st) sid (markSession st)])).
  { set (st4 := withSaveDisabled (withSaveDisabled st3 true) false).
    assert (H4s : markSection st4 = Some sid) by (subst st4; cbn; congruence).
    assert (H4d : markDate st4 <> []) by (subst st4; cbn; congruence).
    destruct (loadMarkAttendance_request st4 H4s Hsid H4d) as (Hr & _).
    rewrite (surjective_pairing (loadMarkAttendance st4)) at 1.
    rewrite Hr. subst st4. cbn [markDate markSession withSaveDisabled].
    rewrite Hf2', Hf3. reflexivity. }
  rewrite Hload. reflexivity.
Qed.

(** C5 (as amended).  Saving sends the ids of exactly the roster entries
    whose status is [absent], under the key of the last load: an id is
    sent if and only if an entry with that id is absent, and with distinct
    ids an entry's id is sent if and only if that entry is absent, so the
    id of a present student is not sent.  After a successful save the
    controller runs the load routine, which reads the key from the form:
    it reloads the roster for the section, date and session the form
    shows, and issues no request when the form's section or date is
    empty.  When the form is left alone between load and the answer to the
    save, the reload is for the key that was saved. *)
Theorem C5_save_sends_absent_then_reloads_form_key :
  (forall st : State,
      saveMarkAttendance st = (st, [])
      \/ exists sid d ses,
           currentKey st = (Some sid, Some d, Some ses)
           /\ saveMarkAttendance st
              = (withSaveDisabled st true,
                 [PostAttendance d sid ses
                    (absentIds (markAttendanceStudents st))]))
  /\ (forall (roster : list RosterEntry) (id : Z),
         In id (absentIds roster) <->
         exists s, In s roster /\ student_id s = id /\ status s = ABSENT)
  /\ (forall (roster : list RosterEntry) (s : RosterEntry),
         NoDup (map student_id roster) -> In s roster ->
         (In (student_id s) (absentIds roster) <-> status s = ABSENT)
         /\ (status s = PRESENT -> ~ In (student_id s) (absentIds roster)))
  /\ (forall (st : State) (sid : Z),
         markSection st = Some sid -> sid <> 0%Z -> markDate st <> [] ->
         snd (step toLowerCase st SaveOk)
         = [Toast (str "Attendance saved successfully.") success;
            GetAttendance (markDate st) sid (markSession st)])
  /\ (forall st : State,
         markSection st = None \/ markSection st = Some 0%Z \/ markDate st = [] ->
         snd (step toLowerCase st SaveOk)
         = [Toast (str "Attendance saved successfully.") success;
            Toast (str "Select section and date.") error])
  /\ (forall (st : State) (students : list ResponseEntry)
             (es : list Event) (sid : Z),
         markSection st = Some sid -> sid <> 0%Z ->
         markDate st <> [] -> markSession st <> [] ->
         forallb editEvent es = true ->
         exists roster,
           snd (run toLowerCase st
                  (LoadClick :: LoadOk students :: es ++ [SaveClick; SaveOk]))
           = [GetAttendance (markDate st) sid (markSession st);
              PostAttendance (markDate st) sid (markSession st)
                (absentIds roster);
              Toast (str "Attendance saved successfully.") success;
              GetAttendance (markDate st) sid (markSession st)]).
Proof.
  conjuncts.
  - apply saveMarkAttendance_cases.
  - apply absentIds_In.
  - intros roster s Hnd Hs. split; [apply absentIds_entry; assumption |].
    intros Hp Hin. apply (absentIds_entry roster s Hnd Hs) in Hin.
    rewrite Hp in Hin. discriminate.
  - intros st sid Hs Hsid Hd. cbn [step]. unfold onSaveOk.
    set (st1 := withSaveDisabled st false).
    assert (H1s : markSection st1 = Some sid) by exact Hs.
    assert (H1d : markDate st1 <> []) by exact Hd.
    destruct (loadMarkAttendance_request st1 H1s Hsid H1d) as (Hr & _).
    destruct (loadMarkAttendance st1) as [st2 effs]. cbn [snd] in *.
    rewrite Hr. reflexivity.
  - intros st H. cbn [step]. unfold onSaveOk.
    rewrite loadMarkAttendance_refused by exact H. reflexivity.
  - apply save_then_reload.
Qed.

End Saving.


Lemma C5_save_sends_absent_then_reloads_form_key_witness :
  NoDup (map student_id
           [ {| student_id := 7; roll_no := str "R7"; name := str "Ann";
                status := ABSENT |};
             {| student_id := 8; roll_no := str "R8"; name := str "Bob";
                status := PRESENT |} ])
  /\ In {| student_id := 8; roll_no := str "R8"; name := str "Bob";
           status := PRESENT |}
        [ {| student_id := 7; roll_no := str "R7"; name := str "Ann";
             status := ABSENT |};
          {| student_id := 8; roll_no := str "R8"; name := str "Bob";
             status := PRESENT |} ]
  /\ ~ In 8%Z
       (absentIds
          [ {| student_id := 7; roll_no := str "R7"; name := str "Ann";
               status := ABSENT |};
            {| student_id := 8; roll_no := str "R8"; name := str "Bob";
               status := PRESENT |} ]).
Proof.
  assert (Hnd : NoDup [7%Z; 8%Z]).
  { constructor; [simpl; intros [H | []]; discriminate |].
    constructor; [simpl; tauto | constructor]. }
  split; [exact Hnd |]. split; [simpl; tauto |].
  apply (proj1 (proj2 (proj2
           (C5_save_sends_absent_then_reloads_form_key (fun s => s))))
         [ {| student_id := 7; roll_no := str "R7"; name := str "Ann";
              status := ABSENT |};
           {| student_id := 8; roll_no := str "R8"; name := str "Bob";
              status := PRESENT |} ]
         {| student_id := 8; roll_no := str "R8"; name := str "Bob";
            status := PRESENT |}).
  - exact Hnd.
  - simpl; tauto.
  - reflexivity.
Defined.

(** C5 as stated fails.  The roster is loaded and saved for section 1 on
    2024-01-01; while the save is under way the date field is changed to
    2024-01-02; when the save succeeds the roster is reloaded for
    2024-01-02, not for the key that was saved.  When the section field is
    cleared instead, no reload is issued at all. *)
Lemma C5_counterexample :
  snd (run (fun s => s) (initial (str "2024-01-01"))
         [ FieldChange (FSection (Some 1%Z)); LoadClick;
           LoadOk [ {| r_student_id := 7; r_roll_no := str "R7";
                       r_name := str "Ann"; r_status := Some ABSENT |};
                    {| r_student_id := 8; r_roll_no := str "R8";
                       r_name := str "Bob"; r_status := None |} ];
           SaveClick; FieldChange (FDate (str "2024-01-02")); SaveOk ])
  = [ GetAttendance (str "2024-01-01") 1 (str "morning");
      PostAttendance (str "2024-01-01") 1 (str "morning") [7%Z];
      Toast (str "Attendance saved successfully.") success;
      GetAttendance (str "2024-01-02") 1 (str "morning") ]
  /\ snd (run (fun s => s) (initial (str "2024-01-01"))
            [ FieldChange (FSection (Some 1%Z)); LoadClick;
              LoadOk [ {| r_student_id := 7; r_roll_no := str "R7";
                          r_name := str "Ann"; r_status := Some ABSENT |} ];
              SaveClick; FieldChange (FSection None); SaveOk ])
     = [ GetAttendance (str "2024-01-01") 1 (str "morning");
         PostAttendance (str "2024-01-01") 1 (str "morning") [7%Z];
         Toast (str "Attendance saved successfully.") success;
         Toast (str "Select section and date.") error ].
Proof. split; vm_compute; reflexivity. Qed.

(** C7.  When the save request fails, everything but the save button is as
    it was when the save was issued: the roster with every status, the key
    of the last load, the editing flag, the form and the displayed rows;
    the save button is enabled again and the error message is shown as an
    error toast.  Issuing the save changes nothing but the button, and the
    handler of the failure, in whatever state it runs, changes nothing but
    the button. *)
Theorem C7_failed_save_keeps_state :
  forall (toLowerCase : jsstring -> jsstring) (st : State) (message : jsstring),
    let st1 := fst (step toLowerCase st SaveClick) in
    let st2 := fst (step toLowerCase st1 (SaveFailed message)) in
    (markAttendanceStudents st2 = markAttendanceStudents st
     /\ map status (markAttendanceStudents st2)
        = map status (markAttendanceStudents st)
     /\ currentKey st2 = currentKey st
     /\ markEditingMode st2 = markEditingMode st
     /\ formKey st2 = formKey st
     /\ markSearch st2 = markSearch st
     /\ markTbody st2 = markTbody st
     /\ markSummary st2 = markSummary st
     /\ markSaveBtnDisabled st2 = false
     /\ snd (step toLowerCase st1 (SaveFailed message)) = [Toast message error])
    /\ (st1 = st \/ st1 = withSaveDisabled st true)
    /\ step toLowerCase st (SaveFailed message)
       = (withSaveDisabled st false, [Toast message error]).
Proof.
  intros toLowerCase st message st1 st2.
  assert (H1 : st1 = st \/ st1 = withSaveDisabled st true).
  { subst st1. cbn [step]. destruct (markSaveBtnDisabled st); [left; reflexivity |].
    destruct (saveMarkAttendance_cases st) as [E | (sid & d & ses & _ & E)];
      rewrite E; auto. }
  split; [| split; [exact H1 | reflexivity]].
  subst st2. cbn [step onSaveFailed fst snd].
  destruct H1 as [-> | ->]; conjuncts; reflexivity.
Qed.

End MarkFacts.

(** ** The list views *)
Module ListViewFacts.
Import Effects ListView.

(** [totalPagesOf] is the ceiling of the quotient, and 1 for an empty
    list. *)
Lemma totalPagesOf_ceil (total perPage T : Z) :
  (0 < perPage)%Z -> (0 < total)%Z ->
  (totalPagesOf total perPage = T
   <-> ((T - 1) * perPage < total <= T * perPage)%Z).
Proof.
  intros Hp Ht. unfold totalPagesOf.
  pose proof (Z.div_mod (- total) perPage ltac:(lia)) as Hdm.
  pose proof (Z.mod_pos_bound (- total) perPage Hp) as Hb.
  set (q := (- total / perPage)%Z) in *.
  assert (Hq : (q < 0)%Z) by nia.
  destruct (Z.eqb_spec (- q) 0) as [E | E]; [lia |].
  split; intros H; nia.
Qed.

Lemma totalPagesOf_zero (perPage : Z) : totalPagesOf 0 perPage = 1%Z.
Proof. destruct perPage; reflexivity. Qed.

Lemma records_load_page (st : Records.State) :
  fst (Records.loadRecords st) = st
  /\ (snd (Records.loadRecords st) = []
      \/ exists sid, snd (Records.loadRecords st)
                     = [GetRecords (Records.query sid st)]).
Proof.
  unfold Records.loadRecords.
  destruct (Records.recordsSection st) as [sid|]; [| auto].
  destruct (Records.recordsDate st); [auto |].
  destruct (Z.eqb sid 0); [auto |].
  split; [reflexivity |]. right. exists sid. reflexivity.
Qed.

(** C8.  In the students view, an action that changes the search text, the
    section filter or the page size sets the page to 1 and then issues the
    request, which carries page 1; a click on a sort button changes the
    sort column, keeps the page and issues the request with that page.  In
    the records view, which has no sort control, an action that changes
    the search text, the section, the date, the session or the page size
    sets the page to 1 before the request: the request, when one is
    issued, carries page 1. *)
Theorem C8_filter_actions_reset_page :
  (forall (st : Students.State) (e : Students.Event),
      Students.isFilterEvent e = true ->
      Students.studentsPage (fst (Students.step st e)) = 1%Z
      /\ snd (Students.step st e)
         = [GetStudents (Students.query (fst (Students.step st e)))]
      /\ q_page (Students.query (fst (Students.step st e))) = 1%Z)
  /\ (forall (st : Students.State) (v : jsstring) (sec : option Z) (n : Z),
         Students.studentsSearch (fst (Students.step st (Students.SearchInput v))) = v
         /\ Students.studentsSectionId
              (fst (Students.step st (Students.SectionFilterChange sec))) = sec
         /\ Students.studentsPerPage
              (fst (Students.step st (Students.PerPageChange n))) = n)
  /\ (forall (st : Students.State) (column : jsstring),
         let st' := fst (Students.step st (Students.SortClick column)) in
         Students.studentsPage st' = Students.studentsPage st
         /\ Students.studentsSortBy st' = column
         /\ snd (Students.step st (Students.SortClick column))
            = [GetStudents (Students.query st')]
         /\ q_page (Students.query st') = Students.studentsPage st)
  /\ (forall (st : Records.State) (e : Records.Event),
         Records.isFilterEvent e = true ->
         let st' := fst (Records.step st e) in
         Records.recordsPage st' = 1%Z
         /\ (snd (Records.step st e) = []
             \/ exists sid,
                  snd (Records.step st e) = [GetRecords (Records.query sid st')]
                  /\ q_page (Records.query sid st') = 1%Z)).
Proof.
  conjuncts.
  - intros st e He. destruct e; try discriminate; cbn; auto.
  - intros st v sec n. cbn. auto.
  - intros st column. cbn. auto.
  - intros st e He st'. subst st'.
    destruct e; try discriminate; cbn [Records.step];
      match goal with
      | |- context [Records.loadRecords ?s] =>
          destruct (records_load_page s) as [Hst [Hno | (sid & Hreq)]];
          rewrite Hst; (split; [reflexivity |]);
          [left; exact Hno | right; exists sid; split; [exact Hreq | reflexivity]]
      end.
Qed.

Lemma C8_filter_actions_reset_page_witness :
  Students.isFilterEvent (Students.PerPageChange 50) = true
  /\ Students.studentsPage
       (fst (Students.step
               {| Students.studentsPage := 3; Students.studentsPerPage := 10;
                  Students.studentsTotal := 40;
                  Students.studentsSectionId := None;
                  Students.studentsSearch := [];
                  Students.studentsSortBy := str "name";
                  Students.studentsPagination := Some 4%Z |}
               (Students.PerPageChange 50))) = 1%Z.
Proof.
  split; [reflexivity |].
  apply (proj1 C8_filter_actions_reset_page
           {| Students.studentsPage := 3; Students.studentsPerPage := 10;
              Students.studentsTotal := 40;
              Students.studentsSectionId := None;
              Students.studentsSearch := [];
              Students.studentsSortBy := str "name";
              Students.studentsPagination := Some 4%Z |}
           (Students.PerPageChange 50)).
  reflexivity.
Defined.

(** C9.  The Previous and Next buttons hold the [totalPages] of the answer
    that rendered them.  With the buttons rendered for [totalPages] pages,
    Previous on page 1 and Next on page [totalPages] leave the whole state
    of the view as it is and only issue the request for that state again
    (the records view issues it as [loadRecords] does, that is, not without
    a section and a date).  The buttons are rendered by the answer to a
    request, for more than one page, and [totalPages] then is the ceiling
    of total / per_page, so right after that answer Next on the last page
    changes nothing.  In any state Next leaves the state as it is exactly
    when the page is at least the [totalPages] the buttons hold, and
    Previous exactly when the page is at most 1: what counts for Next is
    the number held by the buttons, not the ceiling of total / per_page
    for the page size of the moment. *)
Theorem C9_prev_next_at_boundary :
  (forall (st : Students.State) (totalPages : Z),
      Students.studentsPagination st = Some totalPages ->
      (Students.studentsPage st = 1%Z ->
       Students.step st Students.PrevClick
       = (st, [GetStudents (Students.query st)]))
      /\ (Students.studentsPage st = totalPages ->
          Students.step st Students.NextClick
          = (st, [GetStudents (Students.query st)])))
  /\ (forall st : Students.State,
         let st' := fst (Students.step st Students.SectionsOk) in
         (forall totalPages,
             Students.studentsPagination st' = Some totalPages ->
             totalPages = totalPagesOf (Students.studentsTotal st')
                            (Students.studentsPerPage st')
             /\ (1 < totalPages)%Z)
         /\ (Students.studentsPage st'
             = totalPagesOf (Students.studentsTotal st')
                 (Students.studentsPerPage st') ->
             fst (Students.step st' Students.NextClick) = st')
         /\ (Students.studentsPage st' = 1%Z ->
             fst (Students.step st' Students.PrevClick) = st'))
  /\ (forall (st : Records.State) (totalPages : Z),
         Records.recordsPagination st = Some totalPages ->
         (Records.recordsPage st = 1%Z ->
          Records.step st Records.PrevClick = Records.loadRecords st
          /\ fst (Records.step st Records.PrevClick) = st)
         /\ (Records.recordsPage st = totalPages ->
             Records.step st Records.NextClick = Records.loadRecords st
             /\ fst (Records.step st Records.NextClick) = st))
  /\ (forall (st : Records.State) (total : option Z),
         let st' := fst (Records.step st (Records.RecordsOk total)) in
         let n := if truthyNum total
                  then match total with Some t => t | None => 0%Z end
                  else 0%Z in
         (forall totalPages,
             Records.recordsPagination st' = Some totalPages ->
             totalPages = totalPagesOf n (Records.recordsPerPage st')
             /\ (1 < totalPages)%Z)
         /\ (Records.recordsPage st'
             = totalPagesOf n (Records.recordsPerPage st') ->
             fst (Records.step st' Records.NextClick) = st')
         /\ (Records.recordsPage st' = 1%Z ->
             fst (Records.step st' Records.PrevClick) = st'))
  /\ (forall total perPage T : Z,
         (0 < perPage)%Z -> (0 < total)%Z ->
         (totalPagesOf total perPage = T
          <-> ((T - 1) * perPage < total <= T * perPage)%Z))
  /\ (forall (st : Students.State) (totalPages : Z),
         Students.studentsPagination st = Some totalPages ->
         (fst (Students.step st Students.NextClick) = st
          <-> (totalPages <= Students.studentsPage st)%Z)
         /\ (fst (Students.step st Students.PrevClick) = st
             <-> (Students.studentsPage st <= 1)%Z))
  /\ (forall (st : Records.State) (totalPages : Z),
         Records.recordsPagination st = Some totalPages ->
         (fst (Records.step st Records.NextClick) = st
          <-> (totalPages <= Records.recordsPage st)%Z)
         /\ (fst (Records.step st Records.PrevClick) = st
             <-> (Records.recordsPage st <= 1)%Z)).
Proof.
  conjuncts;
    [ | | | | |
      intros st T HT; cbn [Students.step]; rewrite HT;
      split;
      [ destruct (Z.ltb_spec (Students.studentsPage st) T) as [Hlt | Hge]
      | destruct (Z.ltb_spec 1 (Students.studentsPage st)) as [Hlt | Hge] ];
      cbn [fst Students.loadStudentsList];
      (split; [intros H | intros H; try reflexivity; lia]; try lia;
       apply (f_equal Students.studentsPage) in H; cbn in H; lia)
    | intros st T HT; cbn [Records.step]; rewrite HT;
      split;
      [ destruct (Z.ltb_spec (Records.recordsPage st) T) as [Hlt | Hge]
      | destruct (Z.ltb_spec 1 (Records.recordsPage st)) as [Hlt | Hge] ];
      match goal with
      | |- context [Records.loadRecords ?x] =>
          rewrite (proj1 (records_load_page x))
      end;
      (split; [intros H | intros H; try reflexivity; lia]; try lia;
       apply (f_equal Records.recordsPage) in H; cbn in H; lia) ].
  - intros st T HT. split; intros Hp; cbn [Students.step]; rewrite HT.
    + rewrite Hp. reflexivity.
    + rewrite Hp, Z.ltb_irrefl. reflexivity.
  - intros st st'. subst st'. cbn [Students.step fst].
    set (T := totalPagesOf (Students.studentsTotal st) (Students.studentsPerPage st)).
    cbn [Students.studentsPagination Students.studentsTotal
         Students.studentsPerPage Students.studentsPage]. fold T.
    conjuncts.
    + intros T' H. destruct (Z.ltb_spec 1 T); [| discriminate].
      injection H as <-. auto.
    + intros Hp. destruct (1 <? T)%Z; [| reflexivity].
      rewrite Hp, Z.ltb_irrefl. reflexivity.
    + intros Hp. destruct (1 <? T)%Z; [| reflexivity].
      rewrite Hp. reflexivity.
  - intros st T HT. split; intros Hp; cbn [Records.step]; rewrite HT.
    + rewrite Hp. cbn. split; [reflexivity | apply records_load_page].
    + rewrite Hp, Z.ltb_irrefl. split; [reflexivity | apply records_load_page].
  - intros st total st' n. subst st'. cbn [Records.step fst]. fold n.
    set (T := totalPagesOf n (Records.recordsPerPage st)).
    cbn [Records.recordsPagination Records.recordsPerPage Records.recordsPage].
    fold T. conjuncts.
    + intros T' H. destruct (Z.ltb_spec 1 T); [| discriminate].
      injection H as <-. auto.
    + intros Hp. destruct (1 <? T)%Z; [| reflexivity].
      rewrite Hp, Z.ltb_irrefl. apply records_load_page.
    + intros Hp. destruct (1 <? T)%Z; [| reflexivity].
      rewrite Hp. cbn. apply records_load_page.
  - apply totalPagesOf_ceil.
Qed.

Lemma C9_prev_next_at_boundary_witness :
  Students.studentsPagination
    {| Students.studentsPage := 4; Students.studentsPerPage := 10;
       Students.studentsTotal := 40; Students.studentsSectionId := None;
       Students.studentsSearch := []; Students.studentsSortBy := str "name";
       Students.studentsPagination := Some 4%Z |} = Some 4%Z
  /\ totalPagesOf 40 10 = 4%Z
  /\ Students.step
       {| Students.studentsPage := 4; Students.studentsPerPage := 10;
          Students.studentsTotal := 40; Students.studentsSectionId := None;
          Students.studentsSearch := []; Students.studentsSortBy := str "name";
          Students.studentsPagination := Some 4%Z |}
       Students.NextClick
     = ({| Students.studentsPage := 4; Students.studentsPerPage := 10;
           Students.studentsTotal := 40; Students.studentsSectionId := None;
           Students.studentsSearch := []; Students.studentsSortBy := str "name";
           Students.studentsPagination := Some 4%Z |},
        [GetStudents
           {| q_page := 4; q_per_page := 10; q_sort_by := Some (str "name");
              q_section_id := None; q_date := None; q_session := None;
              q_search := None |}]).
Proof.
  split; [reflexivity |]. split; [reflexivity |].
  apply (proj2 (proj1 C9_prev_next_at_boundary
           {| Students.studentsPage := 4; Students.studentsPerPage := 10;
              Students.studentsTotal := 40; Students.studentsSectionId := None;
              Students.studentsSearch := []; Students.studentsSortBy := str "name";
              Students.studentsPagination := Some 4%Z |} 4%Z eq_refl)).
  reflexivity.
Defined.

(** C9 as stated fails.  The students view shows 40 students, 10 per
    page: the buttons are rendered for 4 pages.  The page size is changed
    to 50, which sets the page to 1 and issues the request; until its
    answer renders the pagination again (and for good when the request
    fails) the old buttons stay.  The page now is 1, the ceiling of 40 / 50,
    yet Next compares it with the 4 the buttons hold and moves to page 2.
    The same in the records view, the request having failed. *)
Lemma C9_counterexample :
  (let st := ListViewAux.runStudents Students.initial
               [ Students.PerPageChange 10; Students.StudentsOk (Some 40%Z);
                 Students.SectionsOk; Students.PerPageChange 50;
                 Students.Failed ] in
   Students.studentsPage st
   = totalPagesOf (Students.studentsTotal st) (Students.studentsPerPage st)
   /\ Students.studentsPage st = 1%Z
   /\ Students.studentsPagination st = Some 4%Z
   /\ Students.studentsPage (fst (Students.step st Students.NextClick)) = 2%Z
   /\ snd (Students.step st Students.NextClick)
      = [GetStudents
           {| q_page := 2; q_per_page := 50;
              q_sort_by := Some (str "roll_no");
              q_section_id := None; q_date := None; q_session := None;
              q_search := None |}])
  /\ (let st := ListViewAux.runRecords
                  {| Records.recordsPage := 1; Records.recordsPerPage := 10;
                     Records.recordsSearch := [];
                     Records.recordsSection := Some 1%Z;
                     Records.recordsDate := str "2024-01-01";
                     Records.recordsSession := str "morning";
                     Records.recordsPagination := None |}
                  [ Records.LoadClick; Records.RecordsOk (Some 40%Z);
                    Records.PerPageChange 50; Records.Failed ] in
      Records.recordsPage st = totalPagesOf 40 (Records.recordsPerPage st)
      /\ Records.recordsPage st = 1%Z
      /\ Records.recordsPagination st = Some 4%Z
      /\ Records.recordsPage (fst (Records.step st Records.NextClick)) = 2%Z).
Proof. split; vm_compute; conjuncts; reflexivity. Qed.

End ListViewFacts.

Unset Implicit Arguments.

(** ** More about the chat formatter *)
Module ChatExtra.
Import Regex RegexFacts JsStringFacts Chat ChatSpec ChatAux ChatFacts.

(** *** Order of the items *)

Lemma parseLines_fuel (n : nat) :
  forall m lines, length lines <= n -> length lines <= m ->
    parseLines n lines = parseLines m lines.
Proof.
  induction n as [|n IH]; intros m lines Hn Hm.
  - destruct lines; [destruct m; reflexivity | simpl in Hn; lia].
  - destruct lines as [|l rest]; [destruct m; reflexivity |].
    destruct m as [|m]; [simpl in Hm; lia |].
    cbn [parseLines]. destruct (isTableRow l) eqn:E.
    + pose proof (takeRows_length rest) as Hl.
      cbn [takeRows]. rewrite E.
      destruct (takeRows rest) as [rows rest']. cbn [snd] in Hl.
      f_equal. apply IH; simpl in Hn, Hm; lia.
    + f_equal. apply IH; simpl in Hn, Hm; lia.
Qed.

Lemma scanAll_parse (lines : list jsstring) :
  scanAll lines = Some (map renderItem (parseLines (length lines) lines)).
Proof. unfold scanAll. rewrite scanLines_parse by lia. reflexivity. Qed.

(** The inner loop takes a run of rows whole when the next line is not a
    row. *)
Lemma takeRows_block (rows rest : list jsstring) :
  Forall (fun l => isTableRow l = true) rows ->
  match rest with [] => True | l :: _ => isTableRow l = false end ->
  takeRows (rows ++ rest) = (rows, rest).
Proof.
  intros Hrows Hrest. induction Hrows as [|r rows Hr _ IH]; simpl.
  - destruct rest as [|l rest]; [reflexivity |]. simpl. rewrite Hrest. reflexivity.
  - rewrite Hr, IH. reflexivity.
Qed.

Lemma parseLines_texts (texts lines : list jsstring) :
  Forall (fun l => isTableRow l = false) texts ->
  parseLines (length (texts ++ lines)) (texts ++ lines)
  = map TextSegment texts ++ parseLines (length lines) lines.
Proof.
  induction 1 as [|t texts Ht _ IH]; [reflexivity |].
  cbn [app length]. rewrite parseLines_text_head by exact Ht.
  cbn [map app]. f_equal. exact IH.
Qed.

Lemma parseLines_block (rows rest : list jsstring) :
  rows <> [] ->
  Forall (fun l => isTableRow l = true) rows ->
  match rest with [] => True | l :: _ => isTableRow l = false end ->
  parseLines (length (rows ++ rest)) (rows ++ rest)
  = Table (parseBlock rows) :: parseLines (length rest) rest.
Proof.
  intros Hne Hrows Hrest. destruct rows as [|r rows]; [congruence |].
  inversion Hrows as [|? ? Hr Hrows']; subst.
  cbn [app length]. rewrite parseLines_row_head by exact Hr.
  rewrite (takeRows_block rows rest Hrows' Hrest). cbn [fst snd].
  f_equal. apply parseLines_fuel; rewrite ?length_app; lia.
Qed.

(** X1.  Lines that are not rows, then a run of rows, then what follows
    (nothing, or lines that begin with a line that is not a row): the loop
    puts out the first lines unchanged, then one table for the whole run,
    then the output for what follows, in this order. *)
Theorem scan_text_table_rest (texts rows rest : list jsstring) :
  Forall (fun l => isTableRow l = false) texts ->
  rows <> [] ->
  Forall (fun l => isTableRow l = true) rows ->
  match rest with [] => True | l :: _ => isTableRow l = false end ->
  exists outRest,
    scanAll rest = Some outRest
    /\ scanAll (texts ++ rows ++ rest)
       = Some (texts ++ tableHtml rows :: outRest).
Proof.
  intros Htexts Hne Hrows Hrest.
  exists (map renderItem (parseLines (length rest) rest)).
  split; [apply scanAll_parse |].
  rewrite scanAll_parse, (parseLines_texts _ _ Htexts).
  rewrite (parseLines_block _ _ Hne Hrows Hrest).
  rewrite map_app, map_renderItem_text. cbn [map renderItem].
  rewrite tableHtml_render. reflexivity.
Qed.

Lemma scan_text_table_rest_witness :
  Forall (fun l => isTableRow l = false) [str "Absent today:"]
  /\ scanAll ([str "Absent today:"] ++ [str "|Roll|Name|"; str "|1|Ann|"]
                ++ [str "2 students"])
     = Some ([str "Absent today:"]
               ++ tableHtml [str "|Roll|Name|"; str "|1|Ann|"]
               :: [str "2 students"]).
Proof.
  split; [repeat constructor |].
  destruct (scan_text_table_rest
              [str "Absent today:"] [str "|Roll|Name|"; str "|1|Ann|"]
              [str "2 students"]) as (outRest & H1 & H2).
  - repeat constructor.
  - discriminate.
  - repeat constructor.
  - reflexivity.
  - vm_compute in H1. injection H1 as <-. exact H2.
Defined.


(** *** Line breaks stand between items only *)


Lemma dropWhile_suffix (p : char -> bool) (s : jsstring) :
  exists pre, s = pre ++ dropWhile p s /\ forallb p pre = true.
Proof.
  induction s as [|c s (pre & E & Hp)]; [exists []; auto |].
  simpl. destruct (p c) eqn:Ec.
  - exists (c :: pre). simpl. rewrite Ec, Hp. split; [f_equal; exact E | reflexivity].
  - exists []. auto.
Qed.

Lemma forallb_dropWhile (p q : char -> bool) (s : jsstring) :
  forallb p s = true -> forallb p (dropWhile q s) = true.
Proof.
  intros H. destruct (dropWhile_suffix q s) as (pre & E & _).
  rewrite E, forallb_app in H. apply andb_true_iff in H. tauto.
Qed.

Lemma forallb_rev (p : char -> bool) (s : jsstring) :
  forallb p (rev s) = forallb p s.
Proof.
  induction s as [|c s IH]; [reflexivity |].
  simpl. rewrite forallb_app, IH. simpl. rewrite andb_true_r. apply andb_comm.
Qed.

Lemma forallb_trim (p : char -> bool) (s : jsstring) :
  forallb p s = true -> forallb p (trim s) = true.
Proof.
  intros H. unfold trim. rewrite forallb_rev.
  apply forallb_dropWhile. rewrite forallb_rev.
  apply forallb_dropWhile. exact H.
Qed.








(** *** Lines *)

Lemma parseLines_length (fuel : nat) :
  forall lines, length (parseLines fuel lines) <= length lines.
Proof.
  induction fuel as [|fuel IH]; intros lines.
  - destruct lines; simpl; lia.
  - destruct lines as [|l rest]; [simpl; lia |].
    cbn [parseLines]. destruct (isTableRow l) eqn:E.
    + pose proof (takeRows_length rest) as Hl.
      cbn [takeRows]. rewrite E.
      destruct (takeRows rest) as [rows rest']. cbn [snd] in Hl.
      cbn [length]. specialize (IH rest'). lia.
    + cbn [length]. specialize (IH rest). lia.
Qed.

(** X3.  Escaping and the bold substitution neither add nor remove a
    line: the loop scans as many lines as the message has, and puts out at
    most one item per line. *)
Theorem lines_kept (raw : jsstring) :
  length (split LF (prepared (Some raw))) = length (split LF raw)
  /\ length (parse (prepared (Some raw))) <= length (split LF raw).
Proof.
  assert (H : length (split LF (prepared (Some raw))) = length (split LF raw)).
  { rewrite <- (length_map isTableRow (split LF raw)).
    rewrite <- prepared_lines. apply eq_sym, length_map. }
  split; [exact H |]. rewrite <- H. apply parseLines_length.
Qed.


(** *** Cells *)

Lemma split_length (sep : char) (s : jsstring) :
  length (split sep s) = S (length (filter (fun c => N.eqb c sep) s)).
Proof.
  induction s as [|c s IH]; [reflexivity |].
  rewrite split_cons. simpl filter. destruct (N.eqb c sep); simpl.
  - rewrite IH. reflexivity.
  - rewrite <- IH. rewrite (split_hd_tl sep s) at 2. reflexivity.
Qed.

Lemma removelast_length (A : Type) (l : list A) :
  length (removelast l) = length l - 1.
Proof.
  induction l as [|x l IH]; [reflexivity |].
  destruct l as [|y l]; [reflexivity |].
  change (removelast (x :: y :: l)) with (x :: removelast (y :: l)).
  cbn [length] in *. lia.
Qed.

Lemma sliceInner_length (A : Type) (l : list A) :
  length (sliceInner l) = length l - 2.
Proof.
  unfold sliceInner. rewrite removelast_length.
  destruct l; simpl; lia.
Qed.

Lemma dropWhile_head_false (p : char -> bool) (s : jsstring) (c : char)
      (r : jsstring) :
  dropWhile p s = c :: r -> p c = false.
Proof.
  induction s as [|x s IH]; simpl; [discriminate |].
  destruct (p x) eqn:E; [exact IH |].
  intros H. injection H as <- _. exact E.
Qed.

Lemma trimmed_fixed (t : jsstring) : trimmed t = true -> trim t = t.
Proof.
  destruct t as [|c rest]; [reflexivity |]. simpl.
  intros H. apply andb_true_iff in H. destruct H as [Hc Hl].
  apply negb_true_iff in Hc, Hl.
  destruct rest as [|x rest _] using rev_ind.
  - unfold trim. simpl. rewrite Hc. simpl. rewrite Hc. reflexivity.
  - rewrite last_last in Hl. apply trim_framed; assumption.
Qed.

Lemma trim_trimmed (s : jsstring) : trimmed (trim s) = true.
Proof.
  unfold trim. set (d := dropWhile isWhiteSpace s).
  destruct (dropWhile_suffix isWhiteSpace (rev d)) as (pre & E & _).
  set (e := dropWhile isWhiteSpace (rev d)) in *.
  assert (Ed : d = rev e ++ rev pre)
    by (rewrite <- rev_app_distr, <- E, rev_involutive; reflexivity).
  destruct e as [|y e'] eqn:Ee; [reflexivity |].
  assert (Hy : isWhiteSpace y = false)
    by (apply (dropWhile_head_false isWhiteSpace (rev d) y e' Ee)).
  cbn [rev]. destruct (rev e') as [|c r] eqn:Er.
  - simpl. rewrite Hy. reflexivity.
  - cbn [app trimmed]. rewrite last_last, Hy.
    assert (Hc : isWhiteSpace c = false).
    { cbn [rev] in Ed. rewrite Er in Ed. cbn [app] in Ed.
      apply (dropWhile_head_false isWhiteSpace s c ((r ++ [y]) ++ rev pre)).
      exact Ed. }
    rewrite Hc. reflexivity.
Qed.

(** X4.  The cells of a row are the texts between its pipes, one fewer than
    the pipes, each without a pipe and without white space at either end.
    Rows of different lengths keep their own number of cells. *)
Theorem rowCells_shape (row : jsstring) :
  length (rowCells row) = length (filter isPipe row) - 1
  /\ Forall (fun cell => noPipe cell = true /\ trimmed cell = true
                         /\ trim cell = cell)
       (rowCells row).
Proof.
  split.
  - unfold rowCells. rewrite length_map, sliceInner_length, split_length.
    set (n := length (filter isPipe row)).
    change (S n - 2 = n - 1). lia.
  - unfold rowCells. apply Forall_map, Forall_sliceInner.
    eapply Forall_impl; [| apply (split_no_sep PIPE row)].
    intros a Ha. split; [| split].
    + apply forallb_trim, Ha.
    + apply trim_trimmed.
    + apply trimmed_fixed, trim_trimmed.
Qed.

(** *** Escaping *)

Lemma escapeChar_special (c : char) :
  isSpecial c = true ->
  exists k rest, escapeChar c = AMP :: k :: rest
                 /\ (c = AMP /\ k = 97%N \/ c = NBSP /\ k = 110%N
                     \/ c = LT /\ k = 108%N \/ c = GT /\ k = 103%N).
Proof.
  unfold isSpecial, escapeChar. intros H.
  destruct (N.eqb c AMP) eqn:E1;
    [apply N.eqb_eq in E1; do 2 eexists; split; [reflexivity | auto] |].
  destruct (N.eqb c NBSP) eqn:E2;
    [apply N.eqb_eq in E2; do 2 eexists; split; [reflexivity | auto] |].
  destruct (N.eqb c LT) eqn:E3;
    [apply N.eqb_eq in E3; do 2 eexists; split; [reflexivity | auto 6] |].
  destruct (N.eqb c GT) eqn:E4;
    [apply N.eqb_eq in E4; do 2 eexists; split; [reflexivity | auto 6] |].
  discriminate.
Qed.

Lemma escapeChar_other (c : char) :
  isSpecial c = false -> escapeChar c = [c] /\ c <> AMP.
Proof.
  unfold isSpecial, escapeChar. intros H.
  destruct (N.eqb c AMP) eqn:E1; [discriminate |].
  destruct (N.eqb c NBSP); [discriminate |].
  destruct (N.eqb c LT); [discriminate |].
  destruct (N.eqb c GT); [discriminate |].
  split; [reflexivity |]. apply N.eqb_neq, E1.
Qed.

(** The escape of the first character can be read off the escaped text. *)
Lemma escapeChar_head (c d : char) (a b : jsstring) :
  escapeChar c ++ a = escapeChar d ++ b -> c = d.
Proof.
  intros E.
  destruct (isSpecial c) eqn:Hc, (isSpecial d) eqn:Hd.
  - destruct (escapeChar_special c Hc) as (k & r & Ec & Kc).
    destruct (escapeChar_special d Hd) as (k' & r' & Ed & Kd).
    rewrite Ec, Ed in E. simpl in E. injection E as Ek _. subst k'.
    destruct Kc as [[-> ->] | [[-> ->] | [[-> ->] | [-> ->]]]];
      destruct Kd as [[-> Hk] | [[-> Hk] | [[-> Hk] | [-> Hk]]]];
      try reflexivity; discriminate.
  - destruct (escapeChar_special c Hc) as (k & r & Ec & _).
    destruct (escapeChar_other d Hd) as [Ed Hne].
    rewrite Ec, Ed in E. simpl in E. injection E as Ek _. congruence.
  - destruct (escapeChar_other c Hc) as [Ec Hne].
    destruct (escapeChar_special d Hd) as (k & r & Ed & _).
    rewrite Ec, Ed in E. simpl in E. injection E as Ek _. congruence.
  - destruct (escapeChar_other c Hc) as [Ec _].
    destruct (escapeChar_other d Hd) as [Ed _].
    rewrite Ec, Ed in E. simpl in E. injection E as Ek _. exact Ek.
Qed.

Lemma escapeChar_not_nil (c : char) : escapeChar c <> [].
Proof.
  destruct (isSpecial c) eqn:Hc.
  - destruct (escapeChar_special c Hc) as (k & r & -> & _). discriminate.
  - destruct (escapeChar_other c Hc) as [-> _]. discriminate.
Qed.

Lemma escapeHtml_injective (s : jsstring) :
  forall t, escapeHtml (Some s) = escapeHtml (Some t) -> s = t.
Proof.
  induction s as [|c s IH]; intros [|d t] E; simpl in E.
  - reflexivity.
  - exfalso. destruct (escapeChar d) eqn:Ed; [apply (escapeChar_not_nil d Ed) | discriminate].
  - exfalso. destruct (escapeChar c) eqn:Ec; [apply (escapeChar_not_nil c Ec) | discriminate].
  - pose proof (escapeChar_head c d _ _ E) as ->.
    apply app_inv_head in E. f_equal. apply IH. exact E.
Qed.

Lemma escapeHtml_length (s : jsstring) :
  length s <= length (escapeHtml (Some s)).
Proof.
  induction s as [|c s IH]; [simpl; lia |].
  cbn [escapeHtml flat_map] in *. rewrite length_app. cbn [length].
  pose proof (escapeChar_not_nil c) as Hne.
  destruct (escapeChar c); [congruence | simpl; lia].
Qed.

Lemma escapeHtml_fixed (s : jsstring) :
  escapeHtml (Some s) = s <-> forallb (fun c => negb (isSpecial c)) s = true.
Proof.
  induction s as [|c s IH]; [simpl; tauto |].
  cbn [escapeHtml flat_map forallb]. rewrite andb_true_iff, <- IH. split.
  - intros E. destruct (isSpecial c) eqn:Hc.
    + exfalso. destruct (escapeChar_special c Hc) as (k & r & Ec & _).
      apply (f_equal (@length char)) in E.
      rewrite Ec, length_app in E. cbn [length] in E.
      pose proof (escapeHtml_length s) as Hl. cbn [escapeHtml] in Hl. lia.
    + destruct (escapeChar_other c Hc) as [Ec _]. rewrite Ec in E.
      simpl in E. injection E as E. auto.
  - intros [Hc E]. apply negb_true_iff in Hc.
    destruct (escapeChar_other c Hc) as [-> _]. simpl.
    f_equal. exact E.
Qed.

(** X5.  Escaping loses nothing: two different texts never have the same
    escaped text; and a text is its own escape exactly when it holds none
    of the four characters [&], [<], [>] and the no-break space. *)
Theorem escapeHtml_faithful :
  (forall s t : jsstring, escapeHtml (Some s) = escapeHtml (Some t) -> s = t)
  /\ (forall s : jsstring,
         escapeHtml (Some s) = s
         <-> forallb (fun c => negb (isSpecial c)) s = true).
Proof. split; [apply escapeHtml_injective | apply escapeHtml_fixed]. Qed.

Lemma escapeHtml_faithful_witness :
  escapeHtml (Some (str "a<b")) = escapeHtml (Some (str "a<b"))
  /\ str "a<b" = str "a<b".
Proof.
  split; [reflexivity |].
  apply (proj1 escapeHtml_faithful (str "a<b") (str "a<b")). reflexivity.
Defined.

(** *** Bold markers that are left alone *)

Lemma matchBoldAt_needs_pair (c1 c2 : char) (rest : jsstring) :
  N.eqb c1 STAR && N.eqb c2 STAR = false ->
  matchBoldAt (c1 :: c2 :: rest) = None.
Proof. intros H. unfold matchBoldAt. rewrite H. reflexivity. Qed.

Lemma replaceBold_no_pair (s : jsstring) :
  noStarPair s = true -> replaceBold s = s.
Proof.
  induction s as [|c1 s IH]; [reflexivity |].
  destruct s as [|c2 rest].
  - intros _. reflexivity.
  - cbn [noStarPair]. intros H. apply andb_true_iff in H. destruct H as [Hp Hs].
    apply negb_true_iff in Hp.
    rewrite replaceBold_step by (apply matchBoldAt_needs_pair, Hp).
    f_equal. apply IH, Hs.
Qed.

Lemma span_stars (n : nat) : span notStar (repeat STAR n) = ([], repeat STAR n).
Proof. destruct n; reflexivity. Qed.

Lemma matchBoldAt_stars (n : nat) : matchBoldAt (repeat STAR n) = None.
Proof.
  destruct n as [|[|n]]; try reflexivity.
  cbn [repeat]. unfold matchBoldAt. rewrite N.eqb_refl. cbn [andb].
  rewrite span_stars. destruct (repeat STAR n) as [|? [|? ?]]; reflexivity.
Qed.

Lemma replaceBold_stars (n : nat) : replaceBold (repeat STAR n) = repeat STAR n.
Proof.
  induction n as [|n IH]; [reflexivity |].
  cbn [repeat]. rewrite replaceBold_step by (apply (matchBoldAt_stars (S n))).
  f_equal. exact IH.
Qed.

(** X6.  The bold substitution leaves alone what is not a pair of double
    stars around text: a text in which no two stars stand side by side is
    unchanged, and so is a run of stars with nothing between them. *)
Theorem replaceBold_leaves_alone :
  (forall s : jsstring, noStarPair s = true -> replaceBold s = s)
  /\ (forall n : nat, replaceBold (repeat STAR n) = repeat STAR n).
Proof. split; [apply replaceBold_no_pair | apply replaceBold_stars]. Qed.

Lemma replaceBold_leaves_alone_witness :
  noStarPair (str "2 * 3 * 4") = true
  /\ replaceBold (str "2 * 3 * 4") = str "2 * 3 * 4".
Proof.
  split; [reflexivity |].
  apply (proj1 replaceBold_leaves_alone (str "2 * 3 * 4")). reflexivity.
Defined.

End ChatExtra.

(** ** More about the mark-attendance page *)
Module MarkExtra.
Import Effects Mark MarkAux MarkFacts.

(** *** Loading *)

Lemma entryOfResponse_status (s : ResponseEntry) :
  strEqb (status (entryOfResponse s)) PRESENT = negb (loadsNonPresent s).
Proof.
  unfold entryOfResponse, loadsNonPresent. cbn [status].
  destruct (r_status s) as [[|c v]|]; try reflexivity.
  rewrite negb_involutive. reflexivity.
Qed.

(** X7.  After a roster answer the roster in memory is the students of
    the answer, one entry for each in the answer's order, whatever it held
    before: each entry has the id, the roll number and the name of its
    student, and as status the student's status, or [present] when the
    status is missing or empty.  The editing flag and the warning are on
    exactly when some student of the answer has a status other than
    [present]; the save button is enabled. *)
Theorem load_sets_editing_mode (toLowerCase : jsstring -> jsstring)
        (students : list ResponseEntry) (st : State) :
  let st' := onLoadOk toLowerCase students st in
  Forall2 (fun (e : RosterEntry) (s : ResponseEntry) =>
             student_id e = r_student_id s
             /\ roll_no e = r_roll_no s
             /\ name e = r_name s
             /\ (r_status s = None \/ r_status s = Some [] ->
                 status e = PRESENT)
             /\ (forall v, r_status s = Some v -> v <> [] -> status e = v))
    (markAttendanceStudents st') students
  /\ (markEditingMode st' = true <->
      exists s v, In s students /\ r_status s = Some v
                  /\ v <> [] /\ v <> PRESENT)
  /\ markWarningShown st' = markEditingMode st'
  /\ markSaveBtnDisabled st' = false.
Proof.
  intros st'. subst st'. unfold onLoadOk. cbn. conjuncts.
  - induction students as [|s students IH]; cbn [map]; constructor;
      [| exact IH].
    unfold entryOfResponse. cbn [student_id roll_no name status]. conjuncts.
    + reflexivity.
    + reflexivity.
    + reflexivity.
    + intros [H | H]; rewrite H; reflexivity.
    + intros v H Hv. rewrite H. destruct v; [congruence | reflexivity].
  - rewrite existsb_exists. split.
    + intros (e & Hin & He). apply in_map_iff in Hin.
      destruct Hin as (s & <- & Hin).
      rewrite entryOfResponse_status, negb_involutive in He.
      unfold loadsNonPresent in He.
      destruct (r_status s) as [[|c v]|] eqn:Es; try discriminate.
      exists s, (c :: v). repeat split; auto; [discriminate |].
      intros Hp. apply strEqb_eq in Hp.
      change (strEqb (c :: v) PRESENT = true) in Hp.
      rewrite Hp in He. discriminate.
    + intros (s & v & Hin & Es & Hne & Hnp).
      exists (entryOfResponse s). split; [apply in_map, Hin |].
      rewrite entryOfResponse_status, negb_involutive.
      unfold loadsNonPresent. rewrite Es.
      destruct v as [|c v]; [congruence |].
      destruct (strEqb (c :: v) PRESENT) eqn:E; [| reflexivity].
      apply strEqb_eq in E. exfalso. apply Hnp. exact E.
  - reflexivity.
  - reflexivity.
Qed.

Lemma load_sets_editing_mode_witness :
  In {| r_student_id := 7; r_roll_no := str "R7"; r_name := str "Ann";
        r_status := Some ABSENT |}
     [ {| r_student_id := 7; r_roll_no := str "R7"; r_name := str "Ann";
          r_status := Some ABSENT |};
       {| r_student_id := 8; r_roll_no := str "R8"; r_name := str "Bob";
          r_status := None |} ]
  /\ markEditingMode
       (onLoadOk (fun s => s)
          [ {| r_student_id := 7; r_roll_no := str "R7"; r_name := str "Ann";
               r_status := Some ABSENT |};
            {| r_student_id := 8; r_roll_no := str "R8"; r_name := str "Bob";
               r_status := None |} ]
          (initial (str "2024-01-01"))) = true.
Proof.
  assert (Hin : In {| r_student_id := 7; r_roll_no := str "R7";
                      r_name := str "Ann"; r_status := Some ABSENT |}
                   [ {| r_student_id := 7; r_roll_no := str "R7";
                        r_name := str "Ann"; r_status := Some ABSENT |};
                     {| r_student_id := 8; r_roll_no := str "R8";
                        r_name := str "Bob"; r_status := None |} ])
    by (left; reflexivity).
  split; [exact Hin |].
  pose proof (load_sets_editing_mode (fun s => s)
                [ {| r_student_id := 7; r_roll_no := str "R7";
                     r_name := str "Ann"; r_status := Some ABSENT |};
                  {| r_student_id := 8; r_roll_no := str "R8";
                     r_name := str "Bob"; r_status := None |} ]
                (initial (str "2024-01-01"))) as H.
  cbv zeta in H. destruct H as (_ & [_ H] & _).
  apply H. eexists. exists ABSENT.
  split; [exact Hin |]. split; [reflexivity |]. split; discriminate.
Defined.

(** *** Toggling *)

Lemma flipStatus_twice (s : RosterEntry) :
  binaryStatus s = true -> flipStatus (flipStatus s) = s.
Proof.
  unfold binaryStatus, flipStatus, setStatus. destruct s as [i r n stt]. cbn.
  intros H. apply orb_true_iff in H. destruct H as [H | H].
  - rewrite H. cbn. apply strEqb_eq in H. subst. reflexivity.
  - apply strEqb_eq in H. subst. reflexivity.
Qed.

Lemma toggleFirst_twice (id : Z) (roster : list RosterEntry) :
  Forall (fun s => binaryStatus s = true) roster ->
  toggleFirst id (toggleFirst id roster) = roster.
Proof.
  induction 1 as [|s roster Hs _ IH]; [reflexivity |].
  cbn [toggleFirst]. destruct (Z.eqb (student_id s) id) eqn:E.
  - cbn [toggleFirst]. change (student_id (flipStatus s)) with (student_id s).
    rewrite E, flipStatus_twice by exact Hs. reflexivity.
  - cbn [toggleFirst]. rewrite E, IH. reflexivity.
Qed.

Lemma toggleFirst_absent (id : Z) (roster : list RosterEntry) :
  find (fun x => Z.eqb (student_id x) id) roster = None ->
  toggleFirst id roster = roster.
Proof.
  induction roster as [|s roster IH]; [reflexivity |].
  cbn [find toggleFirst]. destruct (Z.eqb (student_id s) id); [discriminate |].
  intros H. rewrite IH by exact H. reflexivity.
Qed.

Lemma toggleRow_roster (k : nat) (st : State) :
  markAttendanceStudents (toggleRow k st)
  = match nth_error (markTbody st) k with
    | Some r => toggleFirst (row_id r) (markAttendanceStudents st)
    | None => markAttendanceStudents st
    end.
Proof.
  unfold toggleRow. destruct (nth_error (markTbody st) k) as [r|]; [| reflexivity].
  destruct (find _ _) eqn:E; [reflexivity |].
  rewrite toggleFirst_absent by exact E. reflexivity.
Qed.

Lemma setRowStatus_ids (v : jsstring) (rows : list Row) :
  forall k, map row_id (setRowStatus k v rows) = map row_id rows.
Proof.
  induction rows as [|r rows IH]; intros k; [destruct k; reflexivity |].
  destruct k; cbn; [reflexivity | rewrite IH; reflexivity].
Qed.

Lemma toggleRow_row_ids (k : nat) (st : State) :
  map row_id (markTbody (toggleRow k st)) = map row_id (markTbody st).
Proof.
  unfold toggleRow. destruct (nth_error (markTbody st) k) as [r|]; [| reflexivity].
  destruct (find _ _); [| reflexivity]. cbn. apply setRowStatus_ids.
Qed.

Lemma toggleRow_row_id (k : nat) (st : State) :
  option_map row_id (nth_error (markTbody (toggleRow k st)) k)
  = option_map row_id (nth_error (markTbody st) k).
Proof.
  rewrite <- !nth_error_map, toggleRow_row_ids. reflexivity.
Qed.

(** X8.  Clicking the status button of a row twice gives the roster back,
    when every status is [present] or [absent]. *)
Theorem toggle_twice_restores (k : nat) (st : State) :
  Forall (fun s => binaryStatus s = true) (markAttendanceStudents st) ->
  markAttendanceStudents (toggleRow k (toggleRow k st))
  = markAttendanceStudents st.
Proof.
  intros H. rewrite toggleRow_roster.
  pose proof (toggleRow_row_id k st) as Hid.
  destruct (nth_error (markTbody (toggleRow k st)) k) as [r'|];
    destruct (nth_error (markTbody st) k) as [r|] eqn:Er;
    cbn in Hid; try discriminate.
  - injection Hid as Hid. rewrite toggleRow_roster, Er, Hid.
    apply toggleFirst_twice, H.
  - rewrite toggleRow_roster, Er. reflexivity.
Qed.

Lemma toggle_twice_restores_witness :
  Forall (fun s => binaryStatus s = true)
    (markAttendanceStudents
       (onLoadOk (fun s => s)
          [ {| r_student_id := 7; r_roll_no := str "R7"; r_name := str "Ann";
               r_status := Some ABSENT |} ]
          (initial (str "2024-01-01"))))
  /\ markAttendanceStudents
       (toggleRow 0 (toggleRow 0
          (onLoadOk (fun s => s)
             [ {| r_student_id := 7; r_roll_no := str "R7"; r_name := str "Ann";
                  r_status := Some ABSENT |} ]
             (initial (str "2024-01-01")))))
     = markAttendanceStudents
         (onLoadOk (fun s => s)
            [ {| r_student_id := 7; r_roll_no := str "R7"; r_name := str "Ann";
                 r_status := Some ABSENT |} ]
            (initial (str "2024-01-01"))).
Proof.
  split; [repeat constructor |].
  apply toggle_twice_restores. repeat constructor.
Defined.


Lemma summaryOf_toggleFirst (id : Z) (roster : list RosterEntry) :
  total (summaryOf (toggleFirst id roster)) = total (summaryOf roster)
  /\ present (summaryOf (toggleFirst id roster))
     = (present (summaryOf roster)
        + match find (fun x => Z.eqb (student_id x) id) roster with
          | Some rec => if strEqb (status rec) PRESENT then -1 else 1
          | None => 0
          end)%Z.
Proof.
  unfold summaryOf. cbn [total present].
  induction roster as [|s roster [IHt IHp]]; [split; reflexivity |].
  cbn [toggleFirst find]. destruct (Z.eqb (student_id s) id).
  - split; [reflexivity |]. cbn [filter].
    unfold flipStatus, setStatus. cbn [status].
    destruct (strEqb (status s) PRESENT) eqn:E.
    + change (strEqb ABSENT PRESENT) with false. cbn [length]. lia.
    + change (strEqb PRESENT PRESENT) with true. cbn [length]. lia.
  - cbn [length filter] in *.
    destruct (strEqb (status s) PRESENT); cbn [length]; lia.
Qed.

(** X9.  Clicking the status button of a displayed row changes the status of
    the first roster entry with the row's id, and the summary follows: the
    total stays, and a student who was present moves from the present count
    to the absent count, any other student the other way. *)
Theorem toggle_moves_one (k : nat) (st : State) (r : Row) (rec : RosterEntry) :
  nth_error (markTbody st) k = Some r ->
  find (fun x => Z.eqb (student_id x) (row_id r)) (markAttendanceStudents st)
  = Some rec ->
  let sm := markSummary (toggleRow k st) in
  let sm0 := summaryOf (markAttendanceStudents st) in
  markAttendanceStudents (toggleRow k st)
  = toggleFirst (row_id r) (markAttendanceStudents st)
  /\ total sm = total sm0
  /\ (status rec = PRESENT ->
      present sm = (present sm0 - 1)%Z /\ absent sm = (absent sm0 + 1)%Z)
  /\ (status rec <> PRESENT ->
      present sm = (present sm0 + 1)%Z /\ absent sm = (absent sm0 - 1)%Z).
Proof.
  intros Hr Hf sm sm0.
  assert (Hro : markAttendanceStudents (toggleRow k st)
                = toggleFirst (row_id r) (markAttendanceStudents st))
    by (rewrite toggleRow_roster, Hr; reflexivity).
  assert (Hsm : sm = summaryOf (toggleFirst (row_id r) (markAttendanceStudents st))).
  { subst sm. unfold toggleRow. rewrite Hr, Hf. reflexivity. }
  destruct (summaryOf_toggleFirst (row_id r) (markAttendanceStudents st))
    as [Ht Hp]. rewrite Hf in Hp. rewrite <- Hsm in Ht, Hp. fold sm0 in Ht, Hp.
  destruct (summaryOf_spec (markAttendanceStudents st)) as (H0 & _).
  destruct (summaryOf_spec (toggleFirst (row_id r) (markAttendanceStudents st)))
    as (H1 & _). cbv zeta in H0, H1. rewrite <- Hsm in H1. fold sm0 in H0.
  conjuncts; [exact Hro | exact Ht | |].
  - intros Hs. apply strEqb_eq in Hs. rewrite Hs in Hp. lia.
  - intros Hs. destruct (strEqb (status rec) PRESENT) eqn:E;
      [apply strEqb_eq in E; contradiction | lia].
Qed.

Lemma toggle_moves_one_witness :
  let st := onLoadOk (fun s => s)
              [ {| r_student_id := 7; r_roll_no := str "R7"; r_name := str "Ann";
                   r_status := None |};
                {| r_student_id := 8; r_roll_no := str "R8"; r_name := str "Bob";
                   r_status := None |} ]
              (initial (str "2024-01-01")) in
  markSummary st = {| total := 2; present := 2; absent := 0 |}
  /\ markSummary (toggleRow 1 st) = {| total := 2; present := 1; absent := 1 |}.
Proof.
  intros st. split; [reflexivity |].
  destruct (toggle_moves_one 1 st
              {| row_id := 8; row_roll_no := str "R8"; row_name := str "Bob";
                 row_status := PRESENT |}
              {| student_id := 8; roll_no := str "R8"; name := str "Bob";
                 status := PRESENT |} eq_refl eq_refl) as (_ & Ht & Hp & _).
  destruct (Hp eq_refl) as [Hp1 Hp2].
  destruct (markSummary (toggleRow 1 st)) as [t p a].
  cbn in Ht, Hp1, Hp2. subst. reflexivity.
Defined.

(** *** Setting all *)

Lemma absentIds_all (v : jsstring) (roster : list RosterEntry) :
  absentIds (map (setStatus v) roster)
  = if strEqb v ABSENT then map student_id roster else [].
Proof.
  unfold absentIds. induction roster as [|s roster IH].
  - destruct (strEqb v ABSENT); reflexivity.
  - cbn [map filter status setStatus].
    destruct (strEqb v ABSENT); cbn [map]; [f_equal |]; exact IH.
Qed.

Lemma filter_all (A : Type) (f : A -> bool) (l : list A) :
  (forall x, f x = true) -> filter f l = l.
Proof.
  intros H. induction l as [|x l IH]; [reflexivity |].
  simpl. rewrite H, IH. reflexivity.
Qed.

Lemma filter_none (A : Type) (f : A -> bool) (l : list A) :
  (forall x, f x = false) -> filter f l = [].
Proof.
  intros H. induction l as [|x l IH]; [reflexivity |].
  simpl. rewrite H, IH. reflexivity.
Qed.

Lemma summaryOf_all (v : jsstring) (roster : list RosterEntry) :
  present (summaryOf (map (setStatus v) roster))
  = (if strEqb v PRESENT then Z.of_nat (length roster) else 0%Z)
  /\ absent (summaryOf (map (setStatus v) roster))
     = (if strEqb v PRESENT then 0%Z else Z.of_nat (length roster)).
Proof.
  unfold summaryOf. cbn [present absent]. rewrite length_map.
  assert (H : length (filter (fun s => strEqb (status s) PRESENT)
                        (map (setStatus v) roster))
              = if strEqb v PRESENT then length roster else 0).
  { induction roster as [|s roster IH]; [destruct (strEqb v PRESENT); reflexivity |].
    cbn [map filter setStatus status length].
    destruct (strEqb v PRESENT); cbn [length]; rewrite IH; reflexivity. }
  rewrite H. destruct (strEqb v PRESENT); split; lia.
Qed.

(** X10.  "Select All Absent" makes every student absent: the summary shows
    nobody present and a save would send every id of the roster, in roster
    order.  "Select All Present" makes every student present: nobody is
    absent and a save would send the empty list.  Either way every
    displayed row shows the new status. *)
Theorem bulk_set_all (toLowerCase : jsstring -> jsstring) (st : State) :
  (let st' := fst (step toLowerCase st AllAbsentClick) in
   absentIds (markAttendanceStudents st')
   = map student_id (markAttendanceStudents st)
   /\ present (markSummary st') = 0%Z
   /\ absent (markSummary st') = Z.of_nat (length (markAttendanceStudents st))
   /\ Forall (fun r => row_status r = ABSENT) (markTbody st'))
  /\ (let st' := fst (step toLowerCase st AllPresentClick) in
      absentIds (markAttendanceStudents st') = []
      /\ present (markSummary st')
         = Z.of_nat (length (markAttendanceStudents st))
      /\ absent (markSummary st') = 0%Z
      /\ Forall (fun r => row_status r = PRESENT) (markTbody st')).
Proof.
  assert (Hrows : forall v, v <> [] ->
    Forall (fun r => row_status r = v)
      (markTbody (markAll toLowerCase v st))).
  { intros v Hv. unfold markAll. cbn.
    apply Forall_map. apply Forall_forall. intros s Hs.
    apply (displayedEntries_incl toLowerCase) in Hs. cbn in Hs.
    apply in_map_iff in Hs. destruct Hs as (s0 & <- & _).
    unfold rowOf, orPresent. cbn. destruct v; [congruence | reflexivity]. }
  assert (Hro : forall v, markAttendanceStudents (markAll toLowerCase v st)
                          = map (setStatus v) (markAttendanceStudents st))
    by reflexivity.
  assert (Hsm : forall v, markSummary (markAll toLowerCase v st)
                          = summaryOf (map (setStatus v) (markAttendanceStudents st)))
    by reflexivity.
  pose proof (summaryOf_all ABSENT (markAttendanceStudents st)) as [Ha1 Ha2].
  pose proof (summaryOf_all PRESENT (markAttendanceStudents st)) as [Hp1 Hp2].
  change (strEqb ABSENT PRESENT) with false in Ha1, Ha2.
  change (strEqb PRESENT PRESENT) with true in Hp1, Hp2.
  split; cbn [step fst]; cbv zeta; rewrite Hro, Hsm, absentIds_all.
  - conjuncts; [reflexivity | exact Ha1 | exact Ha2 |].
    apply (Hrows ABSENT). discriminate.
  - conjuncts; [reflexivity | exact Hp1 | exact Hp2 |].
    apply (Hrows PRESENT). discriminate.
Qed.

(** *** The absent count and the ids a save sends *)

Lemma nonpresent_split (roster : list RosterEntry) :
  length (filter (fun s => negb (strEqb (status s) PRESENT)) roster)
  = length (filter (fun s => strEqb (status s) ABSENT) roster)
    + length (filter (fun s => negb (binaryStatus s)) roster).
Proof.
  induction roster as [|s roster IH]; [reflexivity |].
  cbn [filter]. unfold binaryStatus.
  destruct (strEqb (status s) PRESENT) eqn:Ep.
  - assert (Ea : strEqb (status s) ABSENT = false).
    { destruct (strEqb (status s) ABSENT) eqn:Ea; [| reflexivity].
      apply strEqb_eq in Ep, Ea. rewrite Ep in Ea. discriminate. }
    rewrite Ea. cbn. exact IH.
  - destruct (strEqb (status s) ABSENT); cbn [negb orb length];
      fold (binaryStatus) in *; unfold binaryStatus in IH; lia.
Qed.

Lemma absent_count_split (roster : list RosterEntry) :
  absent (summaryOf roster)
  = (Z.of_nat (length (absentIds roster))
     + Z.of_nat (length (filter (fun s => negb (binaryStatus s)) roster)))%Z.
Proof.
  destruct (summaryOf_spec roster) as (_ & _ & _ & Ha & _). cbv zeta in Ha.
  rewrite Ha. unfold absentIds. rewrite length_map, <- Nat2Z.inj_add. f_equal.
  apply nonpresent_split.
Qed.

Lemma binary_flip (s : RosterEntry) : binaryStatus (flipStatus s) = true.
Proof.
  unfold binaryStatus, flipStatus, setStatus. cbn [status].
  destruct (strEqb (status s) PRESENT); reflexivity.
Qed.

Lemma binary_toggleFirst (id : Z) (roster : list RosterEntry) :
  Forall (fun s => binaryStatus s = true) roster ->
  Forall (fun s => binaryStatus s = true) (toggleFirst id roster).
Proof.
  induction 1 as [|s roster Hs H IH]; [constructor |].
  cbn [toggleFirst]. destruct (Z.eqb (student_id s) id).
  - constructor; [apply binary_flip | exact H].
  - constructor; assumption.
Qed.

Lemma editEvent_binary (toLowerCase : jsstring -> jsstring)
      (st : State) (e : Event) :
  editEvent e = true ->
  Forall (fun s => binaryStatus s = true) (markAttendanceStudents st) ->
  Forall (fun s => binaryStatus s = true)
    (markAttendanceStudents (fst (step toLowerCase st e))).
Proof.
  destruct e; try discriminate; intros _ H; cbn [step fst].
  - exact H.
  - cbn. apply Forall_map. apply Forall_forall. reflexivity.
  - cbn. apply Forall_map. apply Forall_forall. reflexivity.
  - rewrite toggleRow_roster. destruct (nth_error (markTbody st) row); [| exact H].
    apply binary_toggleFirst, H.
Qed.

Lemma editEvents_binary (toLowerCase : jsstring -> jsstring) (es : list Event) :
  forall st, forallb editEvent es = true ->
    Forall (fun s => binaryStatus s = true) (markAttendanceStudents st) ->
    Forall (fun s => binaryStatus s = true)
      (markAttendanceStudents (fst (run toLowerCase st es))).
Proof.
  induction es as [|e es IH]; intros st He H; [exact H |].
  simpl in He. apply andb_true_iff in He. destruct He as [He Hes].
  cbn [run]. pose proof (editEvent_binary toLowerCase st e He H) as H1.
  destruct (step toLowerCase st e) as [st1 effs1]. cbn [fst] in H1.
  specialize (IH st1 Hes H1).
  destruct (run toLowerCase st1 es) as [st2 effs2]. exact IH.
Qed.

Lemma filter_Forall_none (A : Type) (f : A -> bool) (l : list A) :
  Forall (fun x => f x = true) l -> filter (fun x => negb (f x)) l = [].
Proof.
  induction 1 as [|x l Hx _ IH]; [reflexivity |].
  simpl. rewrite Hx. exact IH.
Qed.

(** X11.  The absent count of the summary counts every entry that is not
    [present]: the ids a save sends, plus the entries whose status is
    neither [present] nor [absent].  When the server's answer holds no
    third status, then after loading and any toggling, bulk setting and
    filtering the count shown is the number of ids a save sends. *)
Theorem absent_count_is_ids_sent (toLowerCase : jsstring -> jsstring) :
  (forall roster : list RosterEntry,
      absent (summaryOf roster)
      = (Z.of_nat (length (absentIds roster))
         + Z.of_nat (length (filter (fun s => negb (binaryStatus s)) roster)))%Z)
  /\ (forall (st : State) (students : list ResponseEntry) (es : list Event),
         Forall (fun s => binaryStatus (entryOfResponse s) = true) students ->
         forallb editEvent es = true ->
         let st' := fst (run toLowerCase (onLoadOk toLowerCase students st) es) in
         absent (markSummary st')
         = Z.of_nat (length (absentIds (markAttendanceStudents st')))).
Proof.
  split; [apply absent_count_split |].
  intros st students es Hbin Hes st'.
  assert (Hcur : markSummary st' = summaryOf (markAttendanceStudents st'))
    by (apply (run_summary toLowerCase), onLoadOk_summary).
  assert (Hb : Forall (fun s => binaryStatus s = true) (markAttendanceStudents st')).
  { apply editEvents_binary; [exact Hes |]. cbn. apply Forall_map. exact Hbin. }
  rewrite Hcur, absent_count_split.
  rewrite (filter_Forall_none _ _ _ Hb). cbn [length]. lia.
Qed.


Lemma absent_count_is_ids_sent_witness :
  Forall (fun s => binaryStatus (entryOfResponse s) = true)
    [ {| r_student_id := 7; r_roll_no := str "R7"; r_name := str "Ann";
         r_status := Some ABSENT |};
      {| r_student_id := 8; r_roll_no := str "R8"; r_name := str "Bob";
         r_status := None |} ]
  /\ forallb editEvent [ToggleClick 1; SearchInput (str "a")] = true
  /\ absent (markSummary
       (fst (run (fun s => s)
               (onLoadOk (fun s => s)
                  [ {| r_student_id := 7; r_roll_no := str "R7";
                       r_name := str "Ann"; r_status := Some ABSENT |};
                    {| r_student_id := 8; r_roll_no := str "R8";
                       r_name := str "Bob"; r_status := None |} ]
                  (initial (str "2024-01-01")))
               [ToggleClick 1; SearchInput (str "a")])))
     = 2%Z.
Proof.
  split; [repeat constructor |]. split; [reflexivity |].
  rewrite (proj2 (absent_count_is_ids_sent (fun s => s))
             (initial (str "2024-01-01")) _ [ToggleClick 1; SearchInput (str "a")]).
  - reflexivity.
  - repeat constructor.
  - reflexivity.
Defined.

(** *** What editing never changes *)

Lemma toggleFirst_identity (id : Z) (roster : list RosterEntry) :
  map identity (toggleFirst id roster) = map identity roster.
Proof.
  induction roster as [|s roster IH]; [reflexivity |].
  cbn [toggleFirst]. destruct (Z.eqb (student_id s) id); cbn [map].
  - reflexivity.
  - rewrite IH. reflexivity.
Qed.

Lemma editEvent_identity (toLowerCase : jsstring -> jsstring)
      (st : State) (e : Event) :
  editEvent e = true ->
  map identity (markAttendanceStudents (fst (step toLowerCase st e)))
  = map identity (markAttendanceStudents st).
Proof.
  destruct e; try discriminate; intros _; cbn [step fst].
  - reflexivity.
  - cbn. rewrite map_map. reflexivity.
  - cbn. rewrite map_map. reflexivity.
  - rewrite toggleRow_roster. destruct (nth_error (markTbody st) row); [| reflexivity].
    apply toggleFirst_identity.
Qed.

(** X12.  Toggling, bulk setting and filtering never add, remove, reorder
    or rename students: after any such events the roster holds the same
    ids, roll numbers and names in the same order; only statuses change. *)
Theorem editing_keeps_students (toLowerCase : jsstring -> jsstring)
        (es : list Event) :
  forall st : State,
    forallb editEvent es = true ->
    map identity (markAttendanceStudents (fst (run toLowerCase st es)))
    = map identity (markAttendanceStudents st).
Proof.
  induction es as [|e es IH]; intros st He; [reflexivity |].
  simpl in He. apply andb_true_iff in He. destruct He as [He Hes].
  cbn [run]. pose proof (editEvent_identity toLowerCase st e He) as H1.
  destruct (step toLowerCase st e) as [st1 effs1]. cbn [fst] in H1.
  specialize (IH st1 Hes).
  destruct (run toLowerCase st1 es) as [st2 effs2]. cbn [fst] in *.
  congruence.
Qed.

Lemma editing_keeps_students_witness :
  forallb editEvent [AllAbsentClick; ToggleClick 0] = true
  /\ map identity
       (markAttendanceStudents
          (fst (run (fun s => s)
                  (onLoadOk (fun s => s)
                     [ {| r_student_id := 7; r_roll_no := str "R7";
                          r_name := str "Ann"; r_status := None |} ]
                     (initial (str "2024-01-01")))
                  [AllAbsentClick; ToggleClick 0])))
     = [(7%Z, str "R7", str "Ann")].
Proof.
  split; [reflexivity |].
  rewrite (editing_keeps_students (fun s => s) [AllAbsentClick; ToggleClick 0]).
  - reflexivity.
  - reflexivity.
Defined.

(** *** When a save is sent *)

Lemma saveMarkAttendance_post (st : State) :
  snd (saveMarkAttendance st) = []
  \/ exists sid d ses,
       currentKey st = (Some sid, Some d, Some ses)
       /\ sid <> 0%Z /\ d <> [] /\ ses <> []
       /\ snd (saveMarkAttendance st)
          = [PostAttendance d sid ses (absentIds (markAttendanceStudents st))].
Proof.
  unfold saveMarkAttendance, currentKey.
  destruct (currentMarkSectionId st) as [sid|]; [| left; reflexivity].
  destruct (currentMarkDate st) as [d|];
    [| left; destruct (negb _ || _ || _); reflexivity].
  destruct (currentMarkSession st) as [ses|];
    [| left; destruct (negb _ || _ || _); reflexivity].
  destruct (negb (truthyNum (Some sid)) || negb (truthyStr (Some d))
            || negb (truthyStr (Some ses))) eqn:G; [left; reflexivity |].
  right. exists sid, d, ses.
  apply orb_false_iff in G. destruct G as [G G3].
  apply orb_false_iff in G. destruct G as [G1 G2].
  apply negb_false_iff in G1, G2, G3. cbn in G1, G2, G3.
  apply negb_true_iff, Z.eqb_neq in G1.
  repeat split; auto.
  - intros ->. discriminate.
  - intros ->. discriminate.
Qed.

Lemma step_post (toLowerCase : jsstring -> jsstring) (st : State) (e : Event)
      (d : jsstring) (sid : Z) (ses : jsstring) (ids : list Z) :
  In (PostAttendance d sid ses ids) (snd (step toLowerCase st e)) ->
  e = SaveClick /\ markSaveBtnDisabled st = false
  /\ currentKey st = (Some sid, Some d, Some ses)
  /\ sid <> 0%Z /\ d <> [] /\ ses <> []
  /\ ids = absentIds (markAttendanceStudents st).
Proof.
  assert (Hload : forall s, ~ In (PostAttendance d sid ses ids)
                              (snd (loadMarkAttendance s))).
  { intros s. unfold loadMarkAttendance.
    destruct (markSection s) as [x|]; [| simpl; intros [H | []]; discriminate].
    destruct (markDate s); [simpl; intros [H | []]; discriminate |].
    destruct (Z.eqb x 0); simpl; intros [H | []]; discriminate. }
  destruct e; cbn [step snd]; try solve [intros [Hx | []]; discriminate];
    try solve [cbn [In]; intros []].
  - intros H. exfalso. exact (Hload st H).
  - destruct (markSaveBtnDisabled st) eqn:Ed; [intros [] |].
    destruct (saveMarkAttendance_post st)
      as [E | (sid' & d' & ses' & Hk & H1 & H2 & H3 & E)]; rewrite E.
    + intros [].
    + intros [H | []]. injection H as <- <- <- <-.
      repeat split; auto.
  - unfold onSaveOk.
    destruct (loadMarkAttendance (withSaveDisabled st false)) as [s2 effs] eqn:El.
    cbn [snd]. intros [H | H]; [discriminate |].
    exfalso. apply (Hload (withSaveDisabled st false)). rewrite El. exact H.
Qed.

Lemma userEvent_keeps_disabled (toLowerCase : jsstring -> jsstring)
      (st : State) (e : Event) :
  userEvent e = true -> markSaveBtnDisabled st = true ->
  markSaveBtnDisabled (fst (step toLowerCase st e)) = true.
Proof.
  destruct e; try discriminate; intros _ H; cbn [step fst]; try exact H;
    try reflexivity.
  - unfold loadMarkAttendance.
    destruct (markSection st) as [x|]; [| exact H].
    destruct (markDate st); [exact H |].
    destruct (Z.eqb x 0); [exact H | reflexivity].
  - unfold toggleRow. destruct (nth_error (markTbody st) row); [| exact H].
    destruct (find _ _); exact H.
  - rewrite H. exact H.
Qed.

(** X13.  A save request is sent only by the save action, with the button
    enabled, and always carries a section other than 0, a date and a
    session that are not empty, and the absent ids of the roster.  While
    the button is disabled, whatever the user does on the page (load,
    field changes, toggles, bulk settings, filter input, save), nothing is
    saved until an answer of the server arrives. *)
Theorem save_only_with_key (toLowerCase : jsstring -> jsstring) :
  (forall (st : State) (e : Event) d sid ses ids,
      In (PostAttendance d sid ses ids) (snd (step toLowerCase st e)) ->
      e = SaveClick /\ markSaveBtnDisabled st = false
      /\ currentKey st = (Some sid, Some d, Some ses)
      /\ sid <> 0%Z /\ d <> [] /\ ses <> []
      /\ ids = absentIds (markAttendanceStudents st))
  /\ (forall (es : list Event) (st : State),
         forallb userEvent es = true -> markSaveBtnDisabled st = true ->
         existsb isPost (snd (run toLowerCase st es)) = false).
Proof.
  split; [apply step_post |].
  induction es as [|e es IH]; intros st He Hd; [reflexivity |].
  simpl in He. apply andb_true_iff in He. destruct He as [He Hes].
  cbn [run]. pose proof (userEvent_keeps_disabled toLowerCase st e He Hd) as H1.
  assert (Hno : existsb isPost (snd (step toLowerCase st e)) = false).
  { destruct (existsb isPost (snd (step toLowerCase st e))) eqn:Ex; [| reflexivity].
    apply existsb_exists in Ex. destruct Ex as (eff & Hin & Hp).
    destruct eff; try discriminate.
    apply step_post in Hin. destruct Hin as (_ & Hen & _). congruence. }
  destruct (step toLowerCase st e) as [st1 effs1]. cbn [fst snd] in *.
  specialize (IH st1 Hes H1).
  destruct (run toLowerCase st1 es) as [st2 effs2]. cbn [snd] in *.
  rewrite existsb_app, Hno, IH. reflexivity.
Qed.

Lemma save_only_with_key_witness :
  forallb userEvent
    [FieldChange (FSection (Some 1%Z)); LoadClick; AllAbsentClick; SaveClick]
  = true
  /\ markSaveBtnDisabled (initial (str "2024-01-01")) = true
  /\ existsb isPost
       (snd (run (fun s => s) (initial (str "2024-01-01"))
               [FieldChange (FSection (Some 1%Z)); LoadClick; AllAbsentClick;
                SaveClick]))
     = false.
Proof.
  split; [reflexivity |]. split; [reflexivity |].
  apply (proj2 (save_only_with_key (fun s => s))); reflexivity.
Defined.


(** X14.  When the roster request fails, the roster in memory stays the
    one from before, the key of the request stays recorded and the save
    button is enabled again: a save then sends the absent ids of the
    roster from before under the key of the failed request. *)
Theorem failed_load_keeps_old_roster (toLowerCase : jsstring -> jsstring)
        (st : State) (sid : Z) (message : jsstring) :
  markSection st = Some sid -> sid <> 0%Z ->
  markDate st <> [] -> markSession st <> [] ->
  markAttendanceStudents
    (fst (run toLowerCase st [LoadClick; LoadFailed message]))
  = markAttendanceStudents st
  /\ markSaveBtnDisabled
       (fst (run toLowerCase st [LoadClick; LoadFailed message])) = false
  /\ snd (run toLowerCase st [LoadClick; LoadFailed message; SaveClick])
     = [GetAttendance (markDate st) sid (markSession st);
        Toast message error;
        PostAttendance (markDate st) sid (markSession st)
          (absentIds (markAttendanceStudents st))].
Proof.
  intros Hs Hsid Hd Hses.
  destruct (loadMarkAttendance_request st Hs Hsid Hd)
    as (Hreq & Hkey & Hform & Hro).
  cbn [run step].
  destruct (loadMarkAttendance st) as [st1 effs1]. cbn [fst snd] in *.
  subst effs1. cbn [withSaveDisabled markSaveBtnDisabled markAttendanceStudents].
  conjuncts; [exact Hro | reflexivity |].
  unfold saveMarkAttendance.
  cbn [withSaveDisabled currentMarkSectionId currentMarkDate currentMarkSession
       markAttendanceStudents].
  unfold currentKey in Hkey. injection Hkey as -> -> ->.
  cbn [truthyNum truthyStr]. apply Z.eqb_neq in Hsid. rewrite Hsid.
  destruct (markDate st); [congruence |].
  destruct (markSession st); [congruence |].
  cbn. rewrite Hro. reflexivity.
Qed.

Lemma failed_load_keeps_old_roster_witness :
  let st := fst (run (fun s => s) (initial (str "2024-01-01"))
                   [ FieldChange (FSection (Some 1%Z)); LoadClick;
                     LoadOk [ {| r_student_id := 7; r_roll_no := str "R7";
                                 r_name := str "Ann"; r_status := Some ABSENT |} ];
                     FieldChange (FSection (Some 2%Z)) ]) in
  markSection st = Some 2%Z
  /\ snd (run (fun s => s) st [LoadClick; LoadFailed (str "Request failed"); SaveClick])
     = [GetAttendance (str "2024-01-01") 2 (str "morning");
        Toast (str "Request failed") error;
        PostAttendance (str "2024-01-01") 2 (str "morning") [7%Z]].
Proof.
  intros st. split; [reflexivity |].
  apply (failed_load_keeps_old_roster (fun s => s) st 2 (str "Request failed"));
    [reflexivity | discriminate | discriminate | discriminate].
Defined.

(** *** The filter *)

Lemma isPrefix_spec (p s : jsstring) :
  isPrefix p s = true <-> exists b, s = p ++ b.
Proof.
  revert s. induction p as [|x p IH]; intros s.
  - simpl. split; [eauto | reflexivity].
  - destruct s as [|y s]; simpl.
    + split; [discriminate | intros (b & H); discriminate].
    + rewrite andb_true_iff, N.eqb_eq, IH. split.
      * intros (-> & b & ->). eauto.
      * intros (b & H). injection H as -> ->. eauto.
Qed.

(** [contains p s] holds exactly when [p] occurs in [s]. *)
Lemma contains_spec (p s : jsstring) :
  contains p s = true <-> exists a b, s = a ++ p ++ b.
Proof.
  induction s as [|y s IH].
  - simpl. rewrite orb_false_r, isPrefix_spec. split.
    + intros (b & H). exists [], b. exact H.
    + intros (a & b & H). destruct a; [eauto |]. discriminate.
  - cbn [contains]. rewrite orb_true_iff, isPrefix_spec, IH. split.
    + intros [(b & H) | (a & b & H)].
      * exists [], b. exact H.
      * exists (y :: a), b. rewrite H. reflexivity.
    + intros (a & b & H). destruct a as [|x a].
      * left. exists b. exact H.
      * right. simpl in H. injection H as _ H. eauto.
Qed.

(** X15.  With an empty search text every roster entry is displayed.
    Otherwise the displayed rows are, in roster order, the entries whose
    lower-cased roll number or lower-cased name holds the lower-cased
    search text somewhere inside. *)
Theorem filter_shows_matches (toLowerCase : jsstring -> jsstring) (st : State) :
  (toLowerCase (markSearch st) = [] ->
   markTbody (renderMarkTable toLowerCase st)
   = map rowOf (markAttendanceStudents st))
  /\ (toLowerCase (markSearch st) <> [] ->
      exists keep,
        markTbody (renderMarkTable toLowerCase st)
        = map rowOf (filter keep (markAttendanceStudents st))
        /\ forall s,
             keep s = true <->
             (exists a b, toLowerCase (roll_no s)
                          = a ++ toLowerCase (markSearch st) ++ b)
             \/ (exists a b, toLowerCase (name s)
                             = a ++ toLowerCase (markSearch st) ++ b)).
Proof.
  unfold renderMarkTable, displayedEntries. cbn [markTbody withTbody]. split.
  - intros ->. reflexivity.
  - intros Hne. destruct (toLowerCase (markSearch st)) as [|c q] eqn:E; [congruence |].
    eexists. split; [reflexivity |].
    intros s. cbv beta. rewrite orb_true_iff, !contains_spec. reflexivity.
Qed.

Lemma filter_shows_matches_witness :
  markTbody
    (renderMarkTable (fun s => s)
       (fst (step (fun s => s)
               (onLoadOk (fun s => s)
                  [ {| r_student_id := 7; r_roll_no := str "r7";
                       r_name := str "ann"; r_status := None |};
                    {| r_student_id := 8; r_roll_no := str "r8";
                       r_name := str "bob"; r_status := None |} ]
                  (initial (str "2024-01-01")))
               (FieldChange (FSection None)))))
  = [ {| row_id := 7; row_roll_no := str "r7"; row_name := str "ann";
         row_status := PRESENT |};
      {| row_id := 8; row_roll_no := str "r8"; row_name := str "bob";
         row_status := PRESENT |} ].
Proof.
  rewrite (proj1 (filter_shows_matches (fun s => s) _)); reflexivity.
Defined.

End MarkExtra.

(** ** More about the list views *)
Module ListViewExtra.
Import Effects ListView ListViewAux ListViewFacts.

Lemma students_step_page (st : Students.State) (e : Students.Event) :
  (1 <= Students.studentsPage st)%Z ->
  (1 <= Students.studentsPage (fst (Students.step st e)))%Z.
Proof.
  intros H. destruct e; cbn [Students.step]; try (cbn; lia); try exact H.
  - destruct (Students.studentsPagination st); [| exact H].
    destruct (Z.ltb_spec 1 (Students.studentsPage st)); cbn; lia.
  - destruct (Students.studentsPagination st) as [T|]; [| exact H].
    destruct (Z.ltb_spec (Students.studentsPage st) T); cbn; lia.
Qed.

Lemma records_step_page (st : Records.State) (e : Records.Event) :
  (1 <= Records.recordsPage st)%Z ->
  (1 <= Records.recordsPage (fst (Records.step st e)))%Z.
Proof.
  intros H.
  destruct e; cbn [Records.step];
    repeat match goal with
      | |- context [Records.recordsPagination st] =>
          destruct (Records.recordsPagination st)
      | |- context [Records.loadRecords ?s] =>
          rewrite (proj1 (records_load_page s))
      end; try (cbn; lia); try exact H.
  - destruct (Z.ltb_spec 1 (Records.recordsPage st)); cbn; lia.
  - destruct (Z.ltb_spec (Records.recordsPage st) z); cbn; lia.
Qed.

(** X16.  The page number never falls below 1: in both list views, from a
    page of at least 1 (the views start on page 1) any sequence of actions
    and answers leaves a page of at least 1. *)
Theorem page_at_least_one :
  (forall (es : list Students.Event) (st : Students.State),
      (1 <= Students.studentsPage st)%Z ->
      (1 <= Students.studentsPage (runStudents st es))%Z)
  /\ (forall (es : list Records.Event) (st : Records.State),
         (1 <= Records.recordsPage st)%Z ->
         (1 <= Records.recordsPage (runRecords st es))%Z)
  /\ Students.studentsPage Students.initial = 1%Z.
Proof.
  conjuncts.
  - induction es as [|e es IH]; intros st H; [exact H |].
    cbn [runStudents]. apply IH, students_step_page, H.
  - induction es as [|e es IH]; intros st H; [exact H |].
    cbn [runRecords]. apply IH, records_step_page, H.
  - reflexivity.
Qed.

Lemma page_at_least_one_witness :
  (1 <= Students.studentsPage Students.initial)%Z
  /\ (1 <= Students.studentsPage
             (runStudents Students.initial
                [Students.StudentsOk (Some 60%Z); Students.SectionsOk;
                 Students.NextClick; Students.PrevClick; Students.PrevClick]))%Z.
Proof.
  split; [cbn; lia |].
  apply (proj1 page_at_least_one). cbn; lia.
Defined.

Lemma students_paging_step (st : Students.State) (e : Students.Event) (T : Z) :
  isPaging e = true ->
  Students.studentsPagination st = Some T ->
  (1 <= Students.studentsPage st <= T)%Z ->
  (1 <= Students.studentsPage (fst (Students.step st e)) <= T)%Z
  /\ studentsFilters (fst (Students.step st e)) = studentsFilters st.
Proof.
  intros He HT Hp. destruct e; try discriminate; cbn [Students.step]; rewrite HT.
  - destruct (Z.ltb_spec 1 (Students.studentsPage st));
      cbn; unfold studentsFilters; cbn; (split; [lia | reflexivity]).
  - destruct (Z.ltb_spec (Students.studentsPage st) T);
      cbn; unfold studentsFilters; cbn; (split; [lia | reflexivity]).
Qed.

Lemma records_paging_step (st : Records.State) (e : Records.Event) (T : Z) :
  isPagingRecords e = true ->
  Records.recordsPagination st = Some T ->
  (1 <= Records.recordsPage st <= T)%Z ->
  (1 <= Records.recordsPage (fst (Records.step st e)) <= T)%Z
  /\ recordsFilters (fst (Records.step st e)) = recordsFilters st.
Proof.
  intros He HT Hp. destruct e; try discriminate; cbn [Records.step]; rewrite HT.
  - rewrite (proj1 (records_load_page _)).
    destruct (Z.ltb_spec 1 (Records.recordsPage st));
      cbn; unfold recordsFilters; cbn; (split; [lia | reflexivity]).
  - rewrite (proj1 (records_load_page _)).
    destruct (Z.ltb_spec (Records.recordsPage st) T);
      cbn; unfold recordsFilters; cbn; (split; [lia | reflexivity]).
Qed.

(** X17.  With the buttons rendered for [totalPages] pages and the page
    between 1 and [totalPages], any sequence of clicks on Previous and Next
    keeps the page between 1 and [totalPages] and changes nothing else of
    the query state; Next and then Previous comes back to the page when it
    was not the last, Previous and then Next when it was not the first. *)
Theorem paging_stays_in_range :
  (forall (es : list Students.Event) (st : Students.State) (T : Z),
      forallb isPaging es = true ->
      Students.studentsPagination st = Some T ->
      (1 <= Students.studentsPage st <= T)%Z ->
      (1 <= Students.studentsPage (runStudents st es) <= T)%Z
      /\ studentsFilters (runStudents st es) = studentsFilters st)
  /\ (forall (es : list Records.Event) (st : Records.State) (T : Z),
         forallb isPagingRecords es = true ->
         Records.recordsPagination st = Some T ->
         (1 <= Records.recordsPage st <= T)%Z ->
         (1 <= Records.recordsPage (runRecords st es) <= T)%Z
         /\ recordsFilters (runRecords st es) = recordsFilters st)
  /\ (forall (st : Students.State) (T : Z),
         Students.studentsPagination st = Some T ->
         ((1 <= Students.studentsPage st < T)%Z ->
          runStudents st [Students.NextClick; Students.PrevClick] = st)
         /\ ((1 < Students.studentsPage st <= T)%Z ->
             runStudents st [Students.PrevClick; Students.NextClick] = st)).
Proof.
  conjuncts.
  - induction es as [|e es IH]; intros st T He HT Hp; [auto |].
    simpl in He. apply andb_true_iff in He. destruct He as [He Hes].
    destruct (students_paging_step st e T He HT Hp) as [H1 H2].
    cbn [runStudents].
    assert (HT' : Students.studentsPagination (fst (Students.step st e)) = Some T).
    { unfold studentsFilters in H2. injection H2 as _ _ _ _ _ H2. congruence. }
    destruct (IH _ T Hes HT' H1) as [H3 H4]. split; [exact H3 | congruence].
  - induction es as [|e es IH]; intros st T He HT Hp; [auto |].
    simpl in He. apply andb_true_iff in He. destruct He as [He Hes].
    destruct (records_paging_step st e T He HT Hp) as [H1 H2].
    cbn [runRecords].
    assert (HT' : Records.recordsPagination (fst (Records.step st e)) = Some T).
    { unfold recordsFilters in H2. injection H2 as _ _ _ _ _ H2. congruence. }
    destruct (IH _ T Hes HT' H1) as [H3 H4]. split; [exact H3 | congruence].
  - intros st T HT. split.
    + intros [Hge Hlt].
      destruct st as [p pp t sec se so pg]. cbn in *. subst pg.
      cbn [runStudents Students.step Students.studentsPagination
           Students.studentsPage fst Students.loadStudentsList].
      apply Z.ltb_lt in Hlt. rewrite Hlt.
      cbn [Students.withPage Students.studentsPagination Students.studentsPage fst
           Students.loadStudentsList].
      assert (H1 : (1 <? p + 1)%Z = true) by (apply Z.ltb_lt; lia).
      rewrite H1. replace (p + 1 - 1)%Z with p by lia. reflexivity.
    + intros [Hgt Hle].
      destruct st as [p pp t sec se so pg]. cbn in *. subst pg.
      cbn [runStudents Students.step Students.studentsPagination
           Students.studentsPage fst Students.loadStudentsList].
      apply Z.ltb_lt in Hgt. rewrite Hgt.
      cbn [Students.withPage Students.studentsPagination Students.studentsPage fst
           Students.loadStudentsList].
      assert (H1 : (p - 1 <? T)%Z = true) by (apply Z.ltb_lt; lia).
      rewrite H1. replace (p - 1 + 1)%Z with p by lia. reflexivity.
Qed.


Lemma paging_stays_in_range_witness :
  forallb isPaging
    [Students.NextClick; Students.NextClick; Students.NextClick;
     Students.PrevClick] = true
  /\ Students.studentsPage
       (runStudents
          {| Students.studentsPage := 2; Students.studentsPerPage := 10;
             Students.studentsTotal := 25; Students.studentsSectionId := None;
             Students.studentsSearch := []; Students.studentsSortBy := str "name";
             Students.studentsPagination := Some 3%Z |}
          [Students.NextClick; Students.NextClick; Students.NextClick;
           Students.PrevClick]) = 2%Z.
Proof.
  split; [reflexivity |].
  destruct (proj1 paging_stays_in_range
              [Students.NextClick; Students.NextClick; Students.NextClick;
               Students.PrevClick]
              {| Students.studentsPage := 2; Students.studentsPerPage := 10;
                 Students.studentsTotal := 25; Students.studentsSectionId := None;
                 Students.studentsSearch := []; Students.studentsSortBy := str "name";
                 Students.studentsPagination := Some 3%Z |} 3%Z
              eq_refl eq_refl) as [_ _]; [cbn; lia |].
  reflexivity.
Defined.

Lemma totalPagesOf_more_than_one (total perPage : Z) :
  (0 < perPage)%Z ->
  ((1 < totalPagesOf total perPage)%Z <-> (perPage < total)%Z)
  /\ (1 <= totalPagesOf total perPage \/ total < 0)%Z.
Proof.
  intros Hp. unfold totalPagesOf.
  pose proof (Z.div_mod (- total) perPage ltac:(lia)) as Hdm.
  pose proof (Z.mod_pos_bound (- total) perPage Hp) as Hb.
  set (q := (- total / perPage)%Z) in *.
  destruct (Z.eqb_spec (- q) 0) as [E | E]; split;
    try (split; intros H); nia.
Qed.

(** X18.  The Previous and Next buttons are rendered exactly when the total
    exceeds the page size (the page size being positive): in the students
    view when the second answer of the chain arrives, in the records view
    when the answer arrives; otherwise buttons rendered earlier are
    removed. *)
Theorem pagination_shown_iff_more_than_a_page :
  (forall st : Students.State,
      (0 < Students.studentsPerPage st)%Z ->
      (Students.studentsPagination (fst (Students.step st Students.SectionsOk))
       <> None
       <-> (Students.studentsPerPage st < Students.studentsTotal st)%Z))
  /\ (forall (st : Records.State) (total : Z),
         (0 < Records.recordsPerPage st)%Z ->
         (Records.recordsPagination
            (fst (Records.step st (Records.RecordsOk (Some total)))) <> None
          <-> (Records.recordsPerPage st < total)%Z))
  /\ (forall st : Records.State,
         (0 < Records.recordsPerPage st)%Z ->
         Records.recordsPagination
           (fst (Records.step st (Records.RecordsOk None))) = None).
Proof.
  conjuncts.
  - intros st Hp. cbn.
    destruct (totalPagesOf_more_than_one (Students.studentsTotal st) _ Hp) as [H _].
    destruct (Z.ltb_spec 1 (totalPagesOf (Students.studentsTotal st)
                              (Students.studentsPerPage st))).
    + split; [intros _; apply H; assumption | discriminate].
    + split; [congruence | intros Hlt; apply H in Hlt; lia].
  - intros st total Hp. cbn [Records.step fst Records.recordsPagination].
    assert (En : (if truthyNum (Some total) then total else 0%Z) = total).
    { cbn. destruct (Z.eqb_spec total 0); [symmetry; assumption | reflexivity]. }
    rewrite En.
    destruct (totalPagesOf_more_than_one total _ Hp) as [H _].
    destruct (Z.ltb_spec 1 (totalPagesOf total (Records.recordsPerPage st))).
    + split; [intros _; apply H; assumption | discriminate].
    + split; [congruence | intros Hlt; apply H in Hlt; lia].
  - intros st Hp. cbn [Records.step fst Records.recordsPagination truthyNum].
    destruct (totalPagesOf_more_than_one 0 _ Hp) as [H _].
    destruct (Z.ltb_spec 1 (totalPagesOf 0 (Records.recordsPerPage st)));
      [apply H in H0; lia | reflexivity].
Qed.

Lemma pagination_shown_iff_more_than_a_page_witness :
  (0 < Students.studentsPerPage Students.initial)%Z
  /\ Students.studentsPagination
       (fst (Students.step Students.initial Students.SectionsOk)) = None.
Proof.
  split; [cbn; lia |].
  destruct (Students.studentsPagination
              (fst (Students.step Students.initial Students.SectionsOk)))
    as [T|] eqn:E; [| reflexivity].
  exfalso.
  assert (Hne : Students.studentsPagination
                  (fst (Students.step Students.initial Students.SectionsOk))
                <> None) by (rewrite E; discriminate).
  assert (Hpp : (0 < Students.studentsPerPage Students.initial)%Z)
    by reflexivity.
  pose proof (proj1 (proj1 pagination_shown_iff_more_than_a_page
                       Students.initial Hpp) Hne) as Hlt.
  vm_compute in Hlt. discriminate.
Defined.

End ListViewExtra.

(** ** The dialogs *)
Module AdminFacts.
Import Effects Admin ChatAux ChatExtra.

(** X19.  The section dialog sends nothing for a name that is blank after
    trimming.  Opened for adding, it creates a section with the trimmed
    name, also when an edit id was left over from before; opened for a
    section, it renames that section.  The name field is filled, on
    opening for a section, from the cached list: submitting at once sends
    the cached name again, and nothing when the cache has no such section.
    The name sent has no white space at either end. *)
Theorem section_dialog_requests :
  (forall st : SectionForm.State,
      trim (SectionForm.sectionName st) = [] ->
      SectionForm.step st SectionForm.Submit = (st, []))
  /\ (forall (st : SectionForm.State) (v : jsstring),
         trim v <> [] ->
         snd (SectionForm.run st
                [SectionForm.Open None; SectionForm.NameInput v;
                 SectionForm.Submit])
         = [Send (PostSection (trim v))]
         /\ trimmed (trim v) = true)
  /\ (forall (st : SectionForm.State) (id : Z) (v : jsstring),
         trim v <> [] ->
         snd (SectionForm.run st
                [SectionForm.Open (Some id); SectionForm.NameInput v;
                 SectionForm.Submit])
         = [Send (PatchSection id (trim v))])
  /\ (forall (st : SectionForm.State) (id : Z),
         snd (SectionForm.run st [SectionForm.Open (Some id); SectionForm.Submit])
         = match find (fun x => Z.eqb (sec_id x) id)
                   (SectionForm.sectionsCache st) with
           | Some x =>
               match trim (sec_name x) with
               | [] => []
               | n => [Send (PatchSection id n)]
               end
           | None => []
           end).
Proof.
  conjuncts.
  - intros st H. cbn [SectionForm.step]. unfold SectionForm.submit.
    rewrite H. reflexivity.
  - intros st v Hv. split; [| apply trim_trimmed].
    cbn [SectionForm.run SectionForm.step]. unfold SectionForm.submit.
    cbn [SectionForm.sectionName SectionForm.editId SectionForm.openSectionModal].
    destruct (trim v); [congruence | reflexivity].
  - intros st id v Hv.
    cbn [SectionForm.run SectionForm.step]. unfold SectionForm.submit.
    cbn [SectionForm.sectionName SectionForm.editId SectionForm.openSectionModal].
    destruct (trim v); [congruence | reflexivity].
  - intros st id.
    cbn [SectionForm.run SectionForm.step]. unfold SectionForm.submit.
    cbn [SectionForm.sectionName SectionForm.editId SectionForm.openSectionModal].
    destruct (find _ _) as [x|].
    + destruct (trim (sec_name x)); reflexivity.
    + reflexivity.
Qed.

Lemma section_dialog_requests_witness :
  trim (str "  10-B ") <> []
  /\ snd (SectionForm.run
            {| SectionForm.sectionsCache := [];
               SectionForm.modalShown := false;
               SectionForm.modalTitle := str "Edit Section";
               SectionForm.sectionName := str "old";
               SectionForm.editId := Some 4%Z |}
            [SectionForm.Open None; SectionForm.NameInput (str "  10-B ");
             SectionForm.Submit])
     = [Send (PostSection (str "10-B"))].
Proof.
  split; [discriminate |].
  destruct (proj1 (proj2 section_dialog_requests)
              {| SectionForm.sectionsCache := [];
                 SectionForm.modalShown := false;
                 SectionForm.modalTitle := str "Edit Section";
                 SectionForm.sectionName := str "old";
                 SectionForm.editId := Some 4%Z |}
              (str "  10-B ")) as [H _]; [discriminate |].
  exact H.
Defined.

(** *** The confirm dialog *)

Lemma confirm_step_shows (cache : list SectionInfo) (st : Confirm.State)
      (e : Confirm.Event) :
  Confirm.showsTarget cache st ->
  Confirm.showsTarget cache (fst (Confirm.step cache st e)).
Proof.
  unfold Confirm.showsTarget. intros H.
  destruct e as [t| | |t|m]; cbn [Confirm.step].
  - destruct t; cbn; auto.
  - destruct (Confirm.confirmOk st) as [[id|id]|] eqn:E; cbn [fst];
      rewrite E; exact H.
  - exact H.
  - destruct t; exact H.
  - exact H.
Qed.


Lemma confirm_run_shows (cache : list SectionInfo) (es : list Confirm.Event) :
  forall st, Confirm.showsTarget cache st ->
    Confirm.showsTarget cache (fst (Confirm.run cache st es)).
Proof.
  induction es as [|e es IH]; intros st H; [exact H |].
  cbn [Confirm.run]. pose proof (confirm_step_shows cache st e H) as H1.
  destruct (Confirm.step cache st e) as [st1 a1]. cbn [fst] in H1.
  specialize (IH st1 H1).
  destruct (Confirm.run cache st1 es) as [st2 a2]. exact IH.
Qed.

(** X20.  The confirm dialog is shared by the deletion of sections and of
    students.  Whatever happened before, after a deletion is asked for a
    click on OK sends the request for exactly that section or student.
    At every moment the title of the dialog (and for a section its text,
    with the cached name) is the one of the target OK deletes. *)
Theorem confirm_deletes_what_it_shows (cache : list SectionInfo) :
  (forall (es : list Confirm.Event) (st : Confirm.State) (t : Confirm.Target),
      snd (Confirm.run cache (fst (Confirm.run cache st es))
             [Confirm.Ask t; Confirm.OkClick])
      = [Send (Confirm.requestOf t)])
  /\ (forall (es : list Confirm.Event) (st : Confirm.State),
         Confirm.showsTarget cache st ->
         Confirm.showsTarget cache (fst (Confirm.run cache st es)))
  /\ (forall (st : Confirm.State) (t : Confirm.Target),
         Confirm.showsTarget cache (fst (Confirm.step cache st (Confirm.Ask t)))).
Proof.
  conjuncts.
  - intros es st t. destruct t; reflexivity.
  - intros es st. apply confirm_run_shows.
  - intros st t. unfold Confirm.showsTarget. destruct t; cbn; auto.
Qed.

Lemma confirm_deletes_what_it_shows_witness :
  Confirm.showsTarget []
    {| Confirm.confirmShown := false; Confirm.confirmTitle := [];
       Confirm.confirmBody := []; Confirm.confirmOk := None |}
  /\ Confirm.showsTarget []
       (fst (Confirm.run []
               {| Confirm.confirmShown := false; Confirm.confirmTitle := [];
                  Confirm.confirmBody := []; Confirm.confirmOk := None |}
               [Confirm.Ask (Confirm.TSection 3); Confirm.CancelClick;
                Confirm.Ask (Confirm.TStudent 9)])).
Proof.
  split; [exact I |].
  apply (proj1 (proj2 (confirm_deletes_what_it_shows []))). exact I.
Defined.

(** *** The student dialog *)

Lemma student_submit_cases (st : StudentForm.State) :
  let roll := trim (StudentForm.studentRollNo st) in
  let name := trim (StudentForm.studentName st) in
  (roll <> [] /\ name <> []
   /\ exists sec, StudentForm.studentSection st = Some sec /\ sec <> 0%Z
      /\ snd (StudentForm.submit st)
         = [Send (match StudentForm.studentId st with
                  | Some id => PatchStudent id sec roll name
                  | None => PostStudent sec roll name
                  end)])
  \/ ((roll = [] \/ name = [] \/ StudentForm.studentSection st = None
       \/ StudentForm.studentSection st = Some 0%Z)
      /\ snd (StudentForm.submit st) = []).
Proof.
  cbv zeta. unfold StudentForm.submit.
  destruct (trim (StudentForm.studentRollNo st)) as [|c r]; [right; auto |].
  destruct (trim (StudentForm.studentName st)) as [|d n]; [right; auto |].
  destruct (StudentForm.studentSection st) as [sec|]; [| right; auto].
  destruct (Z.eqb_spec sec 0) as [-> | Hsec]; [right; auto 6 |].
  left. repeat split; try discriminate.
  exists sec. repeat split; auto.
  destruct (StudentForm.studentId st); reflexivity.
Qed.

(** X21.  The student dialog sends a request exactly when roll number and
    name are not blank and a section other than 0 is selected; it sends the
    trimmed values, as an update of the student whose id the dialog holds,
    or as a new student when it holds none.  Opened for a student whose
    record cannot be fetched, it falls back to adding.  Opened for a
    student, it depends on the order of the two answers: when the section
    list arrives first the fetched student is updated on submit; when it
    arrives after the student record the section selection is reset and
    submit sends nothing. *)
Theorem student_dialog_requests :
  (forall st : StudentForm.State,
      existsb StudentForm.isSend (snd (StudentForm.submit st)) = true
      <-> trim (StudentForm.studentRollNo st) <> []
          /\ trim (StudentForm.studentName st) <> []
          /\ truthyNum (StudentForm.studentSection st) = true)
  /\ (forall (st : StudentForm.State) (a : Action),
         In a (snd (StudentForm.submit st)) ->
         exists sec,
           StudentForm.studentSection st = Some sec
           /\ a = Send (match StudentForm.studentId st with
                        | Some id =>
                            PatchStudent id sec
                              (trim (StudentForm.studentRollNo st))
                              (trim (StudentForm.studentName st))
                        | None =>
                            PostStudent sec
                              (trim (StudentForm.studentRollNo st))
                              (trim (StudentForm.studentName st))
                        end))
  /\ (forall (st : StudentForm.State) (id sec : Z) (roll name : jsstring),
         trim roll <> [] -> trim name <> [] -> sec <> 0%Z ->
         snd (StudentForm.run st
                [StudentForm.Open (Some id); StudentForm.StudentLoadFailed;
                 StudentForm.SectionSelect (Some sec);
                 StudentForm.RollInput roll; StudentForm.NameInput name;
                 StudentForm.Submit])
         = [Send GetSectionList; Send (GetStudent id);
            Send (PostStudent sec (trim roll) (trim name))])
  /\ (forall (st : StudentForm.State) (id : Z) (ids : list Z)
             (s : StudentForm.StudentInfo) (roll name : jsstring),
         StudentForm.st_roll_no s = Some roll ->
         StudentForm.st_name s = Some name ->
         trim roll <> [] -> trim name <> [] ->
         In (StudentForm.st_section_id s) ids ->
         StudentForm.st_section_id s <> 0%Z ->
         snd (StudentForm.run st
                [StudentForm.Open (Some id); StudentForm.SectionsLoaded ids;
                 StudentForm.StudentLoaded s; StudentForm.Submit])
         = [Send GetSectionList; Send (GetStudent id);
            Send (PatchStudent (StudentForm.st_id s)
                    (StudentForm.st_section_id s) (trim roll) (trim name))]
         /\ snd (StudentForm.run st
                   [StudentForm.Open (Some id); StudentForm.StudentLoaded s;
                    StudentForm.SectionsLoaded ids; StudentForm.Submit])
            = [Send GetSectionList; Send (GetStudent id)]).
Proof.
  conjuncts.
  - intros st. destruct (student_submit_cases st)
      as [(Hr & Hn & sec & Hs & Hsec & E) | (Hbad & E)]; rewrite E.
    + split; [intros _ | reflexivity]. rewrite Hs. cbn.
      apply Z.eqb_neq in Hsec. rewrite Hsec. auto.
    + split; [discriminate |]. intros (Hr & Hn & Hs).
      destruct Hbad as [H | [H | [H | H]]]; try contradiction;
        rewrite H in Hs; discriminate.
  - intros st a Hin. destruct (student_submit_cases st)
      as [(Hr & Hn & sec & Hs & Hsec & E) | (Hbad & E)]; rewrite E in Hin.
    + destruct Hin as [<- | []]. eauto.
    + destruct Hin.
  - intros st id sec roll name Hr Hn Hsec.
    cbn [StudentForm.run StudentForm.step StudentForm.openStudentModal].
    unfold StudentForm.submit.
    cbn [StudentForm.studentRollNo StudentForm.studentName
         StudentForm.studentSection StudentForm.studentId].
    destruct (trim roll); [congruence |].
    destruct (trim name); [congruence |].
    apply Z.eqb_neq in Hsec. rewrite Hsec. reflexivity.
  - intros st id ids s roll name Er En Hr Hn Hin Hsec.
    assert (Hsel : StudentForm.selectValue ids (StudentForm.st_section_id s)
                   = Some (StudentForm.st_section_id s)).
    { unfold StudentForm.selectValue.
      destruct (existsb (Z.eqb (StudentForm.st_section_id s)) ids) eqn:Ex;
        [reflexivity |].
      assert (Ht : existsb (Z.eqb (StudentForm.st_section_id s)) ids = true)
        by (apply existsb_exists; eexists; split; [exact Hin | apply Z.eqb_refl]).
      congruence. }
    split.
    + cbn [StudentForm.run StudentForm.step StudentForm.openStudentModal].
      unfold StudentForm.submit.
      cbn [StudentForm.studentRollNo StudentForm.studentName
           StudentForm.studentSection StudentForm.studentId
           StudentForm.sectionOptions].
      rewrite Hsel, Er, En. cbn [StudentForm.orEmptyStr].
      destruct (trim roll); [congruence |].
      destruct (trim name); [congruence |].
      apply Z.eqb_neq in Hsec. rewrite Hsec. reflexivity.
    + cbn [StudentForm.run StudentForm.step StudentForm.openStudentModal].
      unfold StudentForm.submit.
      cbn [StudentForm.studentRollNo StudentForm.studentName
           StudentForm.studentSection StudentForm.studentId
           StudentForm.sectionOptions].
      rewrite Er, En. cbn [StudentForm.orEmptyStr].
      destruct (trim roll); [congruence |].
      destruct (trim name); reflexivity.
Qed.

Lemma student_dialog_requests_witness :
  trim (str " 12 ") <> [] /\ trim (str "Ann") <> [] /\ 3%Z <> 0%Z
  /\ snd (StudentForm.run
            {| StudentForm.studentId := Some 5%Z;
               StudentForm.sectionOptions := [3%Z];
               StudentForm.studentSection := None;
               StudentForm.studentRollNo := []; StudentForm.studentName := [];
               StudentForm.modalTitle := []; StudentForm.modalShown := false |}
            [StudentForm.Open (Some 9%Z); StudentForm.StudentLoadFailed;
             StudentForm.SectionSelect (Some 3%Z);
             StudentForm.RollInput (str " 12 "); StudentForm.NameInput (str "Ann");
             StudentForm.Submit])
     = [Send GetSectionList; Send (GetStudent 9);
        Send (PostStudent 3 (str "12") (str "Ann"))].
Proof.
  split; [discriminate |]. split; [discriminate |]. split; [discriminate |].
  apply (proj1 (proj2 (proj2 student_dialog_requests))
           {| StudentForm.studentId := Some 5%Z;
              StudentForm.sectionOptions := [3%Z];
              StudentForm.studentSection := None;
              StudentForm.studentRollNo := []; StudentForm.studentName := [];
              StudentForm.modalTitle := []; StudentForm.modalShown := false |}
           9%Z 3%Z (str " 12 ") (str "Ann")); discriminate.
Defined.

End AdminFacts.

(** ** The chat panel *)
Module ChatPanelFacts.
Import JsStringFacts Chat ChatSpec ChatAux ChatFacts ChatExtra ChatPanel.

Lemma messagesOf_app (a b : list Child) :
  messagesOf (a ++ b) = messagesOf a ++ messagesOf b.
Proof. apply filter_app. Qed.

Lemma messagesOf_setVisible (v : bool) (l : list Child) :
  messagesOf (map (setVisible v) l) = messagesOf l.
Proof.
  induction l as [|c l IH]; [reflexivity |].
  destruct c; cbn; [f_equal |]; exact IH.
Qed.

Lemma isLoading_setVisible (v : bool) (l : list Child) :
  map isLoading (map (setVisible v) l) = map isLoading l.
Proof.
  induction l as [|c l IH]; [reflexivity |].
  destruct c; cbn; f_equal; exact IH.
Qed.

Lemma visible_setVisible_false (l : list Child) :
  existsb visibleLoading (map (setVisible false) l) = false.
Proof.
  induction l as [|c l IH]; [reflexivity |]. destruct c; cbn; exact IH.
Qed.

Lemma visible_none (l : list Child) :
  existsb isLoading l = false -> existsb visibleLoading l = false.
Proof.
  induction l as [|c l IH]; [reflexivity |].
  destruct c; cbn; [exact IH | discriminate].
Qed.

Lemma setVisible_messages (v : bool) (l : list Child) :
  existsb isLoading l = false -> map (setVisible v) l = l.
Proof.
  induction l as [|c l IH]; [reflexivity |].
  destruct c; cbn; [| discriminate]. intros H. rewrite (IH H). reflexivity.
Qed.

Lemma chatShowLoading_messages (show : bool) (st : State) :
  messagesOf (chatMessages (chatShowLoading show st))
  = messagesOf (chatMessages st)
  /\ chatInput (chatShowLoading show st) = chatInput st.
Proof.
  unfold chatShowLoading.
  destruct (existsb isLoading (chatMessages st)).
  - cbn. split; [apply messagesOf_setVisible | reflexivity].
  - destruct show; cbn; [| auto].
    rewrite messagesOf_app. cbn. rewrite app_nil_r. auto.
Qed.

Lemma chatShowLoading_hidden (st : State) :
  existsb visibleLoading (chatMessages (chatShowLoading false st)) = false.
Proof.
  unfold chatShowLoading.
  destruct (existsb isLoading (chatMessages st)) eqn:E.
  - cbn. apply visible_setVisible_false.
  - apply visible_none, E.
Qed.

(** The answer to a request, of either kind: the indicator is hidden and
    one assistant message is appended. *)
Lemma answer_appends (text time : jsstring) (st : State) :
  let st' := chatAppendMessage ai text time (chatShowLoading false st) in
  messagesOf (chatMessages st')
  = messagesOf (chatMessages st) ++ [Message ai (messageHtml ai text time)]
  /\ chatInput st' = chatInput st
  /\ existsb visibleLoading (chatMessages st') = false.
Proof.
  cbv zeta. unfold chatAppendMessage. cbn [chatMessages chatInput withMessages].
  destruct (chatShowLoading_messages false st) as [Hm Hi].
  rewrite messagesOf_app, Hm, Hi. conjuncts; try reflexivity.
  rewrite existsb_app, chatShowLoading_hidden. reflexivity.
Qed.

(** X22.  A question typed and sent, then answered: the request carries the
    trimmed question; the input is emptied; exactly one user message and
    one assistant message are appended after the earlier ones, in this
    order, the assistant message holding the answer, or the fallback text
    when the answer is missing or empty, or the error message when the
    request failed; no loading indicator is left visible.  A blank input
    sends nothing, appends nothing and keeps what was typed. *)
Theorem chat_exchange (st : State) (v t1 t2 : jsstring) :
  (trim v <> [] ->
   forall answer : Event,
     (exists r, answer = ChatOk r t2) \/ (exists m, answer = ChatFailed m t2) ->
     let text :=
       match answer with
       | ChatOk r _ => orText r (str "No response.")
       | ChatFailed m _ =>
           orText m (str "AI usage limit reached. Please try later.")
       | _ => []
       end in
     let st' := fst (run st [InputChange v; SendClick t1; answer]) in
     snd (run st [InputChange v; SendClick t1; answer]) = [PostChat (trim v)]
     /\ chatInput st' = []
     /\ messagesOf (chatMessages st')
        = messagesOf (chatMessages st)
            ++ [Message user (messageHtml user (trim v) t1);
                Message ai (messageHtml ai text t2)]
     /\ existsb visibleLoading (chatMessages st') = false)
  /\ (trim v = [] ->
      run st [InputChange v; SendClick t1]
      = ({| chatMessages := chatMessages st; chatInput := v |}, [])).
Proof.
  split.
  - intros Hq answer Hans. cbv zeta.
    cbn [run step]. unfold chatSend. cbn [chatInput chatMessages].
    destruct (trim v) as [|c q] eqn:Eq; [congruence |].
    set (st2 := chatShowLoading true
                  (chatAppendMessage user (c :: q) t1
                     {| chatMessages := chatMessages st; chatInput := [] |})).
    assert (Hst2 : messagesOf (chatMessages st2)
                   = messagesOf (chatMessages st)
                       ++ [Message user (messageHtml user (c :: q) t1)]
                   /\ chatInput st2 = []).
    { subst st2.
      destruct (chatShowLoading_messages true
                  (chatAppendMessage user (c :: q) t1
                     {| chatMessages := chatMessages st; chatInput := [] |}))
        as [Hm Hi].
      rewrite Hm, Hi. unfold chatAppendMessage. cbn.
      rewrite messagesOf_app. auto. }
    destruct Hst2 as [Hm2 Hi2].
    destruct Hans as [[r ->] | [m ->]]; cbn [step fst snd app];
      match goal with
      | |- context [chatAppendMessage ai ?text t2 (chatShowLoading false st2)] =>
          destruct (answer_appends text t2 st2) as (Hm & Hi & Hv)
      end;
      (conjuncts; [reflexivity | rewrite Hi; exact Hi2
                  | rewrite Hm, Hm2, <- app_assoc; reflexivity | exact Hv]).
  - intros Hq. cbn [run step]. unfold chatSend. cbn [chatInput chatMessages].
    rewrite Hq. reflexivity.
Qed.

Lemma chat_exchange_witness :
  trim (str " hi ") <> []
  /\ snd (run {| chatMessages := []; chatInput := [] |}
            [InputChange (str " hi "); SendClick (str "09:10");
             ChatOk None (str "09:11")])
     = [PostChat (str "hi")]
  /\ messagesOf
       (chatMessages
          (fst (run {| chatMessages := []; chatInput := [] |}
                  [InputChange (str " hi "); SendClick (str "09:10");
                   ChatOk None (str "09:11")])))
     = [Message user (messageHtml user (str "hi") (str "09:10"));
        Message ai (messageHtml ai (str "No response.") (str "09:11"))].
Proof.
  assert (Hq : trim (str " hi ") <> []) by discriminate.
  split; [exact Hq |].
  destruct (proj1 (chat_exchange {| chatMessages := []; chatInput := [] |}
                     (str " hi ") (str "09:10") (str "09:11"))
              Hq (ChatOk None (str "09:11"))
              (or_introl (ex_intro _ None eq_refl)))
    as (Ha & _ & Hm & _).
  split; [exact Ha | exact Hm].
Defined.

(** *** The loading indicator *)

Lemma filter_isLoading_setVisible (v : bool) (l : list Child) :
  length (filter isLoading (map (setVisible v) l))
  = length (filter isLoading l).
Proof.
  induction l as [|c l IH]; [reflexivity |].
  destruct c; cbn; [| f_equal]; exact IH.
Qed.

Lemma filter_isLoading_none (l : list Child) :
  existsb isLoading l = false -> filter isLoading l = [].
Proof.
  induction l as [|c l IH]; [reflexivity |].
  destruct c; cbn; [exact IH | discriminate].
Qed.

Lemma chatShowLoading_count (show : bool) (st : State) :
  length (filter isLoading (chatMessages st)) <= 1 ->
  length (filter isLoading (chatMessages (chatShowLoading show st))) <= 1.
Proof.
  intros H. unfold chatShowLoading.
  destruct (existsb isLoading (chatMessages st)) eqn:E.
  - cbn. rewrite filter_isLoading_setVisible. exact H.
  - destruct show; [| exact H]. cbn.
    rewrite filter_app, (filter_isLoading_none _ E). cbn. lia.
Qed.

Lemma chatAppendMessage_count (role : Role) (text time : jsstring) (st : State) :
  filter isLoading (chatMessages (chatAppendMessage role text time st))
  = filter isLoading (chatMessages st).
Proof.
  unfold chatAppendMessage. cbn. rewrite filter_app. cbn.
  apply app_nil_r.
Qed.

Lemma step_count (st : State) (e : Event) :
  length (filter isLoading (chatMessages st)) <= 1 ->
  length (filter isLoading (chatMessages (fst (step st e)))) <= 1.
Proof.
  intros H. destruct e as [v | t | r t | m t]; cbn [step fst].
  - exact H.
  - unfold chatSend. destruct (trim (chatInput st)); [exact H |].
    cbn [fst]. apply chatShowLoading_count.
    rewrite chatAppendMessage_count. exact H.
  - rewrite chatAppendMessage_count. apply chatShowLoading_count, H.
  - rewrite chatAppendMessage_count. apply chatShowLoading_count, H.
Qed.

Lemma chatShowLoading_prefix (show : bool) (st : State) :
  exists tail,
    map isLoading (chatMessages (chatShowLoading show st))
    = map isLoading (chatMessages st) ++ tail.
Proof.
  unfold chatShowLoading.
  destruct (existsb isLoading (chatMessages st)).
  - exists []. cbn. rewrite isLoading_setVisible, app_nil_r. reflexivity.
  - destruct show.
    + eexists. cbn. rewrite map_app. reflexivity.
    + exists []. rewrite app_nil_r. reflexivity.
Qed.

Lemma step_prefix (st : State) (e : Event) :
  exists tail,
    map isLoading (chatMessages (fst (step st e)))
    = map isLoading (chatMessages st) ++ tail.
Proof.
  destruct e as [v | t | r t | m t]; cbn [step fst].
  - exists []. cbn. rewrite app_nil_r. reflexivity.
  - unfold chatSend. destruct (trim (chatInput st)) as [|c q].
    + exists []. cbn. rewrite app_nil_r. reflexivity.
    + cbn [fst].
      match goal with
      | |- context [chatShowLoading true ?s] =>
          destruct (chatShowLoading_prefix true s) as [tl Htl]
      end.
      rewrite Htl. unfold chatAppendMessage. cbn.
      rewrite map_app, <- app_assoc. eexists. reflexivity.
  - destruct (chatShowLoading_prefix false st) as [tl Htl].
    unfold chatAppendMessage. cbn [chatMessages withMessages].
    rewrite map_app, Htl, <- app_assoc. eexists. reflexivity.
  - destruct (chatShowLoading_prefix false st) as [tl Htl].
    unfold chatAppendMessage. cbn [chatMessages withMessages].
    rewrite map_app, Htl, <- app_assoc. eexists. reflexivity.
Qed.

(** X23.  The loading indicator is made at most once and never moved:
    along any sequence of events the list of messages holds at most one
    indicator, and the children already there stay at their places, new
    ones being appended.  So once the indicator exists, a later question is
    appended below it: the indicator is shown above the newest question. *)
Theorem loading_indicator_made_once :
  (forall (es : list Event) (st : State),
      length (filter isLoading (chatMessages st)) <= 1 ->
      length (filter isLoading (chatMessages (fst (run st es)))) <= 1
      /\ exists tail,
           map isLoading (chatMessages (fst (run st es)))
           = map isLoading (chatMessages st) ++ tail)
  /\ (forall (pre post : list Child) (b : bool) (v t : jsstring),
         existsb isLoading pre = false ->
         existsb isLoading post = false ->
         trim v <> [] ->
         chatMessages
           (fst (run {| chatMessages := pre ++ LoadingEl b :: post;
                        chatInput := [] |}
                   [InputChange v; SendClick t]))
         = pre ++ LoadingEl true
               :: post ++ [Message user (messageHtml user (trim v) t)]).
Proof.
  split.
  - induction es as [|e es IH]; intros st H.
    + split; [exact H |]. exists []. cbn. rewrite app_nil_r. reflexivity.
    + cbn [run]. pose proof (step_count st e H) as H1.
      destruct (step_prefix st e) as [tl1 Htl1].
      destruct (step st e) as [st1 a1]. cbn [fst] in H1, Htl1.
      destruct (IH st1 H1) as [H2 [tl2 Htl2]].
      destruct (run st1 es) as [st2 a2]. cbn [fst] in *.
      split; [exact H2 |]. exists (tl1 ++ tl2).
      rewrite Htl2, Htl1, app_assoc. reflexivity.
  - intros pre post b v t Hpre Hpost Hq.
    cbn [run step fst]. unfold chatSend. cbn [chatInput chatMessages].
    destruct (trim v) as [|c q]; [congruence |]. cbn [fst].
    unfold chatShowLoading, chatAppendMessage.
    cbn [chatMessages chatInput withMessages].
    rewrite !existsb_app. cbn [existsb isLoading].
    rewrite orb_true_r. cbn [orb].
    rewrite <- app_assoc. cbn [app]. rewrite map_app. cbn [map setVisible].
    rewrite map_app. cbn [map setVisible].
    rewrite (setVisible_messages true pre Hpre),
            (setVisible_messages true post Hpost).
    reflexivity.
Qed.

Lemma loading_indicator_made_once_witness :
  length (filter isLoading []) <= 1
  /\ length (filter isLoading
       (chatMessages
          (fst (run {| chatMessages := []; chatInput := str "a" |}
                  [SendClick (str "1"); ChatFailed None (str "2");
                   InputChange (str "b"); SendClick (str "3")])))) <= 1.
Proof.
  assert (H : length (filter isLoading
                (chatMessages {| chatMessages := []; chatInput := str "a" |}))
              <= 1) by (cbn; lia).
  split; [exact H |].
  exact (proj1 (proj1 loading_indicator_made_once
                  [SendClick (str "1"); ChatFailed None (str "2");
                   InputChange (str "b"); SendClick (str "3")]
                  {| chatMessages := []; chatInput := str "a" |} H)).
Defined.

(** *** The markup of a message *)

Lemma escapeChar_noLF (c : char) :
  N.eqb c LF = false -> noLF (escapeChar c) = true.
Proof.
  intros H. unfold escapeChar.
  repeat match goal with
         | |- context [N.eqb c ?k] => destruct (N.eqb c k)
         end; try reflexivity.
  cbn. rewrite H. reflexivity.
Qed.

Lemma escapeHtml_noLF (s : jsstring) :
  noLF s = true -> noLF (escapeHtml (Some s)) = true.
Proof.
  unfold noLF. intros H. apply escapeHtml_forallb; [reflexivity | exact H].
Qed.

(** Escaping commutes with splitting at line feeds. *)
Lemma flat_map_lines (by_ : jsstring) (s : jsstring) :
  replaceChar LF by_ (flat_map escapeChar s)
  = join by_ (map (flat_map escapeChar) (split LF s)).
Proof.
  induction s as [|c s IH]; [reflexivity |].
  rewrite split_cons. cbn [flat_map].
  rewrite replaceChar_app, IH.
  destruct (N.eqb c LF) eqn:E.
  - apply N.eqb_eq in E. subst c.
    cbn [map]. rewrite join_cons
      by (intros Hn; apply map_eq_nil in Hn; exact (split_not_nil _ _ Hn)).
    change (escapeChar LF) with [LF]. cbn [replaceChar flat_map app].
    rewrite N.eqb_refl, app_nil_r. reflexivity.
  - rewrite (replaceChar_absent LF by_ (escapeChar c))
      by (apply escapeChar_noLF, E).
    rewrite (split_hd_tl LF s) at 1. cbn [map hd tl flat_map].
    destruct (tl (split LF s)) as [|l ls].
    + cbn. reflexivity.
    + rewrite !join_cons by discriminate.
      rewrite <- app_assoc. reflexivity.
Qed.

Lemma user_body_lines (by_ s : jsstring) :
  replaceChar LF by_ (escapeHtml (Some s))
  = join by_ (map (fun l => escapeHtml (Some l)) (split LF s)).
Proof. exact (flat_map_lines by_ s). Qed.

(** X24.  A message never brings markup of its own into the panel.  The
    text of a user message is shown line by line, each line escaped, with
    [<br>] between the lines; the body of an assistant message is the
    formatter's result inside its wrapper, and its only tags are those the
    formatter writes; the time is escaped. *)
Theorem message_markup_is_escaped (text time : jsstring) :
  messageBody user text
  = join (str "<br>") (map (fun l => escapeHtml (Some l)) (split LF text))
  /\ Forall (fun l => plain l = true /\ noLF l = true)
       (map (fun l => escapeHtml (Some l)) (split LF text))
  /\ (exists html,
         formatAiMessage (Some text) = Some html
         /\ messageBody ai text = bodyOpen ++ html ++ str "</span>"
         /\ OnlyKnownTags html)
  /\ (forall role,
         messageHtml role text time
         = messageBody role text ++ timeOpen
             ++ escapeHtml (Some time) ++ str "</span>")
  /\ plain (escapeHtml (Some time)) = true.
Proof.
  conjuncts.
  - apply user_body_lines.
  - apply Forall_map. pose proof (split_no_sep LF text) as H.
    eapply Forall_impl; [| exact H]. cbv beta. intros l Hl.
    split; [apply escapeHtml_plain | apply escapeHtml_noLF, Hl].
  - destruct (formatAiMessage_OKT (Some text)) as (html & E & H).
    exists html. unfold messageBody, formatted. rewrite E. auto.
  - intros role. reflexivity.
  - apply escapeHtml_plain.
Qed.

End ChatPanelFacts.

(** ** Navigation *)
Module NavigationFacts.
Import MarkFacts Navigation.

Lemma strEqb_sym (a b : jsstring) : Mark.strEqb a b = Mark.strEqb b a.
Proof.
  destruct (Mark.strEqb a b) eqn:E1, (Mark.strEqb b a) eqn:E2; try reflexivity.
  - apply strEqb_eq in E1. subst. rewrite strEqb_refl in E2. discriminate.
  - apply strEqb_eq in E2. subst. rewrite strEqb_refl in E1. discriminate.
Qed.

(** X25.  [showPage] makes exactly one page active when its argument is
    one of the six page names and none otherwise; the page elements it
    addresses are six different ones, whatever the argument.  A page is
    rendered exactly for the six names; [logout] reloads, and from the
    navigation it does so without touching the pages; any other name
    leaves every page inactive and renders nothing. *)
Theorem showPage_one_active (pageId : jsstring) :
  activeCount (fst (showPage pageId))
  = (if existsb (Mark.strEqb pageId) pages then 1 else 0)
  /\ NoDup (map fst (fst (showPage pageId)))
  /\ length (fst (showPage pageId)) = 6
  /\ (In pageId pages <->
      snd (showPage pageId) <> NoRender /\ snd (showPage pageId) <> Reload)
  /\ (snd (showPage pageId) = Reload <-> pageId = str "logout")
  /\ (pageId = str "logout" -> navClick pageId = ([], Reload))
  /\ (pageId <> str "logout" -> navClick pageId = showPage pageId).
Proof.
  conjuncts.
  - unfold showPage, pageToggles, pages, activeCount.
    cbn [fst map existsb filter snd].
    rewrite !(strEqb_sym pageId).
    repeat match goal with
           | |- context [Mark.strEqb (str ?p) pageId] =>
               let E := fresh "E" in
               destruct (Mark.strEqb (str p) pageId) eqn:E;
               [apply strEqb_eq in E; subst pageId; vm_compute; reflexivity |]
           end.
    reflexivity.
  - unfold showPage, pageToggles. cbn [fst]. rewrite map_map. cbn [fst].
    vm_compute. repeat constructor; cbn; intuition discriminate.
  - reflexivity.
  - unfold showPage, renderOf. cbn [snd]. split.
    + intros Hin. unfold pages in Hin. cbn [In] in Hin.
      repeat (destruct Hin as [<- | Hin]; [vm_compute; split; discriminate |]).
      destruct Hin.
    + intros [Hn Hr].
      repeat match type of Hn with
             | context [Mark.strEqb pageId (str ?p)] =>
                 let E := fresh "E" in
                 destruct (Mark.strEqb pageId (str p)) eqn:E;
                 [apply strEqb_eq in E; subst pageId;
                  try (vm_compute; tauto); try congruence |]
             end.
      congruence.
  - unfold showPage, renderOf. cbn [snd]. split.
    + intros H.
      repeat match type of H with
             | context [Mark.strEqb pageId (str ?p)] =>
                 let E := fresh "E" in
                 destruct (Mark.strEqb pageId (str p)) eqn:E;
                 [try discriminate; apply strEqb_eq in E; exact E |]
             end.
      discriminate.
    + intros ->. reflexivity.
  - intros ->. reflexivity.
  - intros Hne. unfold navClick.
    destruct (Mark.strEqb pageId (str "logout")) eqn:E; [| reflexivity].
    apply strEqb_eq in E. contradiction.
Qed.

Lemma showPage_one_active_witness :
  str "students" <> str "logout"
  /\ navClick (str "students") = showPage (str "students").
Proof.
  assert (H : str "students" <> str "logout") by discriminate.
  split; [exact H |].
  exact (proj2 (proj2 (proj2 (proj2 (proj2 (proj2
           (showPage_one_active (str "students"))))))) H).
Defined.

End NavigationFacts.
